(** * swe-factory data collection: harvesting core

    A shallow embedding of the resilient harvesting core of
    [data_collection/collect] (files [utils.py], [utils_async.py] and
    [build_dataset_async.py]) together with the properties its specification
    states about it.

    Python values are modelled as follows: [str] is [string], [int] is [Z],
    [None]-able values are [option], dictionaries with a fixed set of keys
    are records, the response header dictionary is a [gmap string string],
    exceptions are the [Raise] branch of [result]. Library functions the
    repository calls but does not define (MD5, [int()] on strings,
    [datetime.strptime], the pygments lexer table) are parameters. *)

From Stdlib Require Import ZArith String Ascii List Bool Lia.
From stdpp Require Import base option list gmap strings pretty.

Open Scope string_scope.
Open Scope Z_scope.
Open Scope list_scope.

(** ** Python string primitives *)

Module PyStr.

(** [s.startswith(p)] *)
Definition startswith (s p : string) : bool := String.prefix p s.

(** [s.endswith(p)] *)
Definition endswith (s p : string) : bool :=
  String.prefix (String.rev p) (String.rev s).

(** [str.isspace] on the ASCII range: tab, line feed, vertical tab, form
    feed, carriage return, the four separators 28..31 and the blank. *)
Definition is_space (c : ascii) : bool :=
  let n := N_of_ascii c in
  ((9 <=? n) && (n <=? 13) || (28 <=? n) && (n <=? 32))%N.

Fixpoint lstrip (s : string) : string :=
  match s with
  | String c s' => if is_space c then lstrip s' else s
  | EmptyString => EmptyString
  end.

(** [s.strip()] *)
Definition strip (s : string) : string :=
  String.rev (lstrip (String.rev (lstrip s))).

Definition lower_char (c : ascii) : ascii :=
  let n := N_of_ascii c in
  if ((65 <=? n) && (n <=? 90))%N then ascii_of_N (n + 32) else c.

(** [s.lower()] on ASCII text *)
Fixpoint lower (s : string) : string :=
  match s with
  | String c s' => String (lower_char c) (lower s')
  | EmptyString => EmptyString
  end.

(** Splitting at every character satisfying [sep]. With [sep] the test for
    one character this is [s.split(c)]; with a set of characters it is
    [re.split] on an alternation of single characters. Adjacent separators
    give empty fields and the empty string gives one empty field, as in
    Python. *)
Fixpoint split_on (sep : ascii -> bool) (s : string) : list string :=
  match s with
  | EmptyString => [EmptyString]
  | String c s' =>
      if sep c then EmptyString :: split_on sep s'
      else match split_on sep s' with
           | h :: t => String c h :: t
           | [] => [String c EmptyString]
           end
  end.

Definition is_char (c d : ascii) : bool := Ascii.eqb c d.

(** [s.split(c)] for a one-character separator *)
Definition split (c : ascii) (s : string) : list string :=
  split_on (is_char c) s.

(** [sep.join(l)] *)
Definition join (sep : string) (l : list string) : string :=
  String.concat sep l.

(** [s.replace(old, new)] for a non-empty [old] (every call site passes a
    literal): occurrences are found left to right and do not overlap.
    [skip] counts the characters of a matched occurrence still to drop. *)
Fixpoint replace_go (old new : string) (skip : nat) (s : string) : string :=
  match s with
  | EmptyString => EmptyString
  | String c s' =>
      match skip with
      | S k => replace_go old new k s'
      | O =>
          if String.prefix old s
          then new +:+ replace_go old new (Nat.pred (String.length old)) s'
          else String c (replace_go old new 0 s')
      end
  end.

Definition replace (old new s : string) : string := replace_go old new 0 s.

(** [x in s] for strings: substring test *)
Fixpoint contains (s sub : string) : bool :=
  String.prefix sub s
  || match s with
     | String _ s' => contains s' sub
     | EmptyString => false
     end.

Fixpoint zeros (n : nat) : string :=
  match n with
  | O => EmptyString
  | S k => String "0" (zeros k)
  end.

(** [s.zfill(w)]: pad on the left with zeros up to width [w], after a
    leading sign if there is one. *)
Definition zfill (w : nat) (s : string) : string :=
  let pad := zeros (w - String.length s) in
  match s with
  | String c s' =>
      if (Ascii.eqb c "+" || Ascii.eqb c "-")%char
      then String c (pad +:+ s')
      else pad +:+ s
  | EmptyString => pad
  end.

(** [str(n)] for an [int] *)
Definition str_of_int (n : Z) : string := pretty n.

(** Truthiness of a string: [bool(s)] *)
Definition nonempty (s : string) : bool :=
  match s with EmptyString => false | _ => true end.

End PyStr.

(** ** Exceptions *)

(** The exception classes the modelled code raises or catches. *)
Inductive exn : Type :=
| ValueError
| KeyError
| NetworkError          (* the transport faults a fetcher lists in its [except] *)
| HTTP404NotFoundError  (* fastcore's exception, raised by GhApi calls *)
| OverflowError         (* a number out of the range of a library call *)
| OtherError.           (* any other exception class *)

Inductive result (A : Type) : Type :=
| Ret (a : A)
| Raise (e : exn).
Arguments Ret {A} a.
Arguments Raise {A} e.

Global Instance result_ret : MRet result := fun A a => Ret a.

Global Instance result_bind : MBind result := fun A B k m =>
  match m with
  | Ret a => k a
  | Raise e => Raise e
  end.

(** [int(s)] is a parameter of type [string -> option Z]; [None] is the
    [ValueError] Python raises on text that is not an integer literal. *)
Definition int_or_raise (py_int : string -> option Z) (s : string) : result Z :=
  match py_int s with
  | Some n => Ret n
  | None => Raise ValueError
  end.

(** ** ProxyRotator (the IdentityRotator of the specification)

    The class is defined twice, in [utils.py] and [utils_async.py]; the two
    definitions differ only in a progress log line of
    [increment_request_count]. *)

Module Rotator.

Record ProxyRotator : Type := mkRotator {
  repo_full_name : string;
  request_count : Z;
  max_requests_per_ip : Z;
  current_session_id : option string;
  rotation_count : Z;
  host : option string;
  password : option string;
  http_port : string;
  https_port : string;
  country : string;
  use_session : bool;
  enabled : bool;
  random_offset : option Z   (* the lazily created [_random_offset] *)
}.

Record proxies : Type := mkProxies { http : string; https : string }.

Definition getenv (env : gmap string string) (k : string) (d : string) : string :=
  default d (env !! k).

Definition truthy (o : option string) : bool :=
  match o with
  | Some s => PyStr.nonempty s
  | None => false
  end.

Section WithLibrary.
Variable py_int : string -> option Z.
Variable md5_int : string -> Z.   (* [int(hashlib.md5(s.encode()).hexdigest(), 16)] *)

(** [ProxyRotator.__init__], reading the process environment [env] *)
Definition init (env : gmap string string) (name : string) : result ProxyRotator :=
  m ← int_or_raise py_int (getenv env "VORTEX_PROXY_MAX_REQUESTS_PER_IP" "50");
  let h := env !! "VORTEX_PROXY_HOST" in
  let p := env !! "VORTEX_PROXY_PASSWORD" in
  Ret {| repo_full_name := name;
         request_count := 0;
         max_requests_per_ip := m;
         current_session_id := None;
         rotation_count := 0;
         host := h;
         password := p;
         http_port := getenv env "VORTEX_PROXY_HTTP_PORT" "8080";
         https_port := getenv env "VORTEX_PROXY_HTTPS_PORT" "18080";
         country := getenv env "VORTEX_PROXY_COUNTRY" "us";
         use_session :=
           String.eqb (PyStr.lower (getenv env "VORTEX_PROXY_USE_SESSION" "true")) "true";
         enabled := truthy h && truthy p;
         random_offset := None |}.

Definition set_offset (o : Z) (r : ProxyRotator) : ProxyRotator :=
  mkRotator (repo_full_name r) (request_count r) (max_requests_per_ip r)
    (current_session_id r) (rotation_count r) (host r) (password r)
    (http_port r) (https_port r) (country r) (use_session r) (enabled r)
    (Some o).

Definition set_session (s : option string) (r : ProxyRotator) : ProxyRotator :=
  mkRotator (repo_full_name r) (request_count r) (max_requests_per_ip r)
    s (rotation_count r) (host r) (password r)
    (http_port r) (https_port r) (country r) (use_session r) (enabled r)
    (random_offset r).

Definition set_count (n : Z) (r : ProxyRotator) : ProxyRotator :=
  mkRotator (repo_full_name r) n (max_requests_per_ip r)
    (current_session_id r) (rotation_count r) (host r) (password r)
    (http_port r) (https_port r) (country r) (use_session r) (enabled r)
    (random_offset r).

Definition set_rotation (n : Z) (r : ProxyRotator) : ProxyRotator :=
  mkRotator (repo_full_name r) (request_count r) (max_requests_per_ip r)
    (current_session_id r) n (host r) (password r)
    (http_port r) (https_port r) (country r) (use_session r) (enabled r)
    (random_offset r).

(** The three assignments every forced rotation performs:
    [rotation_count += 1; request_count = 0; current_session_id = None]. *)
Definition rotate (r : ProxyRotator) : ProxyRotator :=
  set_session None (set_count 0 (set_rotation (rotation_count r + 1) r)).

(** [_generate_new_session_id]; [now] is [int(time.time())]. *)
Definition _generate_new_session_id (now : Z) (r : ProxyRotator)
  : ProxyRotator * string :=
  let base_hash := md5_int (repo_full_name r) in
  let r1 := match random_offset r with
            | Some _ => r
            | None => set_offset (now mod 1000000) r
            end in
  let off := default 0 (random_offset r1) in
  let combined := (base_hash + rotation_count r1 + off) mod 100000000 in
  (r1, PyStr.zfill 8 (PyStr.str_of_int combined)).

(** [get_proxies] *)
Definition get_proxies (now : Z) (r : ProxyRotator)
  : ProxyRotator * option proxies :=
  if negb (enabled r) then (r, None)
  else
    let r1 := if request_count r >=? max_requests_per_ip r then rotate r else r in
    let r2 := match current_session_id r1 with
              | None =>
                  let '(r', sid) := _generate_new_session_id now r1 in
                  set_session (Some sid) r'
              | Some _ => r1
              end in
    let username :=
      if use_session r2
      then "proxy-cot-" +:+ country r2 +:+ "-sid-" +:+ default "None" (current_session_id r2)
      else "proxy" in
    let http_proxy :=
      "http://" +:+ username +:+ ":" +:+ default "None" (password r2) +:+ "@"
      +:+ default "None" (host r2) +:+ ":" +:+ http_port r2 in
    (r2, Some (mkProxies http_proxy http_proxy)).

(** [increment_request_count] *)
Definition increment_request_count (r : ProxyRotator) : ProxyRotator :=
  set_count (request_count r + 1) r.

(** [update_env_proxies] of [utils.py]: consults [get_proxies]; the
    environment variables it sets are read only by the HTTP library. *)
Definition update_env_proxies (now : Z) (r : ProxyRotator)
  : ProxyRotator * option proxies :=
  get_proxies now r.

(** One recorded request as every fetch path performs it:
    [increment_request_count()] followed by [get_proxies()]. *)
Definition record_request (now : Z) (r : ProxyRotator) : ProxyRotator :=
  fst (get_proxies now (increment_request_count r)).

(** The rotator states after each of a sequence of recorded requests,
    one clock reading per request. *)
Fixpoint run_requests (nows : list Z) (r : ProxyRotator) : list ProxyRotator :=
  match nows with
  | [] => []
  | now :: rest =>
      let r' := record_request now r in
      r' :: run_requests rest r'
  end.

End WithLibrary.

End Rotator.


(** ** PatchClassifier: [extract_patches]

    [utils.py] and [utils_async.py] each define [extract_patches]; the two
    bodies differ in how the diff is fetched and in one statement of the
    Java branch, so one definition takes the file as a [variant]. *)

Module Classifier.

(** The values ["test"] and ["diff"] of the variable [flag]; Python's [None]
    is [None] of [option flag]. *)
Inductive flag : Type := Test | Diff.

Inductive variant : Type :=
| Sync    (* utils.py *)
| Async.  (* utils_async.py *)

Definition flag_eqb (a b : flag) : bool :=
  match a, b with
  | Test, Test | Diff, Diff => true
  | _, _ => false
  end.

Definition nl : ascii := "010"%char.

(** The separators of [re.split(r" |_|\/|\.", ...)] *)
Definition header_sep (c : ascii) : bool :=
  (Ascii.eqb c " " || Ascii.eqb c "_" || Ascii.eqb c "/" || Ascii.eqb c ".")%char.

(** [set(re.split(r" |_|\/|\.", line.lower()))], kept as the list of fields *)
Definition words (line : string) : list string :=
  PyStr.split_on header_sep (PyStr.lower line).

(** [w in words] *)
Definition mem (w : string) (ws : list string) : bool :=
  existsb (String.eqb w) ws.

Definition word_flag (line : string) : flag :=
  let ws := words line in
  if mem "test" ws || mem "tests" ws || mem "testing" ws then Test else Diff.

(** The four-way test of the Java branch on a file name *)
Definition is_test_name (f : string) : bool :=
  PyStr.startswith f "Test" || PyStr.startswith f "Tests"
  || PyStr.endswith f "Test" || PyStr.endswith f "Tests".

(** The first statement group of the Java branch. [utils_async.py] assigns
    [file_name = file_name.replace(".java", "")]; [utils.py] calls
    [file_name.replace(".java", "")] and drops the result, so the test sees
    the name with its extension. *)
Definition java_name_flag (v : variant) (line : string) (fl : flag) : flag :=
  let file_name := List.last (PyStr.split "/" line) EmptyString in
  if PyStr.endswith file_name ".java" then
    let file_name' :=
      match v with
      | Async => PyStr.replace ".java" "" file_name
      | Sync => file_name
      end in
    if is_test_name file_name' then Test else fl
  else fl.

(** [flag = None] unless the flag is ["test"] or the file is accepted *)
Definition narrow (fl : flag) (accepted : bool) : option flag :=
  if negb (flag_eqb fl Test) && negb accepted then None else Some fl.

Section WithLexer.

(** [get_lexer_for_filename(f).name] of pygments; [None] is [ClassNotFound]. *)
Variable lexer_name : string -> option string.

Definition get_language_with_pygments (filename : string) : string :=
  match lexer_name filename with
  | Some n => PyStr.lower n
  | None => "Unknown"
  end.

(** The acceptance test of each language profile on a header line;
    [name] is [repo.name]. *)
Definition is_js (name line : string) : bool :=
  let language := get_language_with_pygments (PyStr.strip line) in
  let js := String.eqb language "javascript" || String.eqb language "typescript" in
  if (PyStr.contains name "webpack" || PyStr.contains name "jest")
     && PyStr.endswith (PyStr.strip line) ".json"
  then true else js.

Definition is_java (name line : string) : bool :=
  let language := get_language_with_pygments (PyStr.strip line) in
  let java := String.eqb language "java" in
  if PyStr.contains name "netty"
     && (PyStr.endswith (PyStr.strip line) ".c"
         || PyStr.endswith (PyStr.strip line) "pom.xml")
  then true else java.

(** The value of [flag] after a line starting with ["diff --git a/"] *)
Definition header_flag (v : variant) (language name line : string) : option flag :=
  let fl := word_flag line in
  if String.eqb language "python" then
    narrow fl (PyStr.endswith (PyStr.strip line) ".py")
  else if String.eqb language "js" then
    narrow fl (is_js name line)
  else if String.eqb language "java" then
    narrow (java_name_flag v line fl) (is_java name line)
  else Some fl.

Record state : Type := mkState {
  cur : option flag;
  patch_change : list string;
  patch_test : list string
}.

Definition init : state := mkState None [] [].

(** One iteration of [for line in patch.split("\n")] *)
Definition step (v : variant) (language name : string) (st : state) (line : string)
  : state :=
  if PyStr.startswith line "index " then st
  else
    let fl :=
      if PyStr.startswith line "diff --git a/"
      then header_flag v language name line
      else cur st in
    match fl with
    | Some Test => mkState fl (patch_change st) (patch_test st ++ [line])
    | Some Diff => mkState fl (patch_change st ++ [line]) (patch_test st)
    | None => mkState fl (patch_change st) (patch_test st)
    end.

Definition classify (v : variant) (language name : string) (lines : list string)
  : state :=
  fold_left (step v language name) lines init.

(** [patch[:-1] if patch.endswith("\n") else patch] *)
Definition chomp (patch : string) : string :=
  if PyStr.endswith patch (String nl EmptyString)
  then match String.rev patch with
       | String _ r => String.rev r
       | EmptyString => EmptyString
       end
  else patch.

(** The lines the loop iterates over *)
Definition lines_of (patch : string) : list string :=
  PyStr.split nl (chomp patch).

(** ["\n".join(l) + "\n" if len(l) > 0 else ""] *)
Definition render (l : list string) : string :=
  match l with
  | [] => EmptyString
  | _ => PyStr.join (String nl EmptyString) l +:+ String nl EmptyString
  end.

(** [extract_patches] from the point where the diff text [patch] has been
    fetched ([get_with_retries] in [utils.py], [repo.fetch_with_retries] in
    [utils_async.py]). *)
Definition extract_patches (v : variant) (language name patch : string)
  : string * string * bool :=
  if String.eqb patch "" then ("", "", false)
  else
    let st := classify v language name (lines_of patch) in
    (render (patch_change st), render (patch_test st), true).

End WithLexer.

(** A lexer table for the examples: the pygments names of a few extensions. *)
Definition sample_lexer (f : string) : option string :=
  if PyStr.endswith f ".java" then Some "Java"
  else if PyStr.endswith f ".js" then Some "JavaScript"
  else if PyStr.endswith f ".ts" then Some "TypeScript"
  else if PyStr.endswith f ".py" then Some "Python"
  else None.

End Classifier.

(** ** ResilientFetcher: [Repo.fetch_with_retries] and [Repo.github_api] *)

Module Fetch.

Import Rotator.

(** An HTTP response as the fetchers read it. *)
Record response : Type := mkResponse {
  status : Z;
  headers : gmap string string;
  text : result string;      (* the body; [Raise e] when reading it raises [e] *)
  json_error : option exn    (* what [response.json()] raises, if anything *)
}.

(** What one request comes to: a response, or an exception out of the HTTP
    library. *)
Inductive reply : Type :=
| Responds (r : response)
| Fails (e : exn).

(** The surroundings of one attempt: the reply and the clock,
    [int(time.time())]. *)
Record attempt_env : Type := mkEnv { env_reply : reply; env_now : Z }.

(** The replies a call meets, by attempt number. *)
Definition world : Type := nat -> attempt_env.

(** The variables of the retry loop: the rotator, [retries], the number of
    requests issued so far and the sleeps performed. *)
Record fstate : Type := mkF {
  rot : ProxyRotator;
  retries : Z;
  attempts : nat;
  slept : list Z
}.

(** How one pass through the loop body ends *)
Inductive outcome (A : Type) : Type :=
| Return (a : A)
| Continue
| Throw (e : exn).
Arguments Return {A} a.
Arguments Continue {A}.
Arguments Throw {A} e.

Definition set_rot (r : ProxyRotator) (st : fstate) : fstate :=
  mkF r (retries st) (attempts st) (slept st).

(** [retries += 1] *)
Definition incr (st : fstate) : fstate :=
  mkF (rot st) (retries st + 1) (attempts st) (slept st).

Definition sleep (d : Z) (st : fstate) : fstate :=
  mkF (rot st) (retries st) (attempts st) (slept st ++ [d]).

Definition issued (st : fstate) : fstate :=
  mkF (rot st) (retries st) (S (attempts st)) (slept st).

(** The three rotation assignments under [if self.proxy_rotator.enabled] *)
Definition rotate_if_enabled (st : fstate) : fstate :=
  if enabled (rot st) then set_rot (rotate (rot st)) st else st.

(** [while retries < max_retries: body], with fuel; [None] is fuel
    exhaustion, which the termination lemmas exclude. *)
Fixpoint run_loop {A : Type} (fuel : nat)
  (attempt : attempt_env -> fstate -> fstate * outcome A)
  (sentinel : A) (max_retries : Z) (w : world) (st : fstate)
  : option (fstate * result A) :=
  match fuel with
  | O => None
  | S fuel' =>
      if retries st <? max_retries then
        match attempt (w (attempts st)) st with
        | (st', Return a) => Some (st', Ret a)
        | (st', Throw e) => Some (st', Raise e)
        | (st', Continue) => run_loop fuel' attempt sentinel max_retries w st'
        end
      else Some (st, Ret sentinel)
  end.

Section WithLibrary.

Variable py_int : string -> option Z.
Variable md5_int : string -> Z.

(** Header lookups with [int()] applied: [None] is the [ValueError]. *)
Definition int_header (r : response) (k : string) (dflt : Z) : option Z :=
  match headers r !! k with
  | Some s => py_int s
  | None => Some dflt
  end.

(** *** [utils_async.py]: [Repo.fetch_with_retries] *)

(** The [except (aiohttp.ClientError, asyncio.TimeoutError)] clause *)
Definition async_except (e : exn) (st : fstate) : fstate * outcome string :=
  match e with
  | NetworkError =>
      let wait_time := Z.min (3 * (retries st + 1)) 15 in
      (incr (sleep wait_time (rotate_if_enabled st)), Continue)
  | _ => (st, Throw e)
  end.

(** [await asyncio.sleep(d)] inside the [try]. A delay of zero or less
    returns at once; otherwise the loop adds the delay to its clock, a
    float, and an [int] that no float holds, one from [float_limit] on,
    raises [OverflowError], which the [except] clause does not name. *)
Definition float_limit : Z := 2 ^ 1024 - 2 ^ 970.

Definition async_sleep (d : Z) (st : fstate)
  (k : fstate -> fstate * outcome string) : fstate * outcome string :=
  if float_limit <=? d then async_except OverflowError st else k (sleep d st).

Definition async_attempt (env : attempt_env) (st0 : fstate)
  : fstate * outcome string :=
  let st :=
    issued (if enabled (rot st0)
            then set_rot (record_request md5_int (env_now env) (rot st0)) st0
            else st0) in
  match env_reply env with
  | Fails e => async_except e st
  | Responds r =>
      if status r =? 200 then
        match text r with
        | Ret body => (st, Return body)
        | Raise e => async_except e st
        end
      else if status r =? 403 then
        match py_int (default "0" (headers r !! "X-RateLimit-Remaining")) with
        | None => async_except ValueError st
        | Some remaining =>
            if remaining =? 0 then
              if enabled (rot st) then
                async_sleep 1 (set_rot (rotate (rot st)) st)
                  (fun st2 => (incr st2, Continue))
              else
                match int_header r "X-RateLimit-Reset" (env_now env + 60) with
                | None => async_except ValueError st
                | Some reset_time =>
                    let sleep_time := Z.max (reset_time - env_now env + 1) 0 in
                    async_sleep sleep_time st (fun st2 => (incr st2, Continue))
                end
            else (incr st, Continue)
        end
      else if (status r =? 502) || (status r =? 503) then
        let wait_time := Z.min (3 * (retries st + 1)) 15 in
        async_sleep wait_time (rotate_if_enabled st)
          (fun st2 => (incr st2, Continue))
      else if status r =? 429 then
        match int_header r "Retry-After" 60 with
        | None => async_except ValueError st
        | Some retry_after =>
            if enabled (rot st) then
              async_sleep 2 (set_rot (rotate (rot st)) st)
                (fun st2 => (incr st2, Continue))
            else async_sleep retry_after st (fun st2 => (incr st2, Continue))
        end
      else if status r =? 404 then (st, Return "")
      else
        async_sleep (Z.min (3 * retries st) 15) st
          (fun st2 => (incr st2, Continue))
  end.

Definition start (r : ProxyRotator) : fstate := mkF r 0 0 [].

Definition fetch_with_retries (fuel : nat) (max_retries : Z) (w : world)
  (r : ProxyRotator) : option (fstate * result string) :=
  run_loop fuel async_attempt "" max_retries w (start r).

(** *** [utils.py]: [Repo.github_api] *)

(** The two [except] clauses. [NetworkError] stands for the classes of the
    first clause, [OSError] and its subclasses among them.
    [HTTP404NotFoundError] is one of those subclasses (fastcore derives it
    from urllib's [HTTPError], an [OSError]): the first clause, tried first,
    takes it, and the second clause with its [return None] is never
    reached. *)
Definition sync_except (e : exn) (st : fstate)
  : fstate * outcome (option response) :=
  match e with
  | NetworkError | HTTP404NotFoundError =>
      let wait_time := Z.min (3 * (retries st + 1)) 15 in
      (incr (sleep wait_time (rotate_if_enabled st)), Continue)
  | _ => (st, Throw e)
  end.

(** [time.sleep(d)] inside the [try]. A negative [d] raises [ValueError].
    CPython keeps the length as a signed 64-bit count of nanoseconds: a
    length above [time_sleep_max] seconds raises [OverflowError]. Neither
    class is named by an [except] clause. (Within a machine's uptime of
    [time_sleep_max] the operating system may refuse the deadline with an
    [OSError], which the first clause answers with a retry; the model lets
    such a sleep go through.) *)
Definition time_sleep_max : Z := 9223372036.

Definition sync_sleep (d : Z) (st : fstate)
  (k : fstate -> fstate * outcome (option response))
  : fstate * outcome (option response) :=
  if d <? 0 then sync_except ValueError st
  else if time_sleep_max <? d then sync_except OverflowError st
  else k (sleep d st).

Definition sync_attempt (env : attempt_env) (st0 : fstate)
  : fstate * outcome (option response) :=
  let st :=
    issued (if enabled (rot st0)
            then set_rot
                   (fst (update_env_proxies md5_int (env_now env)
                           (increment_request_count (rot st0)))) st0
            else st0) in
  match env_reply env with
  | Fails e => sync_except e st
  | Responds r =>
      if status r =? 200 then (st, Return (Some r))
      else if (status r =? 403)
              && bool_decide (is_Some (headers r !! "X-RateLimit-Remaining")) then
        match py_int (default "" (headers r !! "X-RateLimit-Remaining")) with
        | None => sync_except ValueError st
        | Some remaining =>
            if remaining =? 0 then
              if enabled (rot st) then
                let st1 :=
                  set_rot (fst (update_env_proxies md5_int (env_now env)
                                  (rotate (rot st)))) st in
                sync_sleep 1 (incr st1) (fun st2 => (st2, Continue))
              else
                match headers r !! "X-RateLimit-Reset" with
                | None => sync_except KeyError st
                | Some s =>
                    match py_int s with
                    | None => sync_except ValueError st
                    | Some reset_time =>
                        let sleep_time := reset_time - env_now env + 1 in
                        sync_sleep sleep_time st (fun st2 => (incr st2, Continue))
                    end
                end
            else
              match json_error r with
              | Some e => sync_except e st
              | None => (st, Return (Some r))
              end
        end
      else if (status r =? 503) || (status r =? 502) then
        let wait_time := Z.min (3 * (retries st + 1)) 15 in
        sync_sleep wait_time (rotate_if_enabled st)
          (fun st2 => (incr st2, Continue))
      else if status r =? 429 then
        match int_header r "Retry-After" 60 with
        | None => sync_except ValueError st
        | Some retry_after =>
            if enabled (rot st) then
              let st1 :=
                set_rot (fst (update_env_proxies md5_int (env_now env)
                                (rotate (rot st)))) st in
              sync_sleep 2 st1 (fun st2 => (incr st2, Continue))
            else sync_sleep retry_after st (fun st2 => (incr st2, Continue))
        end
      else
        let st1 := incr st in
        sync_sleep (Z.min (3 * retries st1) 15) st1 (fun st2 => (st2, Continue))
  end.

Definition github_api (fuel : nat) (max_retries : Z) (w : world)
  (r : ProxyRotator) : option (fstate * result (option response)) :=
  run_loop fuel sync_attempt None max_retries w (start r).

(** *** [utils.py]: [get_with_retries], the diff fetch of the synchronous
    [extract_patches]

    [token_valid] is the answer of [check_token_validity]; [rep] is what
    [session.get] comes to once the retries of the mounted adapter are
    over. [raise_for_status] raises on the 4xx and 5xx codes, and every
    exception is answered with the empty string. *)
Definition get_with_retries (token : option string) (token_valid : bool)
  (now : Z) (proxy_rotator : option ProxyRotator) (rep : reply)
  : option ProxyRotator * string :=
  if truthy token && negb token_valid then (proxy_rotator, "")
  else
    let rotator' :=
      match proxy_rotator with
      | Some r =>
          if enabled r then Some (record_request md5_int now r) else Some r
      | None => None
      end in
    match rep with
    | Fails _ => (rotator', "")
    | Responds r =>
        if (400 <=? status r) && (status r <? 600) then (rotator', "")
        else match text r with
             | Ret body => (rotator', body)
             | Raise _ => (rotator', "")
             end
    end.

End WithLibrary.

End Fetch.

(** ** HarvestPipeline: [build_dataset_async.py]

    The asyncio units of one run share only the two read-only id sets and
    the append-only files, and every append happens under the one file
    lock; the model runs the units one after the other in task order. JSON
    lines are modelled by the records they encode. *)

Module Pipeline.

(** A pull request object of the work list *)
Record Pull : Type := mkPull {
  full_name : string;                      (* pull["base"]["repo"]["full_name"] *)
  number : Z;
  merged_at : option string;
  resolved_issues : option (list string);  (* [None]: the key is missing *)
  base_sha : string;                       (* pull["base"]["sha"] *)
  pull_created_at : string;                (* pull["created_at"] *)
  diff_url : string
}.

(** A task instance, also a line of an output file. [None] in
    [instance_id] is a line without that key; [None] in the text fields is
    JSON [null]. *)
Record Instance : Type := mkInstance {
  repo : string;
  pull_number : Z;
  instance_id : option string;
  issue_numbers : list string;
  base_commit : string;
  patch : option string;
  test_patch : option string;
  problem_statement : option string;
  hints_text : string;
  created_at : string
}.

(** The fields of [Repo] the pipeline reads *)
Record Repo : Type := mkRepo { owner : string; name : string; language : string }.

(** [self.repo_name = f"{owner}/{name}"] *)
Definition repo_name (r : Repo) : string := owner r +:+ "/" +:+ name r.

(** The three files of a run: [output + ".all"], [output] and
    [successful_requests.txt]; a file that does not exist reads as empty and
    is created on opening. *)
Record files : Type := mkFiles {
  all_output : list Instance;
  output : list Instance;
  successful : list string
}.

(** The files together with the diff fetches issued so far *)
Record run : Type := mkRun { fs : files; diff_fetches : list string }.

(** What the network answers during one run: the text
    [repo.fetch_with_retries(pull["diff_url"])] returns, and the result of
    [extract_problem_statement_and_hints]. *)
Record world : Type := mkWorld {
  fetch_diff : Pull -> result string;
  statement : Pull -> result (string * string)
}.

(** [(name + "-" + str(number)).replace("/", "__")] *)
Definition make_id (name : string) (n : Z) : string :=
  PyStr.replace "/" "__" (name +:+ "-" +:+ PyStr.str_of_int n).

Definition is_valid_pull (pull : Pull) : bool :=
  match merged_at pull with
  | None => false
  | Some _ =>
      match resolved_issues pull with
      | None => false
      | Some l => negb (length l <? 1)%nat
      end
  end.

Definition is_valid_instance (instance : Instance) : bool :=
  match patch instance with
  | None | Some EmptyString => false
  | Some _ =>
      match problem_statement instance with
      | None | Some EmptyString => false
      | Some _ => true
      end
  end.

Definition has_test_patch (instance : Instance) : bool :=
  match test_patch instance with
  | None => false
  | Some t => negb (String.eqb (PyStr.strip t) "")
  end.

Definition log_fetch (url : string) (st : run) : run :=
  mkRun (fs st) (diff_fetches st ++ [url]).

Definition append_successful (id : string) (st : run) : run :=
  mkRun (mkFiles (all_output (fs st)) (output (fs st)) (successful (fs st) ++ [id]))
        (diff_fetches st).

Definition append_all (i : Instance) (st : run) : run :=
  mkRun (mkFiles (all_output (fs st) ++ [i]) (output (fs st)) (successful (fs st)))
        (diff_fetches st).

Definition append_output (i : Instance) (st : run) : run :=
  mkRun (mkFiles (all_output (fs st)) (output (fs st) ++ [i]) (successful (fs st)))
        (diff_fetches st).

Section WithLibrary.

Variable strptime : string -> option Z.   (* [None]: [ValueError] *)
Variable lexer_name : string -> option string.

(** [create_instance] *)
Definition create_instance (w : world) (r : Repo) (pull : Pull) (st0 : run)
  : run * result Instance :=
  let st := log_fetch (diff_url pull) st0 in
  match fetch_diff w pull with
  | Raise e => (st, Raise e)
  | Ret text =>
      let '(patch_, test_patch_, request_success) :=
        Classifier.extract_patches lexer_name Classifier.Async
          (language r) (name r) text in
      let id := make_id (repo_name r) (number pull) in
      let st1 := if request_success then append_successful id st else st in
      match statement w pull with
      | Raise e => (st1, Raise e)
      | Ret (problem, hints) =>
          match resolved_issues pull with
          | None => (st1, Raise KeyError)
          | Some issues =>
              (st1, Ret {| repo := repo_name r;
                           pull_number := number pull;
                           instance_id := Some id;
                           issue_numbers := issues;
                           base_commit := base_sha pull;
                           patch := Some patch_;
                           test_patch := Some test_patch_;
                           problem_statement := Some problem;
                           hints_text := hints;
                           created_at := pull_created_at pull |})
          end
      end
  end.

(** [process_single_pr]; [seen_prs] and [successful_instances] are the sets
    [main] builds before any unit runs. *)
Definition process_single_pr (w : world) (cutoff_date : Z)
  (seen_prs successful_instances : gset string) (r : Repo) (pull : Pull)
  (st : run) : run :=
  let id := make_id (full_name pull) (number pull) in
  if bool_decide (id ∈ seen_prs) || bool_decide (id ∈ successful_instances)
  then st
  else if negb (is_valid_pull pull) then st
  else
    match create_instance w r pull st with
    | (st1, Raise _) => st1
    | (st1, Ret instance) =>
        match strptime (created_at instance) with
        | None => st1
        | Some t =>
            if t >=? cutoff_date then st1
            else if is_valid_instance instance then
              let st2 := append_all instance st1 in
              if has_test_patch instance then append_output instance st2
              else st2
            else st1
        end
    end.

(** The id [main] gives a line of the superset file *)
Definition line_id (pr : Instance) : string :=
  match instance_id pr with
  | Some id => id
  | None => make_id (repo pr) (pull_number pr)
  end.

(** Replaying the superset file: [seen_prs], or the [ValueError] of
    [strptime] on a line. *)
Fixpoint replay (lines : list Instance) (seen : gset string)
  : result (gset string) :=
  match lines with
  | [] => Ret seen
  | pr :: rest =>
      let seen' := {[ line_id pr ]} ∪ seen in
      match strptime (created_at pr) with
      | None => Raise ValueError
      | Some _ => replay rest seen'
      end
  end.

(** [owner, name = repo_name.split("/")] and the [Repo] made of them *)
Definition make_repo (language_ : string) (repo_full_name : string) : result Repo :=
  match PyStr.split "/" repo_full_name with
  | [o; n] => Ret (mkRepo o n language_)
  | _ => Raise ValueError
  end.

(** [pulls_by_repo]: the pulls grouped by repository, repositories in the
    order of their first pull. *)
Fixpoint group_insert (pull : Pull) (groups : list (string * list Pull))
  : list (string * list Pull) :=
  match groups with
  | [] => [(full_name pull, [pull])]
  | (k, ps) :: rest =>
      if String.eqb k (full_name pull) then (k, ps ++ [pull]) :: rest
      else (k, ps) :: group_insert pull rest
  end.

Definition pulls_by_repo (pulls : list Pull) : list (string * list Pull) :=
  fold_left (fun groups pull => group_insert pull groups) pulls [].

(** The tasks [main] creates: every pull with the [Repo] of its group. *)
Fixpoint make_tasks (language_ : string) (groups : list (string * list Pull))
  : result (list (Repo * Pull)) :=
  match groups with
  | [] => Ret []
  | (k, ps) :: rest =>
      r ← make_repo language_ k;
      tasks ← make_tasks language_ rest;
      Ret (((fun p => (r, p)) <$> ps) ++ tasks)
  end.

Definition run_tasks (w : world) (cutoff_date : Z)
  (seen_prs successful_instances : gset string) (tasks : list (Repo * Pull))
  (st : run) : run :=
  fold_left
    (fun st task =>
       process_single_pr w cutoff_date seen_prs successful_instances
         task.1 task.2 st)
    tasks st.

(** [main] on the work list [pulls] and the files [f] *)
Definition main (w : world) (language_ : string) (cutoff_date : string)
  (pulls : list Pull) (f : files) : result run :=
  match strptime cutoff_date with
  | None => Raise ValueError
  | Some cutoff =>
      let successful_instances : gset string :=
        list_to_set (PyStr.strip <$> successful f) in
      seen_prs ← replay (all_output f) ∅;
      tasks ← make_tasks language_ (pulls_by_repo pulls);
      Ret (run_tasks w cutoff seen_prs successful_instances tasks (mkRun f []))
  end.

End WithLibrary.

End Pipeline.

(** ** ParallelPageCache: [Repo.get_all_pulls_with_official_github_api]

    The worker threads of the pool fetch different pages, write different
    files and share nothing else; the model fetches the pages one after the
    other. The proxy a worker derives for its requests only routes them and
    is left out. *)

Module PageCache.

Section WithItem.

(** An element of a page: one pull request object *)
Variable Item : Type.

(** The cache directory [.prcache_<owner>_<name>]: [total_pages] of
    [meta.json] ([None] when the file is missing or unreadable) and the
    files [page_NNNN.json] by page number; a page file holds a JSON array,
    or text that [json.load] rejects ([None]). *)
Record cache : Type := mkCache {
  meta : option Z;
  pages : gmap Z (option (list Item))
}.

(** The reply to one page request: a status code with the parsed body
    ([None] when [r.json()] raises), or an exception. *)
Inductive page_reply : Type :=
| PageResponds (code : Z) (json : option (list Item))
| PageFault.

(** The reply to the page-1 request of step 1, with the page number the
    [Link] header names as last, if any. *)
Inductive discovery : Type :=
| DiscResponds (code : Z) (json : option (list Item)) (link_last : option Z)
| DiscFault.

(** What the function returns: the assembled pages, or the result of the
    sequential fallback [_get_all_pulls_sequential]. *)
Inductive listing : Type :=
| Assembled (results : list Item)
| Sequential.

(** The loop [for attempt in range(3)] of [fetch_page]: the data of the
    first attempt answered 200 with a readable body; [None] when all
    attempts fail and [fetch_page] returns [[]]. *)
Fixpoint fetch_attempts (n : nat) (attempt : nat) (replies : nat -> page_reply)
  : option (list Item) :=
  match n with
  | O => None
  | S n' =>
      match replies attempt with
      | PageResponds code (Some data) =>
          if code =? 200 then Some data
          else fetch_attempts n' (S attempt) replies
      | _ => fetch_attempts n' (S attempt) replies
      end
  end.

Definition fetch_page (replies : nat -> page_reply) : option (list Item) :=
  fetch_attempts 3 0 replies.

(** [range(1, last_page + 1)] *)
Definition page_range (last_page : Z) : list Z := seqZ 1 last_page.

(** Step 3 with a cache directory: a fetched page becomes a page file. *)
Definition fetch_into_cache (w : Z -> nat -> page_reply)
  (pages_to_fetch : list Z) (files : gmap Z (option (list Item)))
  : gmap Z (option (list Item)) :=
  fold_left
    (fun files page_num =>
       match fetch_page (w page_num) with
       | Some data => <[page_num := Some data]> files
       | None => files
       end)
    pages_to_fetch files.

(** Step 3 without one: [fetched_data[page_num] = data]. *)
Definition fetch_into_memory (w : Z -> nat -> page_reply)
  (pages_to_fetch : list Z) : gmap Z (list Item) :=
  fold_left
    (fun fetched_data page_num =>
       <[page_num := default [] (fetch_page (w page_num))]> fetched_data)
    pages_to_fetch ∅.

(** Step 4, one page, with a cache directory *)
Definition read_page (files : gmap Z (option (list Item))) (page_num : Z)
  : list Item :=
  match files !! page_num with
  | Some (Some data) => data
  | _ => []
  end.

(** Step 4, one page, without one *)
Definition recall_page (page1_data : list Item) (fetched_data : gmap Z (list Item))
  (page_num : Z) : list Item :=
  if page_num =? 1 then page1_data
  else default [] (fetched_data !! page_num).

(** Steps 2 to 4 *)
Definition fetch_and_combine (w : Z -> nat -> page_reply) (c : option cache)
  (last_page : Z) (page1_data : list Item) : option cache * listing :=
  match c with
  | Some dir =>
      let cached_pages := dom (pages dir) in
      let pages_to_fetch :=
        List.filter (fun p => negb (bool_decide (p ∈ cached_pages)))
          (page_range last_page) in
      let files := fetch_into_cache w pages_to_fetch (pages dir) in
      (Some (mkCache (meta dir) files),
       Assembled (concat (read_page files <$> page_range last_page)))
  | None =>
      let pages_to_fetch := page_range last_page in
      let fetched_data := fetch_into_memory w pages_to_fetch in
      (None,
       Assembled (concat (recall_page page1_data fetched_data
                            <$> page_range last_page)))
  end.

(** The whole function; [c] is [None] when [cache_dir] is. *)
Definition get_all_pulls_with_official_github_api (c : option cache)
  (disc : discovery) (w : Z -> nat -> page_reply)
  : result (option cache * listing) :=
  match c ≫= meta with
  | Some last_page => Ret (fetch_and_combine w c last_page [])
  | None =>
      match disc with
      | DiscFault => Ret (c, Sequential)
      | DiscResponds code json link_last =>
          if negb (code =? 200) then Ret (c, Sequential)
          else
            match json with
            | None => Raise ValueError
            | Some page1_data =>
                let last_page := default 1 link_last in
                let c1 :=
                  (fun dir =>
                     mkCache (Some last_page)
                       (<[1 := Some page1_data]> (pages dir))) <$> c in
                if last_page <=? 1 then Ret (c1, Assembled page1_data)
                else Ret (fetch_and_combine w c1 last_page page1_data)
            end
      end
  end.

End WithItem.

Arguments PageResponds {Item} code json.
Arguments PageFault {Item}.
Arguments DiscResponds {Item} code json link_last.
Arguments DiscFault {Item}.
Arguments Assembled {Item} results.
Arguments Sequential {Item}.
Arguments mkCache {Item} meta pages.
Arguments meta {Item} c.
Arguments pages {Item} c.

End PageCache.

(** ** Definitions used to state the properties *)

(** The number a string of decimal digits denotes, read left to right. *)
Fixpoint dec_val (acc : N) (s : string) : N :=
  match s with
  | EmptyString => acc
  | String c s' => dec_val (acc * 10 + (N_of_ascii c - 48)) s'
  end.

(** The session id [_generate_new_session_id] derives for rotation index
    [rot] and random offset [off]. *)
Definition session_id_at (md5_int : string -> Z) (name : string) (rot off : Z)
  : string :=
  PyStr.zfill 8 (PyStr.str_of_int ((md5_int name + rot + off) mod 100000000)).

(** The random offset in force once the first session id has been made. *)
Definition offset_after (r : Rotator.ProxyRotator) (now : Z) : Z :=
  default (now mod 1000000) (Rotator.random_offset r).

(** [settled md5 r0 off k r]: [r] is what [k >= 1] recorded requests make of
    the freshly rotated rotator [r0]. *)
Record settled (md5_int : string -> Z) (r0 : Rotator.ProxyRotator) (off k : Z)
  (r : Rotator.ProxyRotator) : Prop := mkSettled {
  settled_name : Rotator.repo_full_name r = Rotator.repo_full_name r0;
  settled_max : Rotator.max_requests_per_ip r = Rotator.max_requests_per_ip r0;
  settled_enabled : Rotator.enabled r = true;
  settled_offset : Rotator.random_offset r = Some off;
  settled_count :
    Rotator.request_count r = k mod Rotator.max_requests_per_ip r0;
  settled_rotation :
    Rotator.rotation_count r
    = Rotator.rotation_count r0 + k / Rotator.max_requests_per_ip r0;
  settled_session :
    Rotator.current_session_id r
    = Some (session_id_at md5_int (Rotator.repo_full_name r0)
              (Rotator.rotation_count r) off)
}.

(** [split3 l a b]: [a] and [b] are two subsequences of [l] that use no
    position of [l] twice; positions used by neither are dropped. *)
Inductive split3 {A : Type} : list A -> list A -> list A -> Prop :=
| split3_nil : split3 [] [] []
| split3_left x l a b : split3 l a b -> split3 (x :: l) (x :: a) b
| split3_right x l a b : split3 l a b -> split3 (x :: l) a (x :: b)
| split3_drop x l a b : split3 l a b -> split3 (x :: l) a b.

(** Lines of a diff by their role *)
Definition is_header (line : string) : bool :=
  PyStr.startswith line "diff --git a/".

Definition is_meta (line : string) : bool :=
  PyStr.startswith line "index ".

Definition non_meta (lines : list string) : list string :=
  List.filter (fun l => negb (is_meta l)) lines.

(** A file block: a header line followed by lines that are not headers. *)
Definition file_block (h : string) (body : list string) : Prop :=
  is_header h = true ∧ Forall (fun l => is_header l = false) body.

(** The header names a path with a component [tests]. *)
Definition has_tests_component (h : string) : Prop :=
  ∃ pre post : string, h = pre +:+ "/tests/" +:+ post.

(** The header names a path under [src/]. *)
Definition under_src (h : string) : bool :=
  PyStr.startswith h "diff --git a/src/".

(** The source-file acceptance test of the language profile *)
Definition accepted_source (lexer_name : string -> option string)
  (language name h : string) : bool :=
  if String.eqb language "python" then PyStr.endswith (PyStr.strip h) ".py"
  else if String.eqb language "js" then Classifier.is_js lexer_name name h
  else if String.eqb language "java" then Classifier.is_java lexer_name name h
  else true.

(** The Java profile takes the file for a test by its name. *)
Definition java_test_named (v : Classifier.variant) (language h : string) : bool :=
  String.eqb language "java"
  && Classifier.flag_eqb (Classifier.java_name_flag v h Classifier.Diff) Classifier.Test.

(** The outcome the round trip names: the code stream is the source block
    and the test stream is the tests block, each without metadata lines. *)
Definition round_trip (lexer_name : string -> option string)
  (v : Classifier.variant) (language name patch : string)
  (tests_block src_block : list string) : Prop :=
  Classifier.extract_patches lexer_name v language name patch
  = (Classifier.render (non_meta src_block),
     Classifier.render (non_meta tests_block), true).

(** The replies a fetcher copes with. An exception out of the HTTP library
    must be of a class the fetcher's [except] clauses name, a header the
    fetcher passes to [int()] on the path it takes must hold an integer, and
    a sleep whose length comes from a header must be one the sleeping call
    accepts: for [asyncio.sleep], a length below [float_limit]. *)
Definition async_benign (py_int : string -> option Z) (en : bool)
  (env : Fetch.attempt_env) : Prop :=
  match Fetch.env_reply env with
  | Fetch.Fails e => e = NetworkError
  | Fetch.Responds r =>
      if Fetch.status r =? 200 then
        ∀ e, Fetch.text r = Raise e → e = NetworkError
      else if Fetch.status r =? 403 then
        ∃ remaining,
          py_int (default "0" (Fetch.headers r !! "X-RateLimit-Remaining"))
          = Some remaining
          ∧ (remaining = 0 → en = false →
             ∃ reset_time,
               Fetch.int_header py_int r "X-RateLimit-Reset"
                 (Fetch.env_now env + 60) = Some reset_time
               ∧ reset_time - Fetch.env_now env + 1 < Fetch.float_limit)
      else if Fetch.status r =? 429 then
        ∃ retry_after,
          Fetch.int_header py_int r "Retry-After" 60 = Some retry_after
          ∧ (en = false → retry_after < Fetch.float_limit)
      else True
  end.

(** For [github_api] also: the reset header is there when it is read, the
    length of a sleep taken from a header is between 0 and [time_sleep_max],
    and [response.json()], called on a 403 reply that reports quota left,
    raises nothing outside the [except] clauses. *)
Definition sync_benign (py_int : string -> option Z) (en : bool)
  (env : Fetch.attempt_env) : Prop :=
  match Fetch.env_reply env with
  | Fetch.Fails e => e = NetworkError ∨ e = HTTP404NotFoundError
  | Fetch.Responds r =>
      if Fetch.status r =? 200 then True
      else if (Fetch.status r =? 403)
              && bool_decide (is_Some (Fetch.headers r !! "X-RateLimit-Remaining")) then
        ∃ remaining,
          py_int (default "" (Fetch.headers r !! "X-RateLimit-Remaining"))
          = Some remaining
          ∧ (remaining = 0 → en = false →
             ∃ s reset_time,
               Fetch.headers r !! "X-RateLimit-Reset" = Some s
               ∧ py_int s = Some reset_time
               ∧ 0 ≤ reset_time - Fetch.env_now env + 1 ≤ Fetch.time_sleep_max)
          ∧ (remaining ≠ 0 →
             Fetch.json_error r = None
             ∨ Fetch.json_error r = Some NetworkError
             ∨ Fetch.json_error r = Some HTTP404NotFoundError)
      else if (Fetch.status r =? 503) || (Fetch.status r =? 502) then True
      else if Fetch.status r =? 429 then
        ∃ retry_after,
          Fetch.int_header py_int r "Retry-After" 60 = Some retry_after
          ∧ (en = false → 0 ≤ retry_after ≤ Fetch.time_sleep_max)
      else True
  end.

(** A page succeeds with [data] when one of the three attempts is answered
    200 with a readable body, [data] being that of the first such attempt;
    it fails when no attempt is. *)
Definition succeeds {Item : Type} (replies : nat -> PageCache.page_reply Item)
  (data : list Item) : Prop :=
  ∃ a : nat,
    (a < 3)%nat ∧ replies a = PageCache.PageResponds 200 (Some data)
    ∧ ∀ (b : nat) (d : list Item),
        (b < a)%nat → replies b ≠ PageCache.PageResponds 200 (Some d).

Definition fails_every_attempt {Item : Type}
  (replies : nat -> PageCache.page_reply Item) : Prop :=
  ∀ (a : nat) (d : list Item),
    (a < 3)%nat → replies a ≠ PageCache.PageResponds 200 (Some d).

(** [items] gives every page its contribution: the item list of a page that
    succeeds, nothing for a page that fails every attempt. *)
Definition contributions {Item : Type} (w : Z -> nat -> PageCache.page_reply Item)
  (items : Z -> list Item) : Prop :=
  ∀ p : Z,
    (∀ d, succeeds (w p) d → items p = d)
    ∧ (fails_every_attempt (w p) → items p = []).

(** Page [p] is fetched successfully during a run that starts from the
    directory [dir]: by the page-1 request of step 1, made when no page count
    is recorded, or by a worker of step 3, which takes the pages of
    [1..last_page] that have no file. *)
Definition fetched_in_run {Item : Type} (dir : PageCache.cache Item)
  (disc : PageCache.discovery Item) (w : Z -> nat -> PageCache.page_reply Item)
  (last_page p : Z) (data : list Item) : Prop :=
  (p = 1 ∧ PageCache.meta dir = None
   ∧ ∃ link, disc = PageCache.DiscResponds 200 (Some data) link)
  ∨ ((p ≠ 1 ∨ PageCache.meta dir ≠ None)
     ∧ 1 ≤ p ≤ last_page ∧ PageCache.pages dir !! p = None
     ∧ succeeds (w p) data).

(** What a run that lists [last_page] pages leaves of the page files of
    [dir]: a page has a file exactly if it had one before or was fetched
    successfully in the run, the file of a page fetched in the run holds the
    fetched items, and every other file is still there with the content it
    had. *)
Definition files_after {Item : Type} (dir : PageCache.cache Item)
  (disc : PageCache.discovery Item) (w : Z -> nat -> PageCache.page_reply Item)
  (last_page : Z) (files : gmap Z (option (list Item))) : Prop :=
  (∀ p, is_Some (files !! p)
        ↔ is_Some (PageCache.pages dir !! p)
          ∨ ∃ d, fetched_in_run dir disc w last_page p d)
  ∧ (∀ p d, fetched_in_run dir disc w last_page p d →
            files !! p = Some (Some d))
  ∧ (∀ p x, PageCache.pages dir !! p = Some x →
            (¬ ∃ d, fetched_in_run dir disc w last_page p d) →
            files !! p = Some x).

(** What every pass through a loop body does to the loop variables *)
Definition pass_ok {A : Type} (P : bool -> Fetch.attempt_env -> Prop)
  (attempt : Fetch.attempt_env -> Fetch.fstate -> Fetch.fstate * Fetch.outcome A)
  : Prop :=
  ∀ env st,
    0 ≤ Fetch.retries st →
    Fetch.attempts (attempt env st).1 = S (Fetch.attempts st)
    ∧ Rotator.enabled (Fetch.rot (attempt env st).1)
      = Rotator.enabled (Fetch.rot st)
    ∧ ((attempt env st).2 = Fetch.Continue →
       Fetch.retries (attempt env st).1 = Fetch.retries st + 1)
    ∧ (P (Rotator.enabled (Fetch.rot st)) env →
       ∀ e, (attempt env st).2 ≠ Fetch.Throw e).

(** The instance id of a candidate of the work list *)
Definition candidate_id (pull : Pipeline.Pull) : string :=
  Pipeline.make_id (Pipeline.full_name pull) (Pipeline.number pull).

(** The instance the gates of the pipeline let through for one candidate, in
    a run that meets the world [w] and starts from the files [f], gate by
    gate as the specification lists them: the id of the candidate is in
    neither ledger (no line of the superset file carries it and the
    successful-fetch log does not list it); the pull is merged and has a
    linked issue; its repository name splits into owner and name; the diff
    fetch and the statement extraction return; the creation time parses and
    lies before the cutoff; code patch and problem statement are non-empty.
    [None] when a gate rejects the candidate. *)
Definition admitted (strptime : string -> option Z)
  (lexer_name : string -> option string) (w : Pipeline.world)
  (language_ : string) (cutoff : Z) (f : Pipeline.files) (pull : Pipeline.Pull)
  : option Pipeline.Instance :=
  if bool_decide (candidate_id pull
                  ∈ (Pipeline.line_id <$> Pipeline.all_output f))
     || bool_decide (candidate_id pull
                     ∈ (PyStr.strip <$> Pipeline.successful f))
  then None
  else if negb (Pipeline.is_valid_pull pull) then None
  else
    match Pipeline.make_repo language_ (Pipeline.full_name pull),
          Pipeline.fetch_diff w pull,
          Pipeline.statement w pull,
          Pipeline.resolved_issues pull,
          strptime (Pipeline.pull_created_at pull) with
    | Ret r, Ret text, Ret (problem, hints), Some issues, Some t =>
        let '(patch_, test_patch_, _) :=
          Classifier.extract_patches lexer_name Classifier.Async
            (Pipeline.language r) (Pipeline.name r) text in
        if (t <? cutoff) && PyStr.nonempty patch_ && PyStr.nonempty problem
        then Some {| Pipeline.repo := Pipeline.full_name pull;
                     Pipeline.pull_number := Pipeline.number pull;
                     Pipeline.instance_id := Some (candidate_id pull);
                     Pipeline.issue_numbers := issues;
                     Pipeline.base_commit := Pipeline.base_sha pull;
                     Pipeline.patch := Some patch_;
                     Pipeline.test_patch := Some test_patch_;
                     Pipeline.problem_statement := Some problem;
                     Pipeline.hints_text := hints;
                     Pipeline.created_at := Pipeline.pull_created_at pull |}
        else None
    | _, _, _, _, _ => None
    end.

(** The code patch and the problem statement of an instance are non-empty. *)
Definition complete (inst : Pipeline.Instance) : Prop :=
  (∃ p, Pipeline.patch inst = Some p ∧ p ≠ "")
  ∧ (∃ q, Pipeline.problem_statement inst = Some q ∧ q ≠ "").

(** The test patch of an instance is blank after trimming. *)
Definition blank_test (inst : Pipeline.Instance) : Prop :=
  ∀ t, Pipeline.test_patch inst = Some t → PyStr.strip t = "".

(** ** Sample inputs *)

Module Sample.

Definition NL : string := String Classifier.nl EmptyString.

(** The two-file diff of the specification's concrete scenario *)
Definition tests_header : string :=
  "diff --git a/tests/x_test.py b/tests/x_test.py".
Definition tests_body : list string :=
  ["index 1111111..2222222 100644"; "--- a/tests/x_test.py";
   "+++ b/tests/x_test.py"; "@@ -1 +1,2 @@"; " import x"; "+assert x.f() == 1"].
Definition src_header : string := "diff --git a/src/x.py b/src/x.py".
Definition src_body : list string :=
  ["index 3333333..4444444 100644"; "--- a/src/x.py"; "+++ b/src/x.py";
   "@@ -1 +1,2 @@"; " def f():"; "+    return 1"].
Definition two_file_diff : string :=
  Classifier.render ((tests_header :: tests_body) ++ (src_header :: src_body)).

(** The same diff with the source file named [src/test_util.py] *)
Definition helper_header : string :=
  "diff --git a/src/test_util.py b/src/test_util.py".
Definition helper_body : list string :=
  ["index 3333333..4444444 100644"; "--- a/src/test_util.py";
   "+++ b/src/test_util.py"; "@@ -1 +1,2 @@"; " def f():"; "+    return 1"].
Definition helper_diff : string :=
  Classifier.render ((tests_header :: tests_body) ++ (helper_header :: helper_body)).

(** A Java file block whose file name ends in [Test] *)
Definition java_header : string :=
  "diff --git a/src/main/FooTest.java b/src/main/FooTest.java".
Definition java_body : list string :=
  ["index 5555555..6666666 100644"; "--- a/src/main/FooTest.java";
   "+++ b/src/main/FooTest.java"; "@@ -1 +1,2 @@"; " class FooTest {";
   "+  void t() {}"].
Definition java_diff : string :=
  Classifier.render (java_header :: java_body).

(** [int()] on ASCII decimal text: surrounding blanks, an optional sign,
    then digits. *)
Fixpoint digits_val (s : string) (acc : Z) : option Z :=
  match s with
  | EmptyString => Some acc
  | String c s' =>
      let n := Z.of_N (N_of_ascii c) in
      if (48 <=? n) && (n <=? 57) then digits_val s' (acc * 10 + (n - 48))
      else None
  end.

Definition py_int (s : string) : option Z :=
  match PyStr.strip s with
  | EmptyString => None
  | String c s' =>
      if Ascii.eqb c "-" then
        if PyStr.nonempty s' then Z.opp <$> digits_val s' 0 else None
      else if Ascii.eqb c "+" then
        if PyStr.nonempty s' then digits_val s' 0 else None
      else digits_val (String c s') 0
  end.

(** [datetime.strptime(s, "%Y-%m-%dT%H:%M:%SZ")] on zero-padded text, as
    the number YYYYMMDDHHMMSS, which orders such instants as [datetime]
    does. *)
Definition strptime (s : string) : option Z :=
  match list_ascii_of_string s with
  | [y1; y2; y3; y4; "-"; m1; m2; "-"; d1; d2; "T";
     h1; h2; ":"; n1; n2; ":"; s1; s2; "Z"]%char =>
      digits_val
        (string_of_list_ascii
           [y1; y2; y3; y4; m1; m2; d1; d2; h1; h2; n1; n2; s1; s2]) 0
  | _ => None
  end.

(** A stand-in for the MD5 digest of the repository name *)
Definition md5_int (s : string) : Z := Z.of_nat (String.length s) * 7919.

(** A rotator as [__init__] leaves it: without a proxy, and with one. *)
Definition plain_rotator : Rotator.ProxyRotator :=
  Rotator.mkRotator "o/r" 0 50 None 0 None None "8080" "18080" "us" true false None.

Definition proxy_rotator : Rotator.ProxyRotator :=
  Rotator.mkRotator "o/r" 0 2 None 0 (Some "proxy.example") (Some "secret")
    "8080" "18080" "us" true true None.

(** The environment of a proxy whose rotation threshold is set to 0, and
    the rotator [__init__] makes of it. *)
Definition zero_threshold_env : gmap string string :=
  {[ "VORTEX_PROXY_MAX_REQUESTS_PER_IP" := "0";
     "VORTEX_PROXY_HOST" := "proxy.example";
     "VORTEX_PROXY_PASSWORD" := "secret" ]}.

Definition zero_threshold_rotator : Rotator.ProxyRotator :=
  Rotator.mkRotator "o/r" 0 0 None 0 (Some "proxy.example") (Some "secret")
    "8080" "18080" "us" true true None.

(** Every request is answered 404. *)
Definition not_found : Fetch.response :=
  Fetch.mkResponse 404 ∅ (Ret "Not Found") None.
Definition world_404 : Fetch.world :=
  fun _ => Fetch.mkEnv (Fetch.Responds not_found) 1700000000.

(** Every request is answered 403 with a quota header that is no number. *)
Definition malformed : Fetch.response :=
  Fetch.mkResponse 403 {[ "X-RateLimit-Remaining" := "none" ]} (Ret "") None.
Definition world_malformed : Fetch.world :=
  fun _ => Fetch.mkEnv (Fetch.Responds malformed) 1700000000.

(** Two server errors, then the body. *)
Definition world_flaky : Fetch.world :=
  fun i =>
    if (i <? 2)%nat
    then Fetch.mkEnv (Fetch.Responds (Fetch.mkResponse 503 ∅ (Ret "") None)) 1700000000
    else Fetch.mkEnv (Fetch.Responds (Fetch.mkResponse 200 ∅ (Ret "diff") None)) 1700000000.

(** A 403 reply that reports the quota used up until [reset]. The first
    world answers so once, the reset half a minute ahead, and then with the
    body; in the second every reply names a reset some three hundred years
    ahead. *)
Definition rate_limited (reset : string) : Fetch.response :=
  Fetch.mkResponse 403
    {[ "X-RateLimit-Remaining" := "0"; "X-RateLimit-Reset" := reset ]}
    (Ret "") None.
Definition world_rate_limited : Fetch.world :=
  fun i =>
    if (i <? 1)%nat
    then Fetch.mkEnv (Fetch.Responds (rate_limited "1700000030")) 1700000000
    else Fetch.mkEnv (Fetch.Responds (Fetch.mkResponse 200 ∅ (Ret "diff") None)) 1700000000.
Definition world_far_reset : Fetch.world :=
  fun _ => Fetch.mkEnv (Fetch.Responds (rate_limited "11700000000")) 1700000000.

(** Every request is answered 429 with a [Retry-After] of 10 to the 400. *)
Definition world_far_retry : Fetch.world :=
  fun _ =>
    Fetch.mkEnv
      (Fetch.Responds
         (Fetch.mkResponse 429
            {[ "Retry-After" := String "1" (PyStr.zeros 400) ]} (Ret "") None))
      1700000000.

(** Every request raises fastcore's [HTTP404NotFoundError]. *)
Definition world_raises_404 : Fetch.world :=
  fun _ => Fetch.mkEnv (Fetch.Fails HTTP404NotFoundError) 1700000000.

(** The pull request of the specification's concrete scenario, and the
    same pull request created after the cutoff. *)
Definition pull5 : Pipeline.Pull :=
  Pipeline.mkPull "o/r" 5 (Some "2024-01-01T00:00:00Z") (Some ["9"]) "abc123"
    "2024-01-01T00:00:00Z" "https://github.com/o/r/pull/5.diff".

Definition late_pull : Pipeline.Pull :=
  Pipeline.mkPull "o/r" 6 (Some "2025-06-01T00:00:00Z") (Some ["9"]) "abc123"
    "2025-06-01T00:00:00Z" "https://github.com/o/r/pull/6.diff".

Definition cutoff : string := "2025-01-01T00:00:00Z".

(** A diff that touches one source file only *)
Definition src_only_diff : string :=
  Classifier.render (src_header :: src_body).

(** The network answers every diff request with [src_only_diff] and finds
    the linked issue. *)
Definition world_src_only : Pipeline.world :=
  Pipeline.mkWorld (fun _ => Ret src_only_diff)
    (fun _ => Ret ("Title" +:+ NL +:+ "Body" +:+ NL, "")).

(** The diff endpoint answers with an empty body. *)
Definition world_empty_diff : Pipeline.world :=
  Pipeline.mkWorld (fun _ => Ret "")
    (fun _ => Ret ("Title" +:+ NL +:+ "Body" +:+ NL, "")).

Definition no_files : Pipeline.files := Pipeline.mkFiles [] [] [].

Definition cutoff_instant : Z := 20250101000000.

(** The instance [create_instance] makes of [pull5] from [world_src_only],
    and the state of a first run over the work list [[pull5]]. *)
Definition instance5 : Pipeline.Instance :=
  Pipeline.mkInstance "o/r" 5 (Some "o__r-5") ["9"] "abc123"
    (Some (Classifier.render
             (List.filter (fun l => negb (PyStr.startswith l "index "))
                (src_header :: src_body))))
    (Some "") (Some ("Title" +:+ NL +:+ "Body" +:+ NL)) ""
    "2024-01-01T00:00:00Z".

Definition after_run1 : Pipeline.run :=
  Pipeline.mkRun (Pipeline.mkFiles [instance5] [] ["o__r-5"])
    ["https://github.com/o/r/pull/5.diff"].

Definition after_run2 : Pipeline.run :=
  Pipeline.mkRun (Pipeline.mkFiles [instance5] [] ["o__r-5"]) [].

(** A run over [[pull5]] whose diff fetch comes back empty *)
Definition after_empty_run : Pipeline.run :=
  Pipeline.mkRun no_files ["https://github.com/o/r/pull/5.diff"].

(** A diff of one file that the Python profile does not accept *)
Definition readme_header : string := "diff --git a/README.md b/README.md".
Definition readme_diff : string :=
  Classifier.render [readme_header; "+hello"].

Definition repo_o_r : Pipeline.Repo := Pipeline.mkRepo "o" "r" "python".

(** A listing of three pages: page 2 succeeds at its second attempt and
    page 3 fails every attempt. *)
Definition page_world : Z -> nat -> PageCache.page_reply Z :=
  fun p a =>
    if p =? 2 then
      if (a =? 1)%nat then PageCache.PageResponds 200 (Some [20; 21])
      else PageCache.PageFault
    else PageCache.PageResponds 503 None.

Definition page_items : Z -> list Z :=
  fun p => if p =? 2 then [20; 21] else [].

Definition page_discovery : PageCache.discovery Z :=
  PageCache.DiscResponds 200 (Some [10; 11]) (Some 3).

Definition empty_dir : PageCache.cache Z := PageCache.mkCache None ∅.

(** The directory an interrupted run leaves: the page count and page 1. *)
Definition resumed_dir : PageCache.cache Z :=
  PageCache.mkCache (Some 3) {[ 1 := Some [10; 11] ]}.

End Sample.

(** ** [utils.py]: [Repo.call_api], the wrapper of the GhApi calls *)

Module CallApi.

Import Rotator.

(** What one call of [func] comes to: a value, the
    [HTTP403ForbiddenError] of a rate limit, or another exception
    ([HTTP404NotFoundError] and [NetworkError] are those the clauses name,
    the rest falls to [except Exception]). *)
Inductive api_reply (V : Type) : Type :=
| Value (v : V)
| Forbidden
| Raises (e : exn).
Arguments Value {V} v.
Arguments Forbidden {V}.
Arguments Raises {V} e.

(** The surroundings of one call: its outcome and the clock. *)
Record api_env (V : Type) : Type := mkApiEnv {
  api_outcome : api_reply V;
  api_now : Z
}.
Arguments mkApiEnv {V} api_outcome api_now.
Arguments api_outcome {V} a.
Arguments api_now {V} a.

(** The rotator, the calls of [func] made, the polls of the rate limit made
    and the sleeps performed. *)
Record cstate : Type := mkC {
  rot : ProxyRotator;
  calls : nat;
  polls : nat;
  slept : list Z
}.

Definition set_rot (r : ProxyRotator) (st : cstate) : cstate :=
  mkC r (calls st) (polls st) (slept st).
Definition called (st : cstate) : cstate :=
  mkC (rot st) (S (calls st)) (polls st) (slept st).
Definition polled (st : cstate) : cstate :=
  mkC (rot st) (calls st) (S (polls st)) (slept st).
Definition sleep (d : Z) (st : cstate) : cstate :=
  mkC (rot st) (calls st) (polls st) (slept st ++ [d]).

Section WithLibrary.

Variable V : Type.
Variable md5_int : string -> Z.

(** The outcomes of the calls, by call number, and the answers of
    [self.api.rate_limit.get()], by poll number: the remaining quota, or the
    exception the poll raises. *)
Variable w : nat -> api_env V.
Variable rate_limit : nat -> result Z.

(** The [while True] loop of the 403 clause when no proxy is configured,
    with fuel; an exception of the poll leaves [call_api]. *)
Fixpoint wait_for_quota (fuel : nat) (st : cstate) : option (cstate * result unit) :=
  match fuel with
  | O => None
  | S fuel' =>
      match rate_limit (polls st) with
      | Raise e => Some (polled st, Raise e)
      | Ret remaining =>
          if remaining >? 0 then Some (polled st, Ret tt)
          else wait_for_quota fuel' (sleep (60 * 5) (polled st))
      end
  end.

(** The three rotation assignments followed by [update_env_proxies()] *)
Definition rotate_and_update (now : Z) (st : cstate) : cstate :=
  set_rot (fst (update_env_proxies md5_int now (rotate (rot st)))) st.

(** [for attempt in range(max_retries)], from [attempt] on with [n] passes
    left *)
Fixpoint attempts_from (fuel : nat) (max_retries : Z) (n : nat) (attempt : Z)
  (st0 : cstate) : option (cstate * result (option V)) :=
  match n with
  | O => Some (st0, Ret None)
  | S n' =>
      let env := w (calls st0) in
      let st := called st0 in
      match api_outcome env with
      | Value v => Some (st, Ret (Some v))
      | Forbidden =>
          if enabled (rot st) then
            attempts_from fuel max_retries n' (attempt + 1)
              (sleep 2 (rotate_and_update (api_now env) st))
          else
            match wait_for_quota fuel st with
            | None => None
            | Some (st1, Raise e) => Some (st1, Raise e)
            | Some (st1, Ret _) =>
                attempts_from fuel max_retries n' (attempt + 1) st1
            end
      | Raises HTTP404NotFoundError => Some (st, Ret None)
      | Raises NetworkError =>
          let wait_time := 3 * (attempt + 1) in
          let st1 := if enabled (rot st)
                     then rotate_and_update (api_now env) st else st in
          if attempt <? max_retries - 1
          then attempts_from fuel max_retries n' (attempt + 1) (sleep wait_time st1)
          else Some (st1, Ret None)
      | Raises _ =>
          let wait_time := 3 * (attempt + 1) in
          if attempt <? max_retries - 1
          then attempts_from fuel max_retries n' (attempt + 1) (sleep wait_time st)
          else Some (st, Ret None)
      end
  end.

(** [call_api]; [None] is fuel exhaustion in the wait for quota. *)
Definition call_api (fuel : nat) (r : ProxyRotator)
  : option (cstate * result (option V)) :=
  let r1 :=
    if enabled r
    then fst (update_env_proxies md5_int (api_now (w 0%nat))
                (increment_request_count r))
    else r in
  attempts_from fuel 5 5 0 (mkC r1 0 0 []).

End WithLibrary.

End CallApi.

(** ** [print_pulls.py]: the listing of pull requests with their issues *)

Module PrintPulls.

Import Pipeline.

(** What the network comes to for one pull: the three attempts at
    [Repo(owner, name, ...)], each returning or raising, and the outcome of
    [extract_resolved_issues_with_official_github_api]. *)
Record pr_world : Type := mkPrWorld {
  repo_attempt : Pull -> nat -> result unit;
  issues_of : Pull -> result (list string)
}.

Definition set_resolved (issues : list string) (pull : Pull) : Pull :=
  mkPull (full_name pull) (number pull) (merged_at pull) (Some issues)
    (base_sha pull) (pull_created_at pull) (diff_url pull).

(** [for attempt in range(3)] around [Repo(...)]: [true] when a repository
    object was made; the sleeps are [2 * (attempt + 1)]. *)
Fixpoint create_repo (w : pr_world) (pull : Pull) (n attempt : nat)
  (slept : list Z) : bool * list Z :=
  match n with
  | O => (true, slept)      (* not reached: the third failure returns *)
  | S n' =>
      match repo_attempt w pull attempt with
      | Ret _ => (true, slept)
      | Raise _ =>
          if (attempt <? 2)%nat
          then create_repo w pull n' (S attempt)
                 (slept ++ [2 * (Z.of_nat attempt + 1)])
          else (false, slept)
      end
  end.

(** [_process_single_pr]: the pull with [resolved_issues] set, or the
    [ValueError] of [owner, name = repo_name.split("/")]. *)
Definition _process_single_pr (w : pr_world) (repo_name : string) (pull : Pull)
  : result Pull :=
  match PyStr.split "/" repo_name with
  | [_; _] =>
      if (create_repo w pull 3 0 []).1 then
        match issues_of w pull with
        | Ret issues => Ret (set_resolved issues pull)
        | Raise _ => Ret (set_resolved [] pull)
        end
      else Ret (set_resolved [] pull)
  | _ => Raise ValueError
  end.

(** The output file: a line is a pull request object, or text that [main]
    passes over, [json.loads(line)['number']] raising [JSONDecodeError] or
    [KeyError] on it. A line that is JSON but no object, on which the lookup
    raises the [TypeError] that [main] does not catch, has no place in this
    type: [log_all_pulls] writes objects only, and the files considered are
    those it wrote, whole or cut short. *)
Definition out_file : Type := list (option Pull).

(** The numbers [main] collects from an existing output file *)
Definition pr_data_list (f : out_file) : list Z :=
  omap (fun line => number <$> line) f.

(** The [omnigirl] branch of [log_all_pulls] on the listing [pulls]; a unit
    that raises writes no line. *)
Definition log_all_pulls (w : pr_world) (repo_name : string) (pulls : list Pull)
  (skip : list Z) (f : out_file) : out_file :=
  let skip_set : gset Z := list_to_set skip in
  let to_process :=
    List.filter (fun p => negb (bool_decide (number p ∈ skip_set))) pulls in
  fold_left
    (fun f pull =>
       match _process_single_pr w repo_name pull with
       | Ret result => f ++ [Some result]
       | Raise _ => f
       end)
    to_process f.

(** [main] in [omnigirl] mode; [repo_obj] is the outcome of
    [Repo(owner, repo, token=token)], whose [RuntimeError] ends the program
    with [SystemExit(1)], here [OtherError]. *)
Definition main (w : pr_world) (repo_obj : result unit) (repo_name : string)
  (pulls : list Pull) (f : out_file) : result out_file :=
  match PyStr.split "/" repo_name with
  | [_; _] =>
      match repo_obj with
      | Raise e => Raise e
      | Ret _ => Ret (log_all_pulls w repo_name pulls (pr_data_list f) f)
      end
  | _ => Ret f
  end.

End PrintPulls.

(** ** [utils_async.py]: the problem statement and the hints *)

Module Statement.

(** A field of a JSON object as [obj.get] with the empty text as default
    and an f-string see it: the key is missing, the value is [null], or it
    is text. *)
Inductive jfield : Type :=
| Missing
| Null
| Text (s : string).

(** The field inside an f-string: the default for a missing key, [None]
    printed for [null]. *)
Definition fmt (f : jfield) : string :=
  match f with
  | Missing => ""
  | Null => "None"
  | Text s => s
  end.

(** The field as an element of a list of texts: [None] stays [None]. *)
Definition get_text (f : jfield) : option string :=
  match f with
  | Missing => Some ""
  | Null => None
  | Text s => Some s
  end.

Definition NL : string := String Classifier.nl EmptyString.

Record Issue : Type := mkIssue { title : jfield; body : jfield }.

(** [commit['commit']['author']['date']] *)
Record Commit : Type := mkCommit { author_date : string }.

Record Comment : Type := mkComment { updated_at : string; comment_body : jfield }.

(** What [repo.fetch_json(url)] comes to for the three kinds of URL, by
    issue number: the parsed value, [None] for an empty or unparsable body,
    or the exception [fetch_with_retries] lets through. *)
Record world : Type := mkWorld {
  issue_of : string -> result (option Issue);
  commits_of : string -> result (option (list Commit));
  comments_of : string -> result (option (list Comment))
}.

Section WithLibrary.

(** [time.mktime(time.strptime(s, "%Y-%m-%dT%H:%M:%SZ"))]; [None] is the
    [ValueError]. *)
Variable strptime : string -> option Z.

(** The loop over the comments of one issue: the bodies of the comments
    updated before [commit_time], up to the first one that is not. *)
Fixpoint take_hints (commit_time : Z) (comments : list Comment)
  : result (list (option string)) :=
  match comments with
  | [] => Ret []
  | comment :: rest =>
      match strptime (updated_at comment) with
      | None => Raise ValueError
      | Some comment_time =>
          if comment_time <? commit_time then
            hs ← take_hints commit_time rest;
            Ret (get_text (comment_body comment) :: hs)
          else Ret []
      end
  end.

(** The loop over [pull["resolved_issues"]] *)
Fixpoint over_issues (w : world) (issues : list string) (text : string)
  (all_hint_texts : list (option string))
  : result (string * list (option string)) :=
  match issues with
  | [] => Ret (text, all_hint_texts)
  | issue_number :: rest =>
      i ← issue_of w issue_number;
      match i with
      | None => over_issues w rest text all_hint_texts
      | Some issue =>
          let text' :=
            text +:+ fmt (title issue) +:+ NL +:+ fmt (body issue) +:+ NL in
          cs ← commits_of w issue_number;
          match cs with
          | None | Some [] => over_issues w rest text' all_hint_texts
          | Some (c0 :: _) =>
              match strptime (author_date c0) with
              | None => Raise ValueError
              | Some commit_time =>
                  cm ← comments_of w issue_number;
                  match cm with
                  | None | Some [] => over_issues w rest text' all_hint_texts
                  | Some comments =>
                      hs ← take_hints commit_time comments;
                      over_issues w rest text' (all_hint_texts ++ hs)
                  end
              end
          end
      end
  end.

Fixpoint all_texts (l : list (option string)) : option (list string) :=
  match l with
  | [] => Some []
  | Some s :: rest => (fun t => s :: t) <$> all_texts rest
  | None :: _ => None
  end.

(** The hints joined by a line of three dashes, or the empty text when
    there is none; a [None] among the texts makes [join] raise [TypeError],
    here [OtherError]. *)
Definition join_hints (l : list (option string)) : result string :=
  match l with
  | [] => Ret ""
  | _ =>
      match all_texts l with
      | Some texts => Ret (PyStr.join (NL +:+ "---" +:+ NL) texts)
      | None => Raise OtherError
      end
  end.

(** [extract_problem_statement_and_hints_with_official_github_api], to which
    [extract_problem_statement_and_hints] delegates; a pull without the key
    [resolved_issues] raises [KeyError]. *)
Definition extract_problem_statement_and_hints_with_official_github_api
  (w : world) (pull : Pipeline.Pull) : result (string * string) :=
  match Pipeline.resolved_issues pull with
  | None => Raise KeyError
  | Some issues =>
      r ← over_issues w issues "" [];
      hints ← join_hints r.2;
      Ret (r.1, hints)
  end.

Definition extract_problem_statement_and_hints (w : world) (pull : Pipeline.Pull)
  : result (string * string) :=
  extract_problem_statement_and_hints_with_official_github_api w pull.

End WithLibrary.

End Statement.

(** ** Definitions used to state further properties *)

(** [has_char p s]: some character of [s] satisfies [p]. *)
Fixpoint has_char (p : ascii -> bool) (s : string) : bool :=
  match s with
  | EmptyString => false
  | String c s' => p c || has_char p s'
  end.

(** The language has one of the three acceptance rules of [extract_patches]. *)
Definition profiled (language : string) : bool :=
  String.eqb language "python" || String.eqb language "js"
  || String.eqb language "java".

(** The lines of one output stream of the classifier: no metadata line, a
    header first, and every header with the flag of the stream. *)
Definition stream_ok (lexer_name : string -> option string)
  (v : Classifier.variant) (language name : string) (f : Classifier.flag)
  (l : list string) : Prop :=
  Forall (fun x =>
            is_meta x = false
            ∧ (is_header x = true →
               Classifier.header_flag lexer_name v language name x = Some f)) l
  ∧ match l with
    | x :: _ => is_header x = true
    | [] => True
    end.

(** A transient failure of a request: a transport fault, or a reply with
    status 502 or 503. *)
Definition transient (env : Fetch.attempt_env) : Prop :=
  match Fetch.env_reply env with
  | Fetch.Fails e => e = NetworkError
  | Fetch.Responds r => Fetch.status r = 502 ∨ Fetch.status r = 503
  end.

(** The waits of [k] transient failures in a row, the first of them met
    with [retries = j]. *)
Fixpoint backoff (j : Z) (k : nat) : list Z :=
  match k with
  | O => []
  | S k' => Z.min (3 * (j + 1)) 15 :: backoff (j + 1) k'
  end.

(** What both retry loops keep true while the proxy is enabled *)
Definition short_sleeps (st : Fetch.fstate) : Prop :=
  Rotator.enabled (Fetch.rot st) = true
  ∧ 0 ≤ Fetch.retries st ≤ 5
  ∧ Forall (λ d, 0 ≤ d ≤ 15) (Fetch.slept st)
  ∧ Z.of_nat (length (Fetch.slept st)) ≤ Fetch.retries st.

(** The state in which an attempt meets its reply: the request is counted,
    after [f] has been applied to an enabled rotator. *)
Definition entered (f : Rotator.ProxyRotator → Rotator.ProxyRotator)
  (st0 : Fetch.fstate) : Fetch.fstate :=
  Fetch.issued (if Rotator.enabled (Fetch.rot st0)
                then Fetch.set_rot (f (Fetch.rot st0)) st0 else st0).

(** An ASCII decimal digit: the class [\d] on ASCII text *)
Definition is_digit (c : ascii) : bool :=
  let n := N_of_ascii c in ((48 <=? n) && (n <=? 57))%N.

(** An ASCII character, one below 128 *)
Definition is_ascii (c : ascii) : bool := (N_of_ascii c <? 128)%N.

(** A call of [func] after which [call_api] tries again: the 403 of a rate
    limit, or an exception other than the 404. *)
Definition retried {V : Type} (env : CallApi.api_env V) : Prop :=
  CallApi.api_outcome env = CallApi.Forbidden
  ∨ ∃ e, CallApi.api_outcome env = CallApi.Raises e ∧ e ≠ HTTP404NotFoundError.

(** The text one linked issue contributes to the problem statement *)
Definition issue_text (w : Statement.world) (issue_number : string) : string :=
  match Statement.issue_of w issue_number with
  | Ret (Some issue) =>
      Statement.fmt (Statement.title issue) +:+ Statement.NL
      +:+ Statement.fmt (Statement.body issue) +:+ Statement.NL
  | _ => ""
  end.

(** ** [utils.py]: the issues a pull request resolves *)

(** The patterns are [str] patterns, so [re] reads the classes [\w], [\s]
    and [\d] by the Unicode tables: an accented letter is a word character
    and an Arabic-Indic digit is a digit. The model gives the classes on
    ASCII text only, where they are [is_word], [PyStr.is_space] and
    [is_digit], and [str.lower] as [PyStr.lower]; the properties of the
    extraction that depend on the classes are stated for ASCII text. *)

Module Issues.

(** The class [\w] on ASCII text: letters, digits and the underscore *)
Definition is_word (c : ascii) : bool :=
  let n := N_of_ascii c in
  ((48 <=? n) && (n <=? 57) || (65 <=? n) && (n <=? 90)
   || (97 <=? n) && (n <=? 122) || (n =? 95))%N.

(** The longest prefix of [s] whose characters satisfy [p], and the rest:
    what a greedy [p+] or [p*] takes. *)
Fixpoint span (p : ascii -> bool) (s : string) : string * string :=
  match s with
  | String c s' =>
      if p c then let '(a, b) := span p s' in (String c a, b)
      else (EmptyString, s)
  | EmptyString => (EmptyString, EmptyString)
  end.

(** A match of [issues_pat], a word, blanks, a hash sign and digits, at the
    start of the ASCII text [s]: the two groups and the text after the
    match. The classes of neighbouring parts are disjoint, so the greedy
    match is the only one. *)
Definition match_at (s : string) : option (string * string * string) :=
  let '(word, r1) := span is_word s in
  if negb (PyStr.nonempty word) then None
  else
    let '(blanks, r2) := span PyStr.is_space r1 in
    if negb (PyStr.nonempty blanks) then None
    else
      match r2 with
      | String c r3 =>
          if Ascii.eqb c "#" then
            let '(num, r4) := span is_digit r3 in
            if PyStr.nonempty num then Some (word, num, r4) else None
          else None
      | EmptyString => None
      end.

(** [issues_pat.findall(text)]: the matches from left to right, none
    overlapping another. [skip] counts the characters of the current match
    still to pass. *)
Fixpoint findall_go (skip : nat) (s : string) : list (string * string) :=
  match s with
  | EmptyString => []
  | String c s' =>
      match skip with
      | S k => findall_go k s'
      | O =>
          match match_at s with
          | Some (word, num, rest) =>
              (word, num)
              :: findall_go (String.length s - String.length rest - 1) s'
          | None => findall_go 0 s'
          end
      end
  end.

Definition findall (s : string) : list (string * string) := findall_go 0 s.

(** The index of the first occurrence of [sub] in [s] *)
Fixpoint find (sub s : string) : option nat :=
  if String.prefix sub s then Some O
  else match s with
       | String _ s' => S <$> find sub s'
       | EmptyString => None
       end.

(** [comments_pat.sub("", text)]: every HTML comment, from its opening mark
    to the first closing mark after it, is removed; an opening mark that no
    closing mark follows stays. *)
Fixpoint strip_go (skip : nat) (s : string) : string :=
  match s with
  | EmptyString => EmptyString
  | String c s' =>
      match skip with
      | S k => strip_go k s'
      | O =>
          match s with
          | String "<" (String "!" (String "-" (String "-" body))) =>
              match find "-->" body with
              | Some k => strip_go (3 + k + 3) s'
              | None => String c (strip_go 0 s')
              end
          | _ => String c (strip_go 0 s')
          end
      end
  end.

Definition strip_comments (s : string) : string := strip_go 0 s.

Definition PR_KEYWORDS : list string :=
  ["close"; "closes"; "closed"; "fix"; "fixes"; "fixed";
   "resolve"; "resolves"; "resolved"].

Definition is_keyword (word : string) : bool :=
  Classifier.mem (PyStr.lower word) PR_KEYWORDS.

Definition NL : string := String Classifier.nl EmptyString.

(** [extract_resolved_issues_with_official_github_api]; [title] and [body]
    are those of the pull ([None] for [null]) and [commits] is what
    [call_github_api] comes to, as the list of the commit messages. The
    result is a set, which the code turns into a list in no particular
    order. *)
Definition extract_resolved_issues_with_official_github_api
  (title body : option string) (commits : result (list string))
  : result (gset string) :=
  let text := default "" title in
  let text := text +:+ NL +:+ default "" body in
  commit_messages ← commits;
  let commit_text := PyStr.join NL commit_messages in
  let text := text +:+ NL +:+ commit_text in
  let text := strip_comments text in
  let references := findall text in
  Ret (list_to_set
         (snd <$> List.filter (fun ref => is_keyword ref.1) references)).

End Issues.

(** Every character of [s] satisfies [p]. *)
Definition all_chars (p : ascii -> bool) (s : string) : Prop :=
  has_char (fun c => negb (p c)) s = false.

(** [s] starts with no character that satisfies [p]. *)
Definition stops (p : ascii -> bool) (s : string) : Prop :=
  match s with
  | String c _ => p c = false
  | EmptyString => True
  end.

(** [s] is empty or ends with a character that is no word character. *)
Fixpoint ends_nonword (s : string) : Prop :=
  match s with
  | EmptyString => True
  | String c EmptyString => Issues.is_word c = false
  | String _ s' => ends_nonword s'
  end.

(** * Properties *)


(** ** Strings *)

Lemma append_cons (x : ascii) (a b : string) :
  String x a +:+ b = String x (a +:+ b).
Proof. reflexivity. Qed.

Lemma append_nil_l (a : string) : "" +:+ a = a.
Proof. reflexivity. Qed.

Lemma append_assoc (a b c : string) : (a +:+ b) +:+ c = a +:+ (b +:+ c).
Proof.
  induction a as [|x a IH]; [reflexivity|].
  rewrite !append_cons. by rewrite IH.
Qed.

Lemma append_nil_r (a : string) : a +:+ "" = a.
Proof.
  induction a as [|x a IH]; [reflexivity|].
  rewrite append_cons. by rewrite IH.
Qed.

(** ** Decimal text *)

Section Decimal.

Lemma dec_val_app acc s1 s2 :
  dec_val acc (s1 +:+ s2) = dec_val (dec_val acc s1) s2.
Proof.
  revert acc. induction s1 as [|c s1 IH]; intros acc; [reflexivity|].
  rewrite append_cons. simpl. apply IH.
Qed.

Lemma dec_val_zeros k s : dec_val 0 (PyStr.zeros k +:+ s) = dec_val 0 s.
Proof.
  induction k as [|k IH]; [reflexivity|].
  simpl PyStr.zeros. rewrite append_cons. simpl. exact IH.
Qed.

Lemma pretty_N_char_val d : (d < 10)%N → (N_of_ascii (pretty_N_char d) - 48 = d)%N.
Proof.
  intros Hd.
  assert (Hc : d = 0%N ∨ d = 1%N ∨ d = 2%N ∨ d = 3%N ∨ d = 4%N ∨ d = 5%N
               ∨ d = 6%N ∨ d = 7%N ∨ d = 8%N ∨ d = 9%N) by lia.
  repeat (destruct Hc as [-> | Hc]; [reflexivity|]). subst d. reflexivity.
Qed.

Lemma pretty_N_go_app x s : pretty_N_go x s = pretty_N_go x "" +:+ s.
Proof.
  revert s. induction (N.lt_wf_0 x) as [x _ IH]; intros s.
  destruct (decide (x = 0%N)) as [-> | Hx].
  - by rewrite !pretty_N_go_0.
  - rewrite !(pretty_N_go_step x) by lia.
    assert (Hlt : (x `div` 10 < x)%N) by (apply N.div_lt; lia).
    rewrite (IH _ Hlt (String _ s)), (IH _ Hlt (String _ "")).
    rewrite append_assoc. reflexivity.
Qed.

Lemma dec_val_pretty_N_go x : dec_val 0 (pretty_N_go x "") = x.
Proof.
  induction (N.lt_wf_0 x) as [x _ IH].
  destruct (decide (x = 0%N)) as [-> | Hx]; [reflexivity|].
  rewrite pretty_N_go_step by lia. rewrite pretty_N_go_app, dec_val_app.
  rewrite IH by (apply N.div_lt; lia). simpl.
  rewrite pretty_N_char_val by (apply N.mod_lt; lia).
  pose proof (N.div_mod x 10). lia.
Qed.

Lemma dec_val_pretty_N (x : N) : dec_val 0 (pretty x) = x.
Proof.
  unfold pretty, pretty_N. destruct (decide (x = 0%N)) as [-> | Hx]; [reflexivity|].
  apply dec_val_pretty_N_go.
Qed.

Lemma pretty_N_go_head x s c s' :
  (0 < x)%N → pretty_N_go x s = String c s' → c ≠ "+"%char ∧ c ≠ "-"%char.
Proof.
  revert s c s'. induction (N.lt_wf_0 x) as [x _ IH]; intros s c s' Hx.
  rewrite pretty_N_go_step by done.
  destruct (decide (x `div` 10 = 0)%N) as [E | NE].
  - rewrite E, pretty_N_go_0. intros [= <- <-].
    unfold pretty_N_char. repeat case_match; split; discriminate.
  - apply IH; [apply N.div_lt; lia | by apply N.neq_0_lt_0].
Qed.

Lemma zfill_unsigned w c s :
  c ≠ "+"%char → c ≠ "-"%char →
  PyStr.zfill w (String c s)
  = PyStr.zeros (w - String.length (String c s)) +:+ String c s.
Proof.
  intros Hp Hm. unfold PyStr.zfill.
  apply Ascii.eqb_neq in Hp, Hm. by rewrite Hp, Hm.
Qed.

(** On a non-negative number [str] then [zfill] is the zero-padded text,
    which still denotes the number. *)
Lemma dec_val_zfill_str w (z : Z) :
  0 ≤ z → dec_val 0 (PyStr.zfill w (PyStr.str_of_int z)) = Z.to_N z.
Proof.
  intros Hz. unfold PyStr.str_of_int, pretty, pretty_Z.
  destruct z as [|p|p]; [| |lia].
  - change ("0"%string) with (String "0" "").
    rewrite zfill_unsigned by discriminate.
    rewrite dec_val_zeros. reflexivity.
  - change (pretty p) with (pretty (N.pos p)).
    pose proof (dec_val_pretty_N (N.pos p)) as Hv.
    destruct (pretty (N.pos p)) as [|c s'] eqn:E.
    + simpl in Hv. discriminate.
    + assert (Hc : c ≠ "+"%char ∧ c ≠ "-"%char).
      { unfold pretty, pretty_N in E. simpl in E.
        eapply (pretty_N_go_head (N.pos p)); [lia | exact E]. }
      destruct Hc as [Hp Hm].
      rewrite zfill_unsigned by done.
      rewrite dec_val_zeros. exact Hv.
Qed.

Lemma zfill_str_inj w (a b : Z) :
  0 ≤ a → 0 ≤ b →
  PyStr.zfill w (PyStr.str_of_int a) = PyStr.zfill w (PyStr.str_of_int b) → a = b.
Proof.
  intros Ha Hb E. apply (f_equal (dec_val 0)) in E.
  rewrite !dec_val_zfill_str in E by done. lia.
Qed.

End Decimal.

(** ** IdentityRotator *)

Section RotatorProps.

Variable md5_int : string -> Z.

Import Rotator.

Lemma succ_div_mod (k T : Z) :
  0 < T → 0 ≤ k →
  if k mod T + 1 >=? T
  then (k + 1) mod T = 0 ∧ (k + 1) / T = k / T + 1
  else (k + 1) mod T = k mod T + 1 ∧ (k + 1) / T = k / T.
Proof.
  intros HT Hk.
  pose proof (Z.div_mod k T ltac:(lia)) as E.
  pose proof (Z.mod_pos_bound k T HT) as B.
  pose proof (Z.div_mod (k + 1) T ltac:(lia)) as E'.
  pose proof (Z.mod_pos_bound (k + 1) T HT) as B'.
  destruct (Z.geb_spec (k mod T + 1) T) as [G | G].
  - destruct (Z.div_mod_unique T ((k + 1) / T) (k / T + 1) ((k + 1) mod T) 0)
      as [-> ->]; [lia | lia | lia | done].
  - destruct (Z.div_mod_unique T ((k + 1) / T) (k / T) ((k + 1) mod T) (k mod T + 1))
      as [-> ->]; [lia | lia | lia | done].
Qed.

Lemma record_request_fresh (r0 : ProxyRotator) (now : Z) :
  enabled r0 = true → request_count r0 = 0 → current_session_id r0 = None →
  1 ≤ max_requests_per_ip r0 →
  settled md5_int r0 (offset_after r0 now) 1 (record_request md5_int now r0).
Proof.
  intros He Hc Hs HT.
  pose proof (succ_div_mod 0 (max_requests_per_ip r0) ltac:(lia) ltac:(lia)) as D.
  rewrite Z.mod_0_l, Z.div_0_l in D by lia. simpl Z.add in D.
  unfold record_request, get_proxies, increment_request_count, offset_after.
  destruct r0 as [nm c T sess rot h pw hp hsp co us en ro].
  cbn [enabled request_count current_session_id max_requests_per_ip] in *. subst.
  cbn -[Z.geb Z.modulo Z.div]. change (0 + 1) with 1 in *.
  destruct (1 >=? T); destruct D as [Dm Dd];
    destruct ro as [o|]; split; cbn -[Z.geb Z.modulo Z.div];
    unfold session_id_at;
    rewrite ?Dm, ?Dd, ?Z.add_assoc, ?Z.add_0_r; try done; lia.
Qed.

Lemma record_request_settled (r0 r : ProxyRotator) (off k now : Z) :
  1 ≤ max_requests_per_ip r0 → 1 ≤ k →
  settled md5_int r0 off k r →
  settled md5_int r0 off (k + 1) (record_request md5_int now r).
Proof.
  intros HT Hk [Hn Hm He Ho Hc Hr Hs].
  pose proof (succ_div_mod k (max_requests_per_ip r0) ltac:(lia) ltac:(lia)) as D.
  unfold record_request, get_proxies, increment_request_count.
  destruct r as [nm c T sess rot h pw hp hsp co us en ro].
  cbn [repo_full_name enabled request_count current_session_id rotation_count
       max_requests_per_ip random_offset] in *. subst.
  cbn -[Z.geb Z.modulo Z.div].
  destruct (k mod max_requests_per_ip r0 + 1 >=? max_requests_per_ip r0);
    destruct D as [Dm Dd]; split; cbn -[Z.geb Z.modulo Z.div];
    unfold session_id_at;
    rewrite ?Dm, ?Dd, ?Z.add_assoc, ?Z.add_0_r; try done; lia.
Qed.

Lemma run_requests_settled (r0 : ProxyRotator) (off : Z) (nows : list Z) :
  1 ≤ max_requests_per_ip r0 →
  ∀ (k : Z) (r : ProxyRotator) (i : nat) (ri : ProxyRotator),
    1 ≤ k → settled md5_int r0 off k r →
    run_requests md5_int nows r !! i = Some ri →
    settled md5_int r0 off (k + Z.of_nat i + 1) ri.
Proof.
  intros HT. induction nows as [|now nows IH]; intros k r i ri Hk Hr Hi.
  - discriminate.
  - destruct i as [|i]; simpl in Hi.
    + injection Hi as <-. replace (k + Z.of_nat 0 + 1) with (k + 1) by lia.
      by apply record_request_settled.
    + replace (k + Z.of_nat (S i) + 1) with ((k + 1) + Z.of_nat i + 1) by lia.
      eapply IH; [| | exact Hi]; [lia|]. by apply record_request_settled.
Qed.

Lemma run_requests_length (nows : list Z) (r : ProxyRotator) :
  length (run_requests md5_int nows r) = length nows.
Proof. revert r. induction nows as [|n nows IH]; intros r; simpl; auto. Qed.

(** The states from the first recorded request on *)
Lemma run_requests_fresh (r0 : ProxyRotator) (now : Z) (nows : list Z)
  (i : nat) (ri : ProxyRotator) :
  enabled r0 = true → request_count r0 = 0 → current_session_id r0 = None →
  1 ≤ max_requests_per_ip r0 →
  run_requests md5_int (now :: nows) r0 !! i = Some ri →
  settled md5_int r0 (offset_after r0 now) (Z.of_nat i + 1) ri.
Proof.
  intros He Hc Hs HT Hi.
  pose proof (record_request_fresh r0 now He Hc Hs HT) as H1.
  destruct i as [|i]; simpl in Hi.
  - by injection Hi as <-.
  - replace (Z.of_nat (S i) + 1) with (1 + Z.of_nat i + 1) by lia.
    eapply run_requests_settled; [done | lia | exact H1 | exact Hi].
Qed.

Lemma session_id_at_succ_ne (name : string) (rot off : Z) :
  session_id_at md5_int name rot off ≠ session_id_at md5_int name (rot + 1) off.
Proof.
  unfold session_id_at. intros E.
  apply zfill_str_inj in E.
  - revert E. generalize (md5_int name). intros h E.
    replace (h + (rot + 1) + off) with ((h + rot + off) + 1) in E by lia.
    revert E. generalize (h + rot + off). intros a E.
    Z.div_mod_to_equations. lia.
  - apply Z.mod_pos_bound. lia.
  - apply Z.mod_pos_bound. lia.
Qed.

(** C8, as amended. Rotation monotonicity: from a freshly rotated, enabled
    rotator with a positive threshold, a run of more recorded requests than the threshold
    hands out two different session ids, and the request counter stays
    strictly below the threshold after every consultation and is at most the
    threshold right after every increment. *)
Theorem rotation_monotonicity (r0 : ProxyRotator) (nows : list Z) :
  enabled r0 = true → request_count r0 = 0 → current_session_id r0 = None →
  1 ≤ max_requests_per_ip r0 →
  max_requests_per_ip r0 < Z.of_nat (length nows) →
  let trace := run_requests md5_int nows r0 in
  (∃ (i j : nat) (ri rj : ProxyRotator) (si sj : string),
      (i < j)%nat ∧ trace !! i = Some ri ∧ trace !! j = Some rj
      ∧ current_session_id ri = Some si ∧ current_session_id rj = Some sj
      ∧ si ≠ sj)
  ∧ (∀ (i : nat) (r : ProxyRotator),
        (r0 :: trace) !! i = Some r →
        0 ≤ request_count r < max_requests_per_ip r0
        ∧ request_count (increment_request_count r) ≤ max_requests_per_ip r0).
Proof.
  intros He Hc Hs HT HN trace.
  destruct nows as [|now nows]; [simpl in HN; lia|].
  set (T := max_requests_per_ip r0) in *.
  split.
  - assert (Hlen : length trace = length (now :: nows))
      by apply run_requests_length.
    destruct (lookup_lt_is_Some_2 trace 0) as [r1 H1]; [rewrite Hlen; simpl; lia|].
    destruct (lookup_lt_is_Some_2 trace (Z.to_nat T)) as [rT HrT]; [lia|].
    pose proof (run_requests_fresh r0 now nows _ _ He Hc Hs HT H1) as S1.
    pose proof (run_requests_fresh r0 now nows _ _ He Hc Hs HT HrT) as ST.
    exists 0%nat, (Z.to_nat T), r1, rT.
    eexists _, _. split; [lia|].
    split; [exact H1|]. split; [exact HrT|].
    split; [apply (settled_session _ _ _ _ _ S1)|].
    split; [apply (settled_session _ _ _ _ _ ST)|].
    rewrite (settled_rotation _ _ _ _ _ S1), (settled_rotation _ _ _ _ _ ST).
    fold T. rewrite Z2Nat.id by lia. simpl Z.of_nat.
    assert (E : (T + 1) / T = (0 + 1) / T + 1).
    { destruct (Z.eq_dec T 1) as [-> | NE]; [reflexivity|].
      rewrite (Z.div_small (0 + 1) T) by lia.
      replace (T + 1) with (1 + 1 * T) by lia.
      rewrite Z.div_add by lia. rewrite Z.div_small by lia. reflexivity. }
    rewrite E, Z.add_assoc. apply session_id_at_succ_ne.
  - intros i r Hi.
    assert (Hb : 0 ≤ request_count r < T).
    { destruct i as [|i]; simpl in Hi.
      - injection Hi as <-. rewrite Hc. lia.
      - pose proof (run_requests_fresh r0 now nows _ _ He Hc Hs HT Hi) as Si.
        rewrite (settled_count _ _ _ _ _ Si). apply Z.mod_pos_bound. lia. }
    split; [exact Hb|]. unfold increment_request_count.
    destruct r; simpl in *. lia.
Qed.

End RotatorProps.

(** ** PatchClassifier *)

Lemma prefix_cons_inv (c : ascii) (a : string) (s : string) :
  String.prefix (String c a) s = true → ∃ t, s = String c t ∧ String.prefix a t = true.
Proof.
  destruct s as [|d t]; simpl; [discriminate|].
  destruct (ascii_dec c d) as [-> | NE]; [|discriminate]. eauto.
Qed.

Lemma prefix_iff (a s : string) :
  String.prefix a s = true ↔ ∃ t, s = a +:+ t.
Proof.
  revert s. induction a as [|c a IH]; intros s.
  - split; [intros _; by exists s | intros _; by destruct s].
  - split.
    + intros H. apply prefix_cons_inv in H as (t & -> & H).
      apply IH in H as [u ->]. by exists u.
    + intros [t ->]. rewrite append_cons. simpl.
      destruct (ascii_dec c c); [|done]. apply IH. by exists t.
Qed.

Lemma prefix_append (a t : string) : String.prefix a (a +:+ t) = true.
Proof. apply prefix_iff. by exists t. Qed.

Lemma prefix_app_l (a b s : string) :
  String.prefix (a +:+ b) s = true → String.prefix a s = true.
Proof.
  intros [t ->]%prefix_iff. rewrite append_assoc. apply prefix_append.
Qed.

Lemma header_not_meta (l : string) : is_header l = true → is_meta l = false.
Proof.
  unfold is_header, is_meta, PyStr.startswith. intros H.
  apply prefix_cons_inv in H as (t & -> & _). reflexivity.
Qed.

Lemma under_src_header (h : string) : under_src h = true → is_header h = true.
Proof.
  unfold under_src, is_header, PyStr.startswith.
  change "diff --git a/src/" with ("diff --git a/" +:+ "src/"). apply prefix_app_l.
Qed.

Section ClassifierProps.

Import Classifier.

Variable lexer_name : string -> option string.
Variable v : variant.
Variables language name : string.

Abbreviation step := (Classifier.step lexer_name v language name).
Abbreviation classify := (Classifier.classify lexer_name v language name).
Abbreviation header_flag := (Classifier.header_flag lexer_name v language name).

Lemma classify_snoc (lines : list string) (l : string) :
  classify (lines ++ [l]) = step (classify lines) l.
Proof. unfold Classifier.classify. by rewrite fold_left_app. Qed.

Lemma split3_snoc_left {A} (l a b : list A) (x : A) :
  split3 l a b → split3 (l ++ [x]) (a ++ [x]) b.
Proof.
  induction 1; simpl; try by constructor.
  apply split3_left, split3_nil.
Qed.

Lemma split3_snoc_right {A} (l a b : list A) (x : A) :
  split3 l a b → split3 (l ++ [x]) a (b ++ [x]).
Proof.
  induction 1; simpl; try by constructor.
  apply split3_right, split3_nil.
Qed.

Lemma split3_snoc_drop {A} (l a b : list A) (x : A) :
  split3 l a b → split3 (l ++ [x]) a b.
Proof.
  induction 1; simpl; try by constructor.
  apply split3_drop, split3_nil.
Qed.

Lemma step_split3 (lines : list string) (st : state) (l : string) :
  split3 lines (patch_change st) (patch_test st) →
  split3 (lines ++ [l]) (patch_change (step st l)) (patch_test (step st l)).
Proof.
  intros H. unfold Classifier.step.
  destruct (PyStr.startswith l "index "); [by apply split3_snoc_drop|].
  destruct (if PyStr.startswith l "diff --git a/" then _ else _) as [[|]|]; simpl.
  - by apply split3_snoc_right.
  - by apply split3_snoc_left.
  - by apply split3_snoc_drop.
Qed.

Lemma classify_split3 (lines : list string) :
  split3 lines (patch_change (classify lines)) (patch_test (classify lines)).
Proof.
  induction lines as [|l lines IH] using rev_ind.
  - constructor.
  - rewrite classify_snoc. by apply step_split3.
Qed.

Lemma step_none (st : state) (l : string) :
  cur (step st l) = None →
  patch_change (step st l) = patch_change st
  ∧ patch_test (step st l) = patch_test st.
Proof.
  unfold Classifier.step.
  destruct (PyStr.startswith l "index "); [done|].
  destruct (if PyStr.startswith l "diff --git a/" then _ else _) as [[|]|];
    simpl; done.
Qed.

(** C9. Stream disjointness: the two streams are subsequences of the input
    lines that share no position of the input, and a line after which the
    flag is [None] is appended to neither stream. *)
Theorem stream_disjointness (patch : string) :
  (∃ chg tst : list string,
      extract_patches lexer_name v language name patch
      = (render chg, render tst, negb (String.eqb patch ""))
      ∧ split3 (lines_of patch) chg tst)
  ∧ (∀ (pre post : list string) (l : string),
        lines_of patch = (pre ++ l :: post)%list →
        cur (classify (pre ++ [l])%list) = None →
        patch_change (classify (pre ++ [l])%list) = patch_change (classify pre)
        ∧ patch_test (classify (pre ++ [l])%list) = patch_test (classify pre)).
Proof.
  split.
  - unfold extract_patches. destruct (String.eqb patch "") eqn:E.
    + exists [], []. split; [reflexivity|].
      apply String.eqb_eq in E as ->. apply split3_drop, split3_nil.
    + eexists _, _. split; [reflexivity|]. apply classify_split3.
  - intros pre post l _. rewrite classify_snoc. apply step_none.
Qed.

Lemma split_on_nonempty (sep : ascii → bool) (s : string) :
  PyStr.split_on sep s ≠ [].
Proof.
  destruct s as [|c s]; simpl; [done|].
  destruct (sep c); [done|]. by destruct (PyStr.split_on sep s).
Qed.

Lemma split_on_app_sep (sep : ascii → bool) (a b : string) (c : ascii) :
  sep c = true →
  PyStr.split_on sep (a +:+ String c b)
  = (PyStr.split_on sep a ++ PyStr.split_on sep b)%list.
Proof.
  intros Hc. induction a as [|d a IH].
  - rewrite append_nil_l. simpl. by rewrite Hc.
  - rewrite append_cons. simpl. destruct (sep d).
    + by rewrite IH.
    + rewrite IH. pose proof (split_on_nonempty sep a) as NE.
      by destruct (PyStr.split_on sep a).
Qed.

Lemma lower_app (a b : string) :
  PyStr.lower (a +:+ b) = PyStr.lower a +:+ PyStr.lower b.
Proof.
  induction a as [|c a IH]; [reflexivity|].
  rewrite append_cons. simpl. by rewrite IH.
Qed.

Lemma mem_app (w : string) (l1 l2 : list string) :
  mem w (l1 ++ l2) = mem w l1 || mem w l2.
Proof. apply existsb_app. Qed.

Lemma tests_component_word (h : string) :
  has_tests_component h → word_flag h = Test.
Proof.
  intros (pre & post & ->). unfold word_flag, words.
  rewrite lower_app.
  change (PyStr.lower ("/tests/" +:+ post))
    with (String "/" ("tests" +:+ String "/" (PyStr.lower post))).
  rewrite !split_on_app_sep by reflexivity.
  rewrite !mem_app.
  change (mem "tests" (PyStr.split_on header_sep "tests")) with true.
  by rewrite !orb_true_r.
Qed.

Lemma header_flag_test (h : string) :
  word_flag h = Test → header_flag h = Some Test.
Proof.
  intros Hw. unfold Classifier.header_flag. rewrite Hw.
  destruct (String.eqb language "python"); [reflexivity|].
  destruct (String.eqb language "js"); [reflexivity|].
  destruct (String.eqb language "java"); [|reflexivity].
  unfold java_name_flag.
  destruct (PyStr.endswith _ ".java"); [|reflexivity].
  by destruct (is_test_name _).
Qed.

Lemma header_flag_diff (h : string) :
  word_flag h = Diff →
  accepted_source lexer_name language name h = true →
  java_test_named v language h = false →
  header_flag h = Some Diff.
Proof.
  intros Hw Ha Hj. unfold Classifier.header_flag, accepted_source, java_test_named in *.
  rewrite Hw.
  destruct (String.eqb language "python"); [by rewrite Ha|].
  destruct (String.eqb language "js"); [by rewrite Ha|].
  destruct (String.eqb language "java"); [|reflexivity].
  simpl in Hj. destruct (java_name_flag v h Diff); [discriminate|].
  by rewrite Ha.
Qed.

(** The lines of a file body go where the current flag points. *)
Lemma classify_body (body : list string) (st : state) :
  Forall (fun l => is_header l = false) body →
  fold_left step body st
  = match cur st with
    | Some Test =>
        mkState (cur st) (patch_change st) (patch_test st ++ non_meta body)
    | Some Diff =>
        mkState (cur st) (patch_change st ++ non_meta body) (patch_test st)
    | None => st
    end.
Proof.
  intros H. revert st. induction H as [|l body Hl _ IH]; intros st.
  - simpl. destruct st as [[[|]|] c t]; simpl; by rewrite ?app_nil_r.
  - simpl fold_left. rewrite IH. unfold Classifier.step, non_meta. cbn [List.filter].
    unfold is_header in Hl. rewrite Hl. unfold is_meta. cbn beta.
    destruct st as [[[|]|] c t];
      destruct (PyStr.startswith l "index "); simpl; by rewrite <- ?app_assoc.
Qed.

(** A whole file block goes where its header points. *)
Lemma classify_block (h : string) (body : list string) (st : state) :
  file_block h body →
  fold_left step (h :: body) st
  = match header_flag h with
    | Some Test =>
        mkState (Some Test) (patch_change st)
          (patch_test st ++ non_meta (h :: body))
    | Some Diff =>
        mkState (Some Diff) (patch_change st ++ non_meta (h :: body))
          (patch_test st)
    | None => mkState None (patch_change st) (patch_test st)
    end.
Proof.
  intros [Hh Hb]. simpl fold_left. rewrite classify_body by done.
  unfold Classifier.step, non_meta. cbn [List.filter].
  pose proof (header_not_meta h Hh) as Hm. unfold is_meta, is_header in *.
  cbn beta. rewrite Hm, Hh. simpl.
  destruct (header_flag h) as [[|]|]; simpl; by rewrite <- ?app_assoc.
Qed.

(** C2, as amended. Patch classification round trip: for a diff of exactly
    two file blocks, in either order, one whose header has a path component
    [tests] and one under [src/] that the language profile accepts as a
    source file, whose header has none of the words test, tests, testing
    and which the Java profile does not take for a test by its name, the
    test stream is the tests block and the code stream is the source
    block, both without their ["index "] lines. *)
Theorem classification_round_trip (patch ht hs : string) (bt bs : list string) :
  (lines_of patch = ((ht :: bt) ++ (hs :: bs))%list
   ∨ lines_of patch = ((hs :: bs) ++ (ht :: bt))%list) →
  file_block ht bt → file_block hs bs →
  has_tests_component ht →
  under_src hs = true →
  accepted_source lexer_name language name hs = true →
  word_flag hs = Diff →
  java_test_named v language hs = false →
  round_trip lexer_name v language name patch (ht :: bt) (hs :: bs)
  ∧ Forall (fun l => is_meta l = false) (non_meta (ht :: bt))
  ∧ Forall (fun l => is_meta l = false) (non_meta (hs :: bs)).
Proof.
  intros Hl Ht Hs Hc _ Ha Hw Hj.
  pose proof (header_flag_test ht (tests_component_word ht Hc)) as Ft.
  pose proof (header_flag_diff hs Hw Ha Hj) as Fs.
  split; [|split].
  - unfold round_trip, extract_patches.
    destruct (String.eqb patch "") eqn:E.
    { apply String.eqb_eq in E as ->. change (lines_of "") with [""] in Hl.
      destruct Hl as [Hl | Hl]; [destruct bt | destruct bs]; discriminate. }
    unfold Classifier.classify.
    destruct Hl as [-> | ->]; rewrite fold_left_app;
      rewrite !classify_block by done; rewrite Ft, Fs; reflexivity.
  - unfold non_meta. apply List.Forall_forall. intros l [_ Hm]%filter_In.
    by destruct (is_meta l).
  - unfold non_meta. apply List.Forall_forall. intros l [_ Hm]%filter_In.
    by destruct (is_meta l).
Qed.

End ClassifierProps.

(** The specification's scenario is an instance of the round trip. *)
Lemma classification_round_trip_witness :
  round_trip Classifier.sample_lexer Classifier.Async "python" "r"
    Sample.two_file_diff
    (Sample.tests_header :: Sample.tests_body)
    (Sample.src_header :: Sample.src_body)
  ∧ Forall (fun l => is_meta l = false)
      (non_meta (Sample.tests_header :: Sample.tests_body))
  ∧ Forall (fun l => is_meta l = false)
      (non_meta (Sample.src_header :: Sample.src_body)).
Proof.
  apply classification_round_trip.
  - left. reflexivity.
  - split; [reflexivity | repeat constructor].
  - split; [reflexivity | repeat constructor].
  - exists "diff --git a", "x_test.py b/tests/x_test.py". reflexivity.
  - reflexivity.
  - reflexivity.
  - reflexivity.
  - reflexivity.
Defined.

(** C2 as stated fails: a source file under [src/] with an accepted
    extension whose name carries the word [test] lands in the test stream. *)
Lemma classification_round_trip_counterexample :
  Classifier.lines_of Sample.helper_diff
  = ((Sample.tests_header :: Sample.tests_body)
     ++ (Sample.helper_header :: Sample.helper_body))%list
  ∧ file_block Sample.tests_header Sample.tests_body
  ∧ file_block Sample.helper_header Sample.helper_body
  ∧ has_tests_component Sample.tests_header
  ∧ under_src Sample.helper_header = true
  ∧ accepted_source Classifier.sample_lexer "python" "r" Sample.helper_header = true
  ∧ ¬ round_trip Classifier.sample_lexer Classifier.Async "python" "r"
        Sample.helper_diff
        (Sample.tests_header :: Sample.tests_body)
        (Sample.helper_header :: Sample.helper_body)
  ∧ fst (fst (Classifier.extract_patches Classifier.sample_lexer Classifier.Async
                "python" "r" Sample.helper_diff)) = "".
Proof.
  split; [reflexivity|].
  split; [split; [reflexivity | repeat constructor]|].
  split; [split; [reflexivity | repeat constructor]|].
  split; [exists "diff --git a", "x_test.py b/tests/x_test.py"; reflexivity|].
  split; [reflexivity|]. split; [reflexivity|].
  split; [|reflexivity].
  unfold round_trip. vm_compute. discriminate.
Qed.

(** *** The Java profile's file-name test *)

Lemma rev_app_append (s acc : string) :
  String.rev_app s acc = String.rev_app s "" +:+ acc.
Proof.
  revert acc. induction s as [|c s IH]; intros acc; [reflexivity|].
  simpl. rewrite (IH (String c acc)), (IH (String c "")).
  by rewrite append_assoc.
Qed.

Lemma rev_app_app (a b acc : string) :
  String.rev_app (a +:+ b) acc = String.rev_app b (String.rev_app a acc).
Proof.
  revert acc. induction a as [|c a IH]; intros acc; [reflexivity|].
  rewrite append_cons. simpl. apply IH.
Qed.

Lemma endswith_append (a b : string) : PyStr.endswith (a +:+ b) b = true.
Proof.
  unfold PyStr.endswith, String.rev.
  rewrite rev_app_app, (rev_app_append b (String.rev_app a "")).
  apply prefix_append.
Qed.

Lemma startswith_iff (s p : string) :
  PyStr.startswith s p = true ↔ ∃ t, s = p +:+ t.
Proof. apply prefix_iff. Qed.

Lemma rev_involutive (s : string) : String.rev (String.rev s) = s.
Proof.
  unfold String.rev.
  assert (G : ∀ a acc, String.rev_app (String.rev_app a acc) ""
                       = String.rev_app acc a).
  { induction a as [|c a IH]; intros acc; [reflexivity|]. simpl. by rewrite IH. }
  apply (G s "").
Qed.

Lemma endswith_iff (s p : string) :
  PyStr.endswith s p = true ↔ ∃ t, s = t +:+ p.
Proof.
  split.
  - unfold PyStr.endswith. intros [t E]%prefix_iff.
    exists (String.rev t). apply (f_equal String.rev) in E.
    rewrite rev_involutive in E. rewrite E. unfold String.rev.
    rewrite rev_app_app, (rev_app_append t). f_equal.
    apply (rev_involutive p).
  - intros [t ->]. apply endswith_append.
Qed.

(** An occurrence of [".java"] cannot run into a following ["Test"]. *)
Lemma java_occurrence_fits (p : string) (rest : string) :
  String.prefix ".java" (p +:+ "Test" +:+ rest) = true →
  (5 ≤ String.length p)%nat.
Proof.
  destruct p as [|c1 [|c2 [|c3 [|c4 [|c5 p]]]]]; cbn [String.length];
    try lia; intros H; exfalso;
    cbv beta iota delta [String.append] in H;
    repeat (apply prefix_cons_inv in H as (? & ? & H); simplify_eq).
Qed.

Lemma replace_go_keeps_suffix (p : string) (k : nat) :
  (k ≤ String.length p)%nat →
  ∃ x, PyStr.replace_go ".java" "" k (p +:+ "Test.java") = x +:+ "Test".
Proof.
  revert k. induction p as [|c p IH]; intros k Hk.
  - assert (k = 0%nat) as -> by (simpl in Hk; lia). by exists "".
  - rewrite append_cons. destruct k as [|k].
    + cbn [PyStr.replace_go].
      destruct (String.prefix ".java" (String c (p +:+ "Test.java"))) eqn:E.
      * change (String c (p +:+ "Test.java"))
          with (String c p +:+ "Test" +:+ ".java") in E.
        apply java_occurrence_fits in E. simpl in E.
        destruct (IH 4%nat ltac:(lia)) as [x Hx]. exists x.
        rewrite append_nil_l. exact Hx.
      * destruct (IH 0%nat ltac:(lia)) as [x Hx]. exists (String c x).
        by rewrite Hx.
    + cbn [PyStr.replace_go]. apply IH. simpl in Hk. lia.
Qed.

Lemma is_test_name_iff (f : string) :
  Classifier.is_test_name f = true
  ↔ PyStr.startswith f "Test" = true ∨ PyStr.endswith f "Test" = true
    ∨ PyStr.endswith f "Tests" = true.
Proof.
  unfold Classifier.is_test_name. rewrite !orb_true_iff. split.
  - intros [[[H | H] | H] | H]; auto. left.
    unfold PyStr.startswith in *.
    change "Tests" with ("Test" +:+ "s") in H. by apply prefix_app_l in H.
  - intros [H | [H | H]]; auto.
Qed.

Lemma replace_go_keeps_suffix_s (p : string) (k : nat) :
  (k ≤ String.length p)%nat →
  ∃ x, PyStr.replace_go ".java" "" k (p +:+ "Tests.java") = x +:+ "Tests".
Proof.
  revert k. induction p as [|c p IH]; intros k Hk.
  - assert (k = 0%nat) as -> by (simpl in Hk; lia). by exists "".
  - rewrite append_cons. destruct k as [|k].
    + cbn [PyStr.replace_go].
      destruct (String.prefix ".java" (String c (p +:+ "Tests.java"))) eqn:E.
      * change (String c (p +:+ "Tests.java"))
          with (String c p +:+ "Test" +:+ "s.java") in E.
        apply java_occurrence_fits in E. simpl in E.
        destruct (IH 4%nat ltac:(lia)) as [x Hx]. exists x.
        rewrite append_nil_l. exact Hx.
      * destruct (IH 0%nat ltac:(lia)) as [x Hx]. exists (String c x).
        by rewrite Hx.
    + cbn [PyStr.replace_go]. apply IH. simpl in Hk. lia.
Qed.

(** Removing [".java"] from a file name keeps a [Test]/[Tests] prefix or
    suffix of the name without its extension. *)
Lemma replace_keeps_test_name (base : string) :
  Classifier.is_test_name base = true →
  Classifier.is_test_name (PyStr.replace ".java" "" (base +:+ ".java")) = true.
Proof.
  rewrite !is_test_name_iff. intros [H | [H | H]].
  - left. apply startswith_iff in H as [t ->]. apply startswith_iff.
    eexists. unfold PyStr.replace. reflexivity.
  - right; left. apply endswith_iff in H as [t ->]. apply endswith_iff.
    rewrite append_assoc.
    apply (replace_go_keeps_suffix t 0). lia.
  - right; right. apply endswith_iff in H as [t ->]. apply endswith_iff.
    rewrite append_assoc.
    apply (replace_go_keeps_suffix_s t 0). lia.
Qed.

(** X6. In [utils_async.py] the Java profile promotes a header line whose
    file name is [base ++ ".java"] with a [Test]/[Tests] prefix or suffix on
    [base]: the flag becomes [Test] and the line joins the test stream. *)
Lemma java_promotion_async (lexer_name : string → option string)
  (name line base : string) (st : Classifier.state) :
  is_header line = true →
  List.last (PyStr.split "/" line) "" = base +:+ ".java" →
  Classifier.is_test_name base = true →
  Classifier.header_flag lexer_name Classifier.Async "java" name line
  = Some Classifier.Test
  ∧ Classifier.step lexer_name Classifier.Async "java" name st line
    = Classifier.mkState (Some Classifier.Test) (Classifier.patch_change st)
        (Classifier.patch_test st ++ [line]).
Proof.
  intros Hh Hf Hb.
  assert (F : Classifier.header_flag lexer_name Classifier.Async "java" name line
              = Some Classifier.Test).
  { unfold Classifier.header_flag. cbn [String.eqb Ascii.eqb Bool.eqb].
    change (String.eqb "java" "python") with false.
    change (String.eqb "java" "js") with false.
    change (String.eqb "java" "java") with true. cbv iota.
    unfold Classifier.java_name_flag. rewrite Hf, endswith_append.
    by rewrite replace_keeps_test_name. }
  split; [exact F|].
  unfold Classifier.step. pose proof (header_not_meta line Hh) as Hm.
  unfold is_meta, is_header in *. by rewrite Hm, Hh, F.
Qed.

(** C3. Java test-file promotion fails in [utils.py]: on a header line whose
    file name ends in [Test.java] the flag is never [Test], whatever the
    lexer says, and the line does not reach the test stream; the same line
    is promoted in [utils_async.py]. *)
Theorem java_promotion_sync_missed :
  (∀ (lexer_name : string → option string) (name : string) (st : Classifier.state),
      Classifier.header_flag lexer_name Classifier.Sync "java" name Sample.java_header
      ≠ Some Classifier.Test
      ∧ Classifier.patch_test
          (Classifier.step lexer_name Classifier.Sync "java" name st Sample.java_header)
        = Classifier.patch_test st)
  ∧ Classifier.extract_patches Classifier.sample_lexer Classifier.Sync "java" "r"
      Sample.java_diff
    = (Classifier.render (non_meta (Sample.java_header :: Sample.java_body)), "", true)
  ∧ Classifier.extract_patches Classifier.sample_lexer Classifier.Async "java" "r"
      Sample.java_diff
    = ("", Classifier.render (non_meta (Sample.java_header :: Sample.java_body)), true).
Proof.
  split; [|split; reflexivity].
  intros lexer_name name st.
  assert (F : Classifier.header_flag lexer_name Classifier.Sync "java" name
                Sample.java_header
              = Classifier.narrow Classifier.Diff
                  (Classifier.is_java lexer_name name Sample.java_header))
    by reflexivity.
  split.
  - rewrite F. unfold Classifier.narrow. by destruct (Classifier.is_java _ _ _).
  - unfold Classifier.step.
    change (PyStr.startswith Sample.java_header "index ") with false.
    change (PyStr.startswith Sample.java_header "diff --git a/") with true.
    cbv iota. rewrite F. unfold Classifier.narrow.
    by destruct (Classifier.is_java _ _ _).
Qed.

(** ** ResilientFetcher *)

Section FetchProps.

Import Rotator Fetch.

Variable py_int : string -> option Z.
Variable md5_int : string -> Z.

Lemma enabled_rotate (r : ProxyRotator) : enabled (rotate r) = enabled r.
Proof. reflexivity. Qed.

Lemma enabled_get_proxies (now : Z) (r : ProxyRotator) :
  enabled (fst (get_proxies md5_int now r)) = enabled r.
Proof.
  unfold get_proxies. destruct (enabled r) eqn:E; simpl; [|done].
  destruct (request_count r >=? max_requests_per_ip r); simpl;
    try destruct (current_session_id r); simpl;
    unfold _generate_new_session_id; simpl;
    try destruct (random_offset r); simpl; done.
Qed.

Lemma enabled_record_request (now : Z) (r : ProxyRotator) :
  enabled (record_request md5_int now r) = enabled r.
Proof. unfold record_request. by rewrite enabled_get_proxies. Qed.

Lemma run_loop_total {A : Type} (P : bool → attempt_env → Prop)
  (attempt : attempt_env → fstate → fstate * outcome A) (sentinel : A)
  (w : world) (en : bool) :
  pass_ok P attempt →
  ∀ (fuel : nat) (st : fstate),
    Z.of_nat (attempts st) = retries st →
    enabled (rot st) = en →
    retries st ≤ 5 →
    5 - retries st < Z.of_nat fuel →
    ∃ st' res,
      run_loop fuel attempt sentinel 5 w st = Some (st', res)
      ∧ (attempts st' ≤ 5)%nat
      ∧ ((∀ i, P en (w i)) → ∃ a, res = Ret a).
Proof.
  intros Hok. induction fuel as [|fuel IH]; intros st Ha He Hr Hf.
  - lia.
  - simpl. destruct (Z.ltb_spec (retries st) 5) as [Hlt | Hge].
    + destruct (Hok (w (attempts st)) st ltac:(lia)) as (H1 & H2 & H3 & H4).
      destruct (attempt (w (attempts st)) st) as [st' o] eqn:E. simpl in *.
      destruct o as [a | | e].
      * exists st', (Ret a). split; [done|]. split; [lia | eauto].
      * apply IH; rewrite ?H3 by done; [lia | congruence | lia | lia].
      * exists st', (Raise e). split; [done|]. split; [lia|].
        intros HP. exfalso. rewrite He in H4. by apply (H4 (HP _) e).
    + exists st, (Ret sentinel). split; [done|]. split; [lia | eauto].
Qed.

Lemma float_limit_large : time_sleep_max < float_limit.
Proof. reflexivity. Qed.

Lemma async_sleep_ok (d : Z) (st : fstate)
  (k : fstate → fstate * outcome string) :
  d < float_limit → async_sleep d st k = k (sleep d st).
Proof.
  intros Hd. unfold async_sleep.
  by destruct (Z.leb_spec float_limit d); [lia|].
Qed.

Lemma sync_sleep_ok (d : Z) (st : fstate)
  (k : fstate → fstate * outcome (option response)) :
  0 ≤ d ≤ time_sleep_max → sync_sleep d st k = k (sleep d st).
Proof.
  intros Hd. unfold sync_sleep.
  destruct (Z.ltb_spec d 0); [lia|].
  by destruct (Z.ltb_spec time_sleep_max d); [lia|].
Qed.

Ltac short_sleep :=
  repeat match goal with
         | H : (float_limit <=? _) = true |- _ =>
             apply Z.leb_le in H; pose proof float_limit_large;
             unfold time_sleep_max in *; exfalso; lia
         | H : (time_sleep_max <? _) = true |- _ =>
             apply Z.ltb_lt in H; unfold time_sleep_max in *; exfalso; lia
         | H : (float_limit <=? _) = false |- _ => clear H
         end.

Lemma async_attempt_ok : pass_ok (async_benign py_int) (async_attempt py_int md5_int).
Proof.
  intros env st _. unfold async_attempt, async_benign, async_except,
    async_sleep, rotate_if_enabled, int_header.
  destruct env as [[r | e] now]; cbn [env_reply env_now].
  - destruct (enabled (rot st)) eqn:En; cbn [issued set_rot rot];
      rewrite ?enabled_record_request, ?En;
      repeat (case_match; simplify_eq; cbn -[Z.min Z.max Z.mul float_limit]);
      try (by short_sleep);
      rewrite ?enabled_record_request, ?En;
      (split; [done|]); (split; [done|]); (split; [try done; intros _; lia|]);
      try done; try (intros (? & ? & ?); simplify_eq; try done);
      try (intros [? ?]; simplify_eq; done);
      try (intros H ? ?; by specialize (H _ eq_refl)).
    all: try (intros ?; exfalso; naive_solver).
    all: exfalso.
    all: try match goal with
             | H : _ → _ → ∃ _, _ |- _ =>
                 destruct H as (? & ? & ?); [by apply Z.eqb_eq | done |]
             end.
    all: try match goal with
             | H : false = false → _ |- _ => specialize (H eq_refl)
             end.
    all: simplify_eq.
    all: pose proof float_limit_large; unfold time_sleep_max in *.
    all: match goal with
         | H : (float_limit <=? _) = true |- _ => apply Z.leb_le in H; lia
         end.
  - destruct (enabled (rot st)) eqn:En; cbn [issued set_rot rot];
      rewrite ?enabled_record_request, ?En;
      destruct e; cbn -[Z.min Z.max Z.mul];
      rewrite ?enabled_record_request, ?En;
      (split; [done|]); (split; [done|]); (split; [try done; intros _; lia|]);
      done.
Qed.

Lemma enabled_increment (r : ProxyRotator) :
  enabled (increment_request_count r) = enabled r.
Proof. reflexivity. Qed.

Lemma sync_attempt_ok : pass_ok (sync_benign py_int) (sync_attempt py_int md5_int).
Proof.
  intros env st Hr. unfold sync_attempt, sync_benign, sync_except, sync_sleep,
    rotate_if_enabled, int_header, update_env_proxies.
  destruct env as [[r | e] now]; cbn [env_reply env_now].
  - destruct (enabled (rot st)) eqn:En; cbn [issued set_rot rot];
      rewrite ?enabled_get_proxies, ?enabled_increment, ?En;
      repeat (case_match; simplify_eq; cbn -[Z.min Z.max Z.mul]);
      repeat (rewrite enabled_get_proxies || rewrite enabled_rotate
              || rewrite enabled_increment);
      rewrite ?En;
      (split; [try done|]).
    all: try (split; [try done|]).
    all: try (split; [try done; intros _; lia|]).
    all: try done.
    all: try lia.
    all: try (intros (? & ? & ? & ?); simplify_eq; try done).
    all: try match goal with
             | H : _ → _ → ∃ _ _, _ |- _ =>
                 destruct H as (? & ? & ? & ? & ?);
                 [by apply Z.eqb_eq | done | simplify_eq; try lia]
             end.
    all: try match goal with
             | H : (?x =? 0) = false, H' : ?x ≠ 0 → _ |- _ =>
                 destruct H' as [?|[?|?]];
                 [by apply Z.eqb_neq | congruence..]
             end.
    all: try (intros (? & ? & ?); simplify_eq; try done).
    all: try match goal with
             | H : false = false → _ |- _ => specialize (H eq_refl)
             end.
    all: exfalso; unfold time_sleep_max in *.
    all: repeat match goal with
                | H : (_ <? _) = true |- _ => apply Z.ltb_lt in H
                end.
    all: lia.
  - destruct (enabled (rot st)) eqn:En; cbn [issued set_rot rot];
      rewrite ?enabled_get_proxies, ?enabled_increment, ?En;
      destruct e; cbn -[Z.min Z.max Z.mul];
      rewrite ?enabled_get_proxies, ?enabled_increment, ?En;
      (split; [done|]); (split; [done|]); (split; [try done; intros _; lia|]);
      try done; intros [?|?]; done.
Qed.

(** C5, as amended. Fetch totality: for every sequence of replies a call of
    either fetcher returns after at most 5 requests, and when every reply is
    one the fetcher copes with the call returns a body or the failure
    sentinel rather than raising. A fetcher copes with exceptions of the
    classes its [except] clauses name; with integer text in the rate-limit
    headers it reads; with sleeps taken from a header whose length the
    sleeping call accepts, from 0 to [time_sleep_max] seconds for
    [time.sleep] in [utils.py] and below [float_limit] for [asyncio.sleep]
    in [utils_async.py]; and, in [utils.py], with a reset header that is
    there when it is read and with a 403 reply reporting quota left whose
    JSON body parses or fails with a class of the first clause. *)
Theorem fetch_totality (w : world) (r : ProxyRotator) :
  (∃ st res,
      fetch_with_retries py_int md5_int 6 5 w r = Some (st, res)
      ∧ (attempts st ≤ 5)%nat
      ∧ ((∀ i, async_benign py_int (enabled r) (w i)) → ∃ body, res = Ret body))
  ∧ (∃ st res,
        github_api py_int md5_int 6 5 w r = Some (st, res)
        ∧ (attempts st ≤ 5)%nat
        ∧ ((∀ i, sync_benign py_int (enabled r) (w i)) → ∃ resp, res = Ret resp)).
Proof.
  split.
  - apply (run_loop_total (async_benign py_int)); simpl;
      [apply async_attempt_ok | done | done | lia | lia].
  - apply (run_loop_total (sync_benign py_int)); simpl;
      [apply sync_attempt_ok | done | done | lia | lia].
Qed.

(** A 404 reply ends [fetch_with_retries] at once with the empty body. *)
Lemma async_not_found (w : world) (r : ProxyRotator) (resp : response) :
  env_reply (w 0%nat) = Responds resp → status resp = 404 →
  ∃ st, fetch_with_retries py_int md5_int 6 5 w r = Some (st, Ret "")
        ∧ attempts st = 1%nat ∧ retries st = 0.
Proof.
  intros Hw Hs. unfold fetch_with_retries. cbn [run_loop start retries attempts].
  change (0 <? 5) with true. cbv iota.
  unfold async_attempt. rewrite Hw, Hs.
  change (404 =? 200) with false. change (404 =? 403) with false.
  change ((404 =? 502) || (404 =? 503)) with false.
  change (404 =? 429) with false. change (404 =? 404) with true. cbv iota.
  eexists. split; [reflexivity|].
  split; cbn [start rot]; by destruct (enabled r).
Qed.

End FetchProps.

Lemma fetch_totality_witness :
  (∃ st, Fetch.fetch_with_retries Sample.py_int Sample.md5_int 6 5
           Sample.world_flaky Sample.plain_rotator = Some (st, Ret "diff")
         ∧ Fetch.attempts st = 3%nat)
  ∧ (∃ st resp, Fetch.github_api Sample.py_int Sample.md5_int 6 5
                  Sample.world_rate_limited Sample.plain_rotator
                = Some (st, Ret (Some resp))
                ∧ Fetch.attempts st = 2%nat ∧ Fetch.slept st = [31]).
Proof.
  split.
  - destruct (fetch_totality Sample.py_int Sample.md5_int Sample.world_flaky
                Sample.plain_rotator) as [(st & res & E & _ & Hb) _].
    destruct Hb as [body ->].
    + intros i. unfold async_benign, Sample.world_flaky.
      destruct (i <? 2)%nat; simpl; [done|]. intros e. discriminate.
    + exists st. revert E. vm_compute. intros [= <- <-]. split; reflexivity.
  - destruct (fetch_totality Sample.py_int Sample.md5_int
                Sample.world_rate_limited Sample.plain_rotator)
      as [_ (st & res & E & _ & Hb)].
    destruct Hb as [resp ->].
    + intros i. unfold sync_benign, Sample.world_rate_limited.
      destruct (i <? 1)%nat; [|done].
      exists 0. split; [reflexivity|]. split; [|done].
      intros _ _. exists "1700000030", 1700000030.
      split; [reflexivity|]. split; [reflexivity|]. by vm_compute.
    + exists st. revert E. vm_compute. intros [= <- <-].
      eexists. split_and!; reflexivity.
Defined.

(** Three cases at the border of what the fetchers cope with: a reset too
    far ahead for [time.sleep] ends [github_api] with [OverflowError], a
    [Retry-After] that no float holds ends [fetch_with_retries] with it, and
    a raised [HTTP404NotFoundError] is retried by [github_api] like any
    transport fault. *)
Example far_reset_overflows :
  ∃ st, Fetch.github_api Sample.py_int Sample.md5_int 6 5
          Sample.world_far_reset Sample.plain_rotator
        = Some (st, Raise OverflowError)
        ∧ Fetch.attempts st = 1%nat.
Proof. eexists. vm_compute. split; reflexivity. Qed.

Example far_retry_overflows :
  ∃ st, Fetch.fetch_with_retries Sample.py_int Sample.md5_int 6 5
          Sample.world_far_retry Sample.plain_rotator
        = Some (st, Raise OverflowError)
        ∧ Fetch.attempts st = 1%nat.
Proof. eexists. vm_compute. split; reflexivity. Qed.

Example raised_not_found_retried :
  ∃ st, Fetch.github_api Sample.py_int Sample.md5_int 6 5
          Sample.world_raises_404 Sample.plain_rotator
        = Some (st, Ret None)
        ∧ Fetch.attempts st = 5%nat ∧ Fetch.slept st = [3; 6; 9; 12; 15].
Proof. eexists. vm_compute. split_and!; reflexivity. Qed.

(** C5 as stated fails: a rate-limit header that is not a number makes both
    fetchers raise [ValueError] to their caller. *)
Lemma fetch_totality_counterexample :
  (∃ st, Fetch.fetch_with_retries Sample.py_int Sample.md5_int 6 5
           Sample.world_malformed Sample.plain_rotator
         = Some (st, Raise ValueError))
  ∧ (∃ st, Fetch.github_api Sample.py_int Sample.md5_int 6 5
             Sample.world_malformed Sample.plain_rotator
           = Some (st, Raise ValueError)).
Proof. split; eexists; vm_compute; reflexivity. Qed.

(** C4. NotFound short-circuit fails in [utils.py]: [github_api] treats a
    404 reply like any other error status, so it issues all 5 requests
    before it returns [None]; [fetch_with_retries] of [utils_async.py]
    returns the empty body after the first request. *)
Theorem not_found_sync_retries :
  (∃ st, Fetch.github_api Sample.py_int Sample.md5_int 6 5
           Sample.world_404 Sample.plain_rotator = Some (st, Ret None)
         ∧ Fetch.attempts st = 5%nat ∧ Fetch.retries st = 5)
  ∧ (∃ st, Fetch.fetch_with_retries Sample.py_int Sample.md5_int 6 5
             Sample.world_404 Sample.plain_rotator = Some (st, Ret "")
           ∧ Fetch.attempts st = 1%nat ∧ Fetch.retries st = 0).
Proof. split; eexists; vm_compute; repeat split; reflexivity. Qed.

(** ** ParallelPageCache *)

Section PageCacheProps.

Import PageCache.

Context {Item : Type}.

Implicit Types (w : Z → nat → page_reply Item) (replies : nat → page_reply Item).

Lemma fetch_attempts_spec (n a : nat) replies :
  match fetch_attempts Item n a replies with
  | Some data =>
      ∃ k : nat, (k < n)%nat
        ∧ replies (a + k)%nat = PageResponds 200 (Some data)
        ∧ ∀ (j : nat) d, (j < k)%nat →
            replies (a + j)%nat ≠ PageResponds 200 (Some d)
  | None =>
      ∀ (k : nat) d, (k < n)%nat →
        replies (a + k)%nat ≠ PageResponds 200 (Some d)
  end.
Proof.
  revert a. induction n as [|n IH]; intros a; simpl.
  - intros k d Hk. lia.
  - assert (Hstep :
      (∀ d, replies a ≠ PageResponds 200 (Some d)) →
      match fetch_attempts Item n (S a) replies with
      | Some data =>
          ∃ k : nat, (k < S n)%nat
            ∧ replies (a + k)%nat = PageResponds 200 (Some data)
            ∧ ∀ (j : nat) d, (j < k)%nat →
                replies (a + j)%nat ≠ PageResponds 200 (Some d)
      | None =>
          ∀ (k : nat) d, (k < S n)%nat →
            replies (a + k)%nat ≠ PageResponds 200 (Some d)
      end).
    { intros Hne. specialize (IH (S a)).
      destruct (fetch_attempts Item n (S a) replies) as [data|].
      - destruct IH as (k & Hk & Hr & Hb). exists (S k).
        split; [lia|]. split; [by rewrite Nat.add_succ_r|].
        intros [|j] d Hj; [by rewrite Nat.add_0_r|].
        rewrite Nat.add_succ_r. apply Hb. lia.
      - intros [|k] d Hk; [by rewrite Nat.add_0_r|].
        rewrite Nat.add_succ_r. apply IH. lia. }
    destruct (replies a) as [code [data|]|] eqn:E; try (by apply Hstep).
    destruct (Z.eqb_spec code 200) as [-> | NE].
    + exists 0%nat. split; [lia|]. split; [by rewrite Nat.add_0_r|].
      intros j d Hj. lia.
    + apply Hstep. intros d [= ? ?]. done.
Qed.

Lemma fetch_page_succeeds replies data :
  fetch_page Item replies = Some data ↔ succeeds replies data.
Proof.
  pose proof (fetch_attempts_spec 3 0 replies) as H. unfold fetch_page.
  split.
  - intros E. rewrite E in H. exact H.
  - intros (a & Ha & Hr & Hb).
    destruct (fetch_attempts Item 3 0 replies) as [d|].
    + destruct H as (k & Hk & Hr' & Hb'). simpl in *.
      destruct (Nat.lt_trichotomy a k) as [L | [-> | L]].
      * by destruct (Hb' a data L).
      * congruence.
      * by destruct (Hb k d L).
    + by destruct (H a data Ha).
Qed.

Lemma fetch_page_fails replies :
  fetch_page Item replies = None ↔ fails_every_attempt replies.
Proof.
  pose proof (fetch_attempts_spec 3 0 replies) as H. unfold fetch_page.
  split.
  - intros E. rewrite E in H. exact H.
  - intros Hf. destruct (fetch_attempts Item 3 0 replies) as [d|]; [|done].
    destruct H as (k & Hk & Hr & _). by destruct (Hf k d Hk).
Qed.

Lemma contributions_fetch_page w items (p : Z) :
  contributions w items → items p = default [] (fetch_page Item (w p)).
Proof.
  intros H. destruct (H p) as [Hs Hf].
  destruct (fetch_page Item (w p)) as [d|] eqn:E; simpl.
  - by apply Hs, fetch_page_succeeds.
  - by apply Hf, fetch_page_fails.
Qed.

Lemma fetch_into_cache_lookup w (ps : list Z)
  (files : gmap Z (option (list Item))) (p : Z) :
  fetch_into_cache Item w ps files !! p
  = if bool_decide (p ∈ ps)
    then match fetch_page Item (w p) with
         | Some d => Some (Some d)
         | None => files !! p
         end
    else files !! p.
Proof.
  revert files. induction ps as [|q ps IH]; intros files; [done|].
  unfold fetch_into_cache in *. simpl fold_left. rewrite IH.
  destruct (decide (p = q)) as [-> | NE].
  - rewrite (bool_decide_eq_true_2 (q ∈ q :: ps)) by left.
    destruct (fetch_page Item (w q)) as [d|]; [|by case_bool_decide].
    rewrite lookup_insert_eq. by case_bool_decide.
  - assert (E : bool_decide (p ∈ q :: ps) = bool_decide (p ∈ ps)).
    { apply bool_decide_ext. rewrite elem_of_cons. naive_solver. }
    rewrite E. destruct (fetch_page Item (w q)) as [d|];
      by rewrite ?lookup_insert_ne.
Qed.

Lemma fetch_into_memory_lookup w (ps : list Z) (p : Z) :
  fetch_into_memory Item w ps !! p
  = if bool_decide (p ∈ ps)
    then Some (default [] (fetch_page Item (w p)))
    else None.
Proof.
  unfold fetch_into_memory.
  assert (G : ∀ m : gmap Z (list Item),
    fold_left (λ fd q, <[q := default [] (fetch_page Item (w q))]> fd) ps m !! p
    = if bool_decide (p ∈ ps)
      then Some (default [] (fetch_page Item (w p))) else m !! p).
  { induction ps as [|q ps IH]; intros m; [done|]. simpl fold_left. rewrite IH.
    destruct (decide (p = q)) as [-> | NE].
    - rewrite (bool_decide_eq_true_2 (q ∈ q :: ps)) by left.
      rewrite lookup_insert_eq. by case_bool_decide.
    - assert (E : bool_decide (p ∈ q :: ps) = bool_decide (p ∈ ps)).
      { apply bool_decide_ext. rewrite elem_of_cons. naive_solver. }
      by rewrite E, lookup_insert_ne. }
  rewrite G. by case_bool_decide.
Qed.

Lemma elem_of_page_range (last_page p : Z) :
  p ∈ page_range last_page ↔ 1 ≤ p ≤ last_page.
Proof. unfold page_range. rewrite elem_of_seqZ. lia. Qed.

Lemma elem_of_pages_to_fetch (files : gmap Z (option (list Item)))
  (last_page p : Z) :
  p ∈ List.filter (λ q, negb (bool_decide (q ∈ dom files))) (page_range last_page)
  ↔ 1 ≤ p ≤ last_page ∧ files !! p = None.
Proof.
  rewrite list_elem_of_In, filter_In, <- list_elem_of_In, elem_of_page_range.
  rewrite negb_true_iff, bool_decide_eq_false, not_elem_of_dom. done.
Qed.

(** The page files after steps 2 and 3 *)
Lemma fetch_and_combine_cached w (dir : cache Item) (last_page : Z)
  (page1_data : list Item) :
  ∃ files,
    fetch_and_combine Item w (Some dir) last_page page1_data
    = (Some (mkCache (meta dir) files),
       Assembled (concat (read_page Item files <$> page_range last_page)))
    ∧ ∀ p, files !! p
           = match pages dir !! p with
             | Some x => Some x
             | None =>
                 if bool_decide (1 ≤ p ≤ last_page)
                 then Some <$> fetch_page Item (w p)
                 else None
             end.
Proof.
  eexists. split; [reflexivity|]. intros p.
  rewrite fetch_into_cache_lookup.
  destruct (pages dir !! p) as [x|] eqn:E.
  - rewrite bool_decide_eq_false_2; [done|].
    rewrite elem_of_pages_to_fetch. naive_solver.
  - case_bool_decide as H1; case_bool_decide as H2;
      rewrite elem_of_pages_to_fetch in H1.
    + by destruct (fetch_page Item (w p)).
    + naive_solver.
    + naive_solver.
    + done.
Qed.

Lemma concat_fmap_ext {A B} (f g : A → list B) (l : list A) :
  (∀ x, x ∈ l → f x = g x) → concat (f <$> l) = concat (g <$> l).
Proof.
  induction l as [|a l IH]; intros H; [done|]. simpl.
  rewrite (H a) by left. f_equal. apply IH. intros x Hx. apply H. by right.
Qed.

(** Without a cache directory: page 1 as step 1 received it, then pages
    [2..last_page] as step 3 fetched them. *)
Lemma assemble_in_memory w (disc_data : list Item) (link : option Z) items :
  contributions w items →
  get_all_pulls_with_official_github_api Item None
    (DiscResponds 200 (Some disc_data) link) w
  = Ret (None,
         Assembled (disc_data
                    ++ concat (items <$> seqZ 2 (default 1 link - 1)))).
Proof.
  intros Hc. unfold get_all_pulls_with_official_github_api. simpl.
  destruct (Z.leb_spec (default 1 link) 1) as [Hle | Hgt].
  - rewrite seqZ_nil by lia. simpl. by rewrite app_nil_r.
  - unfold fetch_and_combine. do 3 f_equal.
    assert (Hm : ∀ p, 1 ≤ p ≤ default 1 link →
              fetch_into_memory Item w (page_range (default 1 link)) !! p
              = Some (items p)).
    { intros p Hp. rewrite fetch_into_memory_lookup.
      rewrite bool_decide_eq_true_2 by (by apply elem_of_page_range).
      f_equal. symmetry. by apply contributions_fetch_page. }
    generalize dependent (fetch_into_memory Item w (page_range (default 1 link))).
    intros fetched_data Hm.
    unfold page_range. rewrite (seqZ_cons 1) by lia. simpl.
    replace (Z.pred (default 1 link)) with (default 1 link - 1) by lia.
    f_equal. change (Z.succ 1) with 2.
    apply concat_fmap_ext. intros p Hp. apply elem_of_seqZ in Hp.
    unfold recall_page. rewrite (proj2 (Z.eqb_neq p 1)) by lia.
    rewrite Hm by lia. done.
Qed.

Lemma fetched_pages_facts (start : gmap Z (option (list Item)))
  (files : gmap Z (option (list Item))) w (last_page p : Z) :
  files !! p
  = match start !! p with
    | Some x => Some x
    | None =>
        if bool_decide (1 ≤ p ≤ last_page)
        then Some <$> fetch_page Item (w p)
        else None
    end →
  (∀ x, start !! p = Some x → files !! p = Some x)
  ∧ (start !! p = None →
     (∀ d, 1 ≤ p ≤ last_page ∧ succeeds (w p) d ↔ files !! p = Some (Some d))
     ∧ (files !! p = None ∨ ∃ d, files !! p = Some (Some d))).
Proof.
  intros ->. split; [by intros x ->|]. intros ->.
  case_bool_decide as Hr.
  - destruct (fetch_page Item (w p)) as [d|] eqn:E; simpl.
    + apply fetch_page_succeeds in E as Hs. split; [|eauto].
      intros d'. split; [intros [_ Hs']|intros [= <-]; done].
      apply fetch_page_succeeds in Hs'. congruence.
    + split; [|eauto]. intros d'. split; [|done].
      intros [_ Hs']. apply fetch_page_succeeds in Hs'. congruence.
  - split; [|eauto]. intros d'. split; [|done]. intros [? _]. done.
Qed.

(** With a cache directory whose [meta.json] records the page count *)
Lemma resumed_from_meta (dir : cache Item) (disc : discovery Item) w
  (last_page : Z) :
  meta dir = Some last_page →
  ∃ files,
    get_all_pulls_with_official_github_api Item (Some dir) disc w
    = Ret (Some (mkCache (Some last_page) files),
           Assembled (concat (read_page Item files <$> page_range last_page)))
    ∧ files_after dir disc w last_page files.
Proof.
  intros Hmeta. unfold get_all_pulls_with_official_github_api.
  change (Some dir ≫= meta) with (meta dir). rewrite Hmeta.
  destruct (fetch_and_combine_cached w dir last_page []) as (files & -> & Hf).
  exists files. rewrite Hmeta. split; [done|].
  unfold files_after, fetched_in_run. rewrite Hmeta.
  split; [|split].
  - intros p. destruct (fetched_pages_facts _ _ _ _ _ (Hf p)) as [H1 H2].
    destruct (pages dir !! p) as [x|] eqn:E.
    + rewrite (H1 x eq_refl). naive_solver.
    + destruct (H2 eq_refl) as [H3 [H4 | [d H4]]]; rewrite H4.
      * split; [by intros [? ?]|].
        intros [[? ?]|[d [[? [? _]]|(_ & ? & _ & Hs)]]]; [done..|].
        specialize (proj1 (H3 d) (conj H Hs)). congruence.
      * split; [|eauto]. intros _. right. exists d. right.
        apply H3 in H4. naive_solver.
  - intros p d [[_ [? _]]|(_ & Hr & Hn & Hs)]; [done|].
    destruct (fetched_pages_facts _ _ _ _ _ (Hf p)) as [_ H2].
    by apply (H2 Hn).
  - intros p x Hx _.
    destruct (fetched_pages_facts _ _ _ _ _ (Hf p)) as [H1 _]. by apply H1.
Qed.

(** With a cache directory without [meta.json]: the page count comes from
    the reply to the page-1 request. *)
Lemma discovered_from_page1 (dir : cache Item) w (page1_data : list Item)
  (link : option Z) :
  meta dir = None →
  ∃ files,
    get_all_pulls_with_official_github_api Item (Some dir)
      (DiscResponds 200 (Some page1_data) link) w
    = Ret (Some (mkCache (Some (default 1 link)) files),
           Assembled (concat (read_page Item files
                              <$> page_range (Z.max 1 (default 1 link)))))
    ∧ files_after dir (DiscResponds 200 (Some page1_data) link) w
        (default 1 link) files
    ∧ files !! 1 = Some (Some page1_data)
    ∧ ∀ p, p ≠ 1 →
           files !! p
           = match pages dir !! p with
             | Some x => Some x
             | None =>
                 if bool_decide (1 < p ≤ default 1 link)
                 then Some <$> fetch_page Item (w p)
                 else None
             end.
Proof.
  intros Hmeta. unfold get_all_pulls_with_official_github_api.
  change (Some dir ≫= meta) with (meta dir). rewrite Hmeta.
  cbn [negb Z.eqb Pos.eqb fmap option_fmap option_map].
  set (last_page := default 1 link).
  set (c1 := mkCache (Some last_page) (<[1 := Some page1_data]> (pages dir))).
  assert (Hc1 : ∀ p, p ≠ 1 → pages c1 !! p = pages dir !! p)
    by (intros p Hp; simpl; by rewrite lookup_insert_ne).
  assert (Hc1' : pages c1 !! 1 = Some (Some page1_data))
    by (simpl; by rewrite lookup_insert_eq).
  destruct (Z.leb_spec last_page 1) as [Hle | Hgt].
  - exists (pages c1). split; [|split; [|split]].
    + replace (Z.max 1 last_page) with 1 by lia.
      unfold page_range, read_page. simpl. rewrite lookup_insert_eq.
      by rewrite app_nil_r.
    + unfold files_after, fetched_in_run. rewrite Hmeta. split; [|split].
      * intros p. destruct (decide (p = 1)) as [-> | Hp].
        -- rewrite Hc1'. split; [|eauto]. intros _. right.
           exists page1_data. left. eauto.
        -- rewrite Hc1 by done. split; [auto|].
           intros [?|[d [[? _]|(_ & ? & _)]]]; [done|done|lia].
      * intros p d [(-> & _ & l & [= <-])|([?|?] & ? & _)]; [done|lia|done].
      * intros p x Hx Hn. destruct (decide (p = 1)) as [-> | Hp].
        -- exfalso. apply Hn. exists page1_data. left. eauto.
        -- by rewrite Hc1.
    + exact Hc1'.
    + intros p Hp. rewrite Hc1 by done.
      destruct (pages dir !! p); [done|].
      by rewrite bool_decide_eq_false_2 by lia.
  - destruct (fetch_and_combine_cached w c1 last_page page1_data)
      as (files & -> & Hf).
    exists files. split; [|split; [|split]].
    + by replace (Z.max 1 last_page) with last_page by lia.
    + unfold files_after, fetched_in_run. rewrite Hmeta. split; [|split].
      * intros p. destruct (fetched_pages_facts _ _ _ _ _ (Hf p)) as [H1 H2].
        destruct (decide (p = 1)) as [-> | Hp].
        -- rewrite (H1 _ Hc1'). split; [|eauto]. intros _. right.
           exists page1_data. left. eauto.
        -- rewrite (Hc1 p Hp) in H1, H2.
           destruct (pages dir !! p) as [x|] eqn:E.
           ++ rewrite (H1 x eq_refl). naive_solver.
           ++ destruct (H2 eq_refl) as [H3 [H4 | [d H4]]]; rewrite H4.
              ** split; [by intros [? ?]|].
                 intros [[? ?]|[d [[? _]|(_ & Hr & _ & Hs)]]]; [done..|].
                 specialize (proj1 (H3 d) (conj Hr Hs)). congruence.
              ** split; [|eauto]. intros _. right. exists d. right.
                 apply H3 in H4. naive_solver.
      * intros p d [(-> & _ & l & [= <-])|(Hp & Hr & Hn & Hs)].
        -- destruct (fetched_pages_facts _ _ _ _ _ (Hf 1)) as [H1 _].
           by apply H1.
        -- destruct Hp as [Hp | ?]; [|done].
           destruct (fetched_pages_facts _ _ _ _ _ (Hf p)) as [_ H2].
           rewrite (Hc1 p Hp) in H2. by apply (H2 Hn).
      * intros p x Hx Hn. destruct (decide (p = 1)) as [-> | Hp].
        -- exfalso. apply Hn. exists page1_data. left. eauto.
        -- destruct (fetched_pages_facts _ _ _ _ _ (Hf p)) as [H1 _].
           apply H1. by rewrite Hc1.
    + by rewrite Hf, Hc1'.
    + intros p Hp. rewrite Hf, Hc1 by done.
      destruct (pages dir !! p); [done|].
      case_bool_decide; case_bool_decide; try done; lia.
Qed.

(** With a cache directory that holds no page past the first and no
    [meta.json], the listing is the one made without a cache. *)
Lemma assemble_from_fresh_cache (dir : cache Item) w (items : Z → list Item)
  (page1_data : list Item) (link : option Z) :
  meta dir = None → (∀ p, 2 ≤ p → pages dir !! p = None) →
  contributions w items →
  ∃ files,
    get_all_pulls_with_official_github_api Item (Some dir)
      (DiscResponds 200 (Some page1_data) link) w
    = Ret (Some (mkCache (Some (default 1 link)) files),
           Assembled (page1_data
                      ++ concat (items <$> seqZ 2 (default 1 link - 1)))).
Proof.
  intros Hmeta Hnone Hc.
  destruct (discovered_from_page1 dir w page1_data link Hmeta)
    as (files & -> & _ & H1 & Hp).
  exists files. do 3 f_equal.
  destruct (Z.leb_spec (default 1 link) 1) as [Hle | Hgt].
  - replace (Z.max 1 (default 1 link)) with 1 by lia.
    rewrite (seqZ_nil 2) by lia.
    unfold page_range, read_page. simpl. change (Z.of_nat 0 + 1) with 1. by rewrite H1.
  - replace (Z.max 1 (default 1 link)) with (default 1 link) by lia.
    unfold page_range. rewrite (seqZ_cons 1) by lia. simpl.
    replace (Z.pred (default 1 link)) with (default 1 link - 1) by lia.
    change (Z.succ 1) with 2. f_equal.
    + unfold read_page. by rewrite H1.
    + apply concat_fmap_ext. intros p Hin. apply elem_of_seqZ in Hin.
      unfold read_page. rewrite Hp by lia. rewrite Hnone by lia.
      rewrite bool_decide_eq_true_2 by lia.
      rewrite (contributions_fetch_page w items p Hc).
      by destruct (fetch_page Item (w p)).
Qed.

(** C7. Page-cache completeness and order. Without a cache directory the
    result is page 1 followed, in ascending page order, by the item list of
    every later page that succeeds, a page that fails every attempt giving
    nothing. With a cache directory the page count P is fixed by the input:
    the count [meta.json] records, else, the page-1 request being answered
    200 with a readable body, the last page that reply names (1 when it
    names none), which the call then records in [meta.json]. The call
    returns the concatenation of the page files 1..P in ascending order (of
    page 1 alone when a discovered count is below 1); after the run a page
    has a file exactly if it had one before or was fetched successfully in
    the run, the file of a page fetched in the run holds the fetched items,
    and every other file is still there with the content it had. From a
    directory without [meta.json] that holds no page past the first, the
    listing is the one made without a cache. When there is no [meta.json]
    and the page-1 request fails or is answered with another status than
    200, the call hands over to the sequential listing and leaves the
    directory as it was. *)
Theorem page_cache_completeness :
  (∀ w (items : Z → list Item) (page1_data : list Item) (link : option Z),
      contributions w items →
      get_all_pulls_with_official_github_api Item None
        (DiscResponds 200 (Some page1_data) link) w
      = Ret (None,
             Assembled (page1_data
                        ++ concat (items <$> seqZ 2 (default 1 link - 1)))))
  ∧ (∀ (dir : cache Item) (disc : discovery Item) w (last_page : Z),
        meta dir = Some last_page →
        ∃ files,
          get_all_pulls_with_official_github_api Item (Some dir) disc w
          = Ret (Some (mkCache (Some last_page) files),
                 Assembled (concat (read_page Item files
                                    <$> page_range last_page)))
          ∧ files_after dir disc w last_page files)
  ∧ (∀ (dir : cache Item) w (page1_data : list Item) (link : option Z),
        meta dir = None →
        ∃ files,
          get_all_pulls_with_official_github_api Item (Some dir)
            (DiscResponds 200 (Some page1_data) link) w
          = Ret (Some (mkCache (Some (default 1 link)) files),
                 Assembled (concat (read_page Item files
                                    <$> page_range (Z.max 1 (default 1 link)))))
          ∧ files_after dir (DiscResponds 200 (Some page1_data) link) w
              (default 1 link) files)
  ∧ (∀ (dir : cache Item) w (items : Z → list Item) (page1_data : list Item)
       (link : option Z),
        meta dir = None → (∀ p, 2 ≤ p → pages dir !! p = None) →
        contributions w items →
        ∃ files,
          get_all_pulls_with_official_github_api Item (Some dir)
            (DiscResponds 200 (Some page1_data) link) w
          = Ret (Some (mkCache (Some (default 1 link)) files),
                 Assembled (page1_data
                            ++ concat (items <$> seqZ 2 (default 1 link - 1)))))
  ∧ (∀ (dir : cache Item) (disc : discovery Item) w,
        meta dir = None →
        (disc = DiscFault
         ∨ ∃ code json link, disc = DiscResponds code json link ∧ code ≠ 200) →
        get_all_pulls_with_official_github_api Item (Some dir) disc w
        = Ret (Some dir, Sequential)).
Proof.
  split; [intros; by apply assemble_in_memory|].
  split; [intros; by apply resumed_from_meta|].
  split.
  { intros dir w page1_data link Hmeta.
    destruct (discovered_from_page1 dir w page1_data link Hmeta)
      as (files & E & Hf & _).
    by exists files. }
  split; [intros; by eapply assemble_from_fresh_cache|].
  intros dir disc w Hmeta Hd.
  unfold get_all_pulls_with_official_github_api.
  change (Some dir ≫= meta) with (meta dir). rewrite Hmeta.
  destruct Hd as [-> | (code & json & link & -> & Hne)]; [done|].
  by rewrite (proj2 (Z.eqb_neq code 200) Hne).
Qed.

End PageCacheProps.

Lemma page_world_contributions : contributions Sample.page_world Sample.page_items.
Proof.
  intros p. unfold Sample.page_world, Sample.page_items. split.
  - intros d Hs%fetch_page_succeeds. revert Hs. unfold PageCache.fetch_page.
    destruct (p =? 2); simpl; congruence.
  - intros Hf%fetch_page_fails. revert Hf. unfold PageCache.fetch_page.
    destruct (p =? 2); simpl; congruence.
Qed.

Lemma page_cache_completeness_witness :
  PageCache.get_all_pulls_with_official_github_api Z None
    Sample.page_discovery Sample.page_world
  = Ret (None, PageCache.Assembled [10; 11; 20; 21])
  ∧ (∃ files,
        PageCache.get_all_pulls_with_official_github_api Z
          (Some Sample.empty_dir) Sample.page_discovery Sample.page_world
        = Ret (Some (PageCache.mkCache (Some 3) files),
               PageCache.Assembled [10; 11; 20; 21])
        ∧ files = <[2 := Some [20; 21]]> (<[1 := Some [10; 11]]> ∅))
  ∧ (∃ files,
        PageCache.get_all_pulls_with_official_github_api Z
          (Some Sample.resumed_dir) Sample.page_discovery Sample.page_world
        = Ret (Some (PageCache.mkCache (Some 3) files),
               PageCache.Assembled
                 (concat (PageCache.read_page Z files <$> PageCache.page_range 3)))
        ∧ files_after Sample.resumed_dir Sample.page_discovery
            Sample.page_world 3 files).
Proof.
  pose proof (@page_cache_completeness Z) as (HA & HB & _ & HD & _).
  split; [|split].
  - apply (HA Sample.page_world Sample.page_items [10; 11] (Some 3)).
    apply page_world_contributions.
  - destruct (HD Sample.empty_dir Sample.page_world Sample.page_items
                [10; 11] (Some 3) eq_refl (λ _ _, eq_refl)
                page_world_contributions) as (files & E).
    exists files. split; [exact E|].
    revert E. vm_compute. by intros [= <-].
  - apply (HB Sample.resumed_dir Sample.page_discovery Sample.page_world 3).
    reflexivity.
Defined.

(** ** HarvestPipeline *)

Lemma concat_cons_nonempty (sep x : string) (l : list string) :
  l ≠ [] → String.concat sep (x :: l) = x +:+ sep +:+ String.concat sep l.
Proof. by destruct l. Qed.

(** Joining the fields of a split gives the text back. *)
Lemma join_split (c : ascii) (s : string) :
  PyStr.join (String c "") (PyStr.split c s) = s.
Proof.
  unfold PyStr.join, PyStr.split. induction s as [|d s IH]; [reflexivity|].
  simpl PyStr.split_on. pose proof (split_on_nonempty (PyStr.is_char c) s) as NE.
  destruct (PyStr.is_char c d) eqn:E.
  - rewrite concat_cons_nonempty by done. rewrite IH.
    apply Ascii.eqb_eq in E as ->. reflexivity.
  - destruct (PyStr.split_on (PyStr.is_char c) s) as [|h t]; [done|].
    destruct t as [|h' t].
    + simpl in *. by rewrite IH.
    + rewrite concat_cons_nonempty by done.
      rewrite concat_cons_nonempty in IH by done.
      rewrite append_cons. by rewrite IH.
Qed.

Section PipelineProps.

Import Pipeline.

Variable strptime : string -> option Z.
Variable lexer_name : string -> option string.

Abbreviation create_instance := (Pipeline.create_instance lexer_name).
Abbreviation process_single_pr := (Pipeline.process_single_pr strptime lexer_name).
Abbreviation run_tasks := (Pipeline.run_tasks strptime lexer_name).
Abbreviation main := (Pipeline.main strptime lexer_name).

Lemma make_repo_name (language_ k : string) (r : Repo) :
  make_repo language_ k = Ret r → repo_name r = k.
Proof.
  unfold make_repo. pose proof (join_split "/" k) as J.
  destruct (PyStr.split "/" k) as [|o [|n [|x l]]]; try discriminate.
  intros [= <-]. unfold repo_name. simpl. exact J.
Qed.

(** What [create_instance] does to the files, and the instance it makes *)
Lemma create_instance_spec (w : world) (r : Repo) (pull : Pull) (st st1 : run)
  (res : result Instance) :
  create_instance w r pull st = (st1, res) →
  all_output (fs st1) = all_output (fs st)
  ∧ output (fs st1) = output (fs st)
  ∧ diff_fetches st1 = diff_fetches st ++ [diff_url pull]
  ∧ (∀ text, fetch_diff w pull = Ret text →
       successful (fs st1)
       = if String.eqb text "" then successful (fs st)
         else successful (fs st) ++ [make_id (repo_name r) (number pull)])
  ∧ (∀ inst, res = Ret inst →
       instance_id inst = Some (make_id (repo_name r) (number pull))
       ∧ created_at inst = pull_created_at pull
       ∧ ∃ text, fetch_diff w pull = Ret text
           ∧ patch inst
             = Some (Classifier.extract_patches lexer_name Classifier.Async
                       (language r) (name r) text).1.1).
Proof.
  unfold Pipeline.create_instance.
  destruct (fetch_diff w pull) as [text|e] eqn:Ef.
  - unfold Classifier.extract_patches.
    destruct (String.eqb text "") eqn:Et;
      destruct (statement w pull) as [[problem hints]|e];
      try destruct (resolved_issues pull);
      intros [= <- <-]; simpl;
      (split; [done|]); (split; [done|]); (split; [done|]);
      (split; [intros ? [= <-]; by rewrite Et|]);
      intros inst Hinst; try discriminate; injection Hinst as <-; simpl;
      (split; [done|]); (split; [done|]);
      exists text; (split; [done|]); by rewrite Et.
  - intros [= <- <-]. simpl. repeat split; done.
Qed.

(** One unit appends at most one line to the superset file, the instance of
    its pull request, and only for an id outside both sets. *)
Lemma process_single_pr_spec (w : world) (cutoff_date : Z)
  (seen_prs successful_instances : gset string) (r : Repo) (pull : Pull)
  (st : run) :
  let st' := process_single_pr w cutoff_date seen_prs successful_instances r pull st in
  all_output (fs st') = all_output (fs st)
  ∨ (∃ inst,
        all_output (fs st') = all_output (fs st) ++ [inst]
        ∧ instance_id inst = Some (make_id (repo_name r) (number pull))
        ∧ (make_id (full_name pull) (number pull) ∉ seen_prs)
        ∧ make_id (full_name pull) (number pull) ∉ successful_instances).
Proof.
  unfold Pipeline.process_single_pr.
  destruct (bool_decide (_ ∈ seen_prs)) eqn:E1; [by left|].
  destruct (bool_decide (_ ∈ successful_instances)) eqn:E2; [by left|].
  apply bool_decide_eq_false in E1, E2. simpl.
  destruct (negb (is_valid_pull pull)); [by left|].
  destruct (create_instance w r pull st) as [st1 [inst|e]] eqn:Ec;
    apply create_instance_spec in Ec as (Ha & Ho & _ & _ & Hi).
  - destruct (Hi inst eq_refl) as (Hid & _).
    destruct (strptime (created_at inst)) as [t|]; [|by left].
    destruct (t >=? cutoff_date); [by left|].
    destruct (is_valid_instance inst); [|by left].
    right. exists inst.
    destruct (has_test_patch inst); simpl; rewrite Ha; done.
  - by left.
Qed.

Lemma replay_seen (lines : list Instance) (seen seen' : gset string) :
  replay strptime lines seen = Ret seen' →
  ∀ id, id ∈ seen' ↔ id ∈ (line_id <$> lines) ∨ id ∈ seen.
Proof.
  revert seen. induction lines as [|pr lines IH]; intros seen; simpl.
  - intros [= <-] id. rewrite elem_of_nil. naive_solver.
  - destruct (strptime (created_at pr)); [|discriminate].
    intros H id. rewrite (IH _ H id). rewrite elem_of_cons. set_solver.
Qed.

Lemma group_insert_ok (P : Pull → Prop) (pull : Pull)
  (groups : list (string * list Pull)) :
  P pull →
  (∀ k ps p, (k, ps) ∈ groups → p ∈ ps → full_name p = k ∧ P p) →
  ∀ k ps p, (k, ps) ∈ group_insert pull groups → p ∈ ps → full_name p = k ∧ P p.
Proof.
  intros HP. induction groups as [|[k0 ps0] groups IH]; intros Hg k ps p; simpl.
  - intros Hk Hp. apply list_elem_of_singleton in Hk. injection Hk as -> ->.
    apply list_elem_of_singleton in Hp as ->. done.
  - destruct (String.eqb_spec k0 (full_name pull)) as [E | NE].
    + intros [[= -> ->] | Hin]%elem_of_cons.
      * intros [Hp | ->%list_elem_of_singleton]%elem_of_app; [|done].
        apply (Hg k0 ps0); [left | done].
      * intros Hp. apply (Hg k ps); [by right | done].
    + intros [[= -> ->] | Hin]%elem_of_cons Hp.
      * apply (Hg k0 ps0); [left | done].
      * apply (IH (λ k ps p H, Hg k ps p (list_elem_of_further _ _ _ H)) k ps p);
          done.
Qed.

Lemma pulls_by_repo_ok (pulls : list Pull) :
  ∀ k ps p, (k, ps) ∈ pulls_by_repo pulls → p ∈ ps → full_name p = k ∧ p ∈ pulls.
Proof.
  unfold pulls_by_repo.
  assert (G : ∀ (l : list Pull) (groups : list (string * list Pull)),
    (∀ p, p ∈ l → p ∈ pulls) →
    (∀ k ps p, (k, ps) ∈ groups → p ∈ ps → full_name p = k ∧ p ∈ pulls) →
    ∀ k ps p,
      (k, ps) ∈ fold_left (λ groups pull, group_insert pull groups) l groups →
      p ∈ ps → full_name p = k ∧ p ∈ pulls).
  { induction l as [|q l IH]; intros groups Hl Hg; [exact Hg|]. simpl.
    apply IH; [intros p Hp; apply Hl; by right|].
    apply group_insert_ok; [apply Hl; left | exact Hg]. }
  apply G; [done|]. intros k ps p H. by apply elem_of_nil in H.
Qed.

Lemma make_tasks_ok (language_ : string) (groups : list (string * list Pull))
  (tasks : list (Repo * Pull)) :
  make_tasks language_ groups = Ret tasks →
  ∀ r p, (r, p) ∈ tasks →
    ∃ k ps, (k, ps) ∈ groups ∧ p ∈ ps ∧ make_repo language_ k = Ret r.
Proof.
  revert tasks. induction groups as [|[k ps] groups IH]; intros tasks; simpl.
  - intros [= <-] r p H. by apply elem_of_nil in H.
  - destruct (make_repo language_ k) as [r0|] eqn:Er; [|discriminate]. simpl.
    destruct (make_tasks language_ groups) as [tasks0|]; [|discriminate]. simpl.
    intros [= <-] r p [H | H]%elem_of_app.
    + apply list_elem_of_fmap in H as (q & [= -> ->] & Hq).
      exists k, ps. split; [left|done].
    + destruct (IH tasks0 eq_refl r p H) as (k' & ps' & ? & ? & ?).
      exists k', ps'. split; [by right|done].
Qed.

(** What a run appends to the superset file *)
Lemma run_tasks_spec (w : world) (cutoff_date : Z)
  (seen_prs successful_instances : gset string) (tasks : list (Repo * Pull))
  (st : run) :
  ∃ emitted,
    all_output (fs (run_tasks w cutoff_date seen_prs successful_instances tasks st))
    = all_output (fs st) ++ emitted
    ∧ ∀ inst, inst ∈ emitted →
        ∃ r p, (r, p) ∈ tasks
          ∧ instance_id inst = Some (make_id (repo_name r) (number p))
          ∧ (make_id (full_name p) (number p) ∉ seen_prs)
          ∧ make_id (full_name p) (number p) ∉ successful_instances.
Proof.
  revert st. induction tasks as [|[r p] tasks IH]; intros st.
  - exists []. split; [by rewrite app_nil_r|]. intros inst H.
    by apply elem_of_nil in H.
  - unfold Pipeline.run_tasks in *. simpl fold_left.
    set (st1 := process_single_pr w cutoff_date seen_prs successful_instances r p st).
    destruct (IH st1) as (e & He & Hall).
    pose proof (process_single_pr_spec w cutoff_date seen_prs
                  successful_instances r p st) as Hp.
    fold st1 in Hp. simpl in Hp.
    destruct Hp as [Hsame | (inst0 & Happ & Hid & Hs1 & Hs2)].
    + exists e. rewrite He, Hsame. split; [done|].
      intros inst Hin. destruct (Hall inst Hin) as (r' & p' & ? & ?).
      exists r', p'. split; [by right|done].
    + exists (inst0 :: e). rewrite He, Happ, <- app_assoc. split; [done|].
      intros inst [-> | Hin]%elem_of_cons.
      * exists r, p. split; [left|done].
      * destruct (Hall inst Hin) as (r' & p' & ? & ?).
        exists r', p'. split; [by right|done].
Qed.

(** What one run of [main] appends to the superset file *)
Lemma main_emits (w : world) (language_ cutoff_date : string)
  (pulls : list Pull) (f : files) (r : run) :
  main w language_ cutoff_date pulls f = Ret r →
  ∃ emitted,
    all_output (fs r) = all_output f ++ emitted
    ∧ ∀ inst, inst ∈ emitted →
        ∃ pull, pull ∈ pulls
          ∧ instance_id inst = Some (make_id (full_name pull) (number pull))
          ∧ (make_id (full_name pull) (number pull) ∉ (line_id <$> all_output f))
          ∧ make_id (full_name pull) (number pull)
            ∉ (PyStr.strip <$> successful f).
Proof.
  unfold Pipeline.main.
  destruct (strptime cutoff_date) as [cutoff|]; [|discriminate].
  destruct (replay strptime (all_output f) ∅) as [seen|] eqn:Er; [|discriminate].
  simpl.
  destruct (make_tasks language_ (pulls_by_repo pulls)) as [tasks|] eqn:Et;
    [|discriminate]. simpl.
  intros [= <-].
  destruct (run_tasks_spec w cutoff seen
              (list_to_set (PyStr.strip <$> successful f)) tasks (mkRun f []))
    as (e & He & Hall).
  exists e. split; [exact He|]. intros inst Hin.
  destruct (Hall inst Hin) as (r & p & Htask & Hid & Hs1 & Hs2).
  destruct (make_tasks_ok _ _ _ Et r p Htask) as (k & ps & Hg & Hp & Hr).
  destruct (pulls_by_repo_ok pulls k ps p Hg Hp) as [Hk Hpulls].
  apply make_repo_name in Hr. exists p. split; [done|].
  split; [by rewrite Hid, Hr, Hk|].
  split.
  - intros Hin'. apply Hs1. apply (replay_seen _ _ _ Er). by left.
  - intros Hin'. apply Hs2. by apply elem_of_list_to_set.
Qed.

(** Grouping loses and repeats no pull. *)
Lemma group_insert_perm (pull : Pull) (groups : list (string * list Pull)) :
  concat (snd <$> group_insert pull groups) ≡ₚ pull :: concat (snd <$> groups).
Proof.
  induction groups as [|[k ps] groups IH]; [done|].
  cbn [group_insert]. destruct (String.eqb k (full_name pull)).
  - cbn. rewrite <- app_assoc. cbn. symmetry. apply Permutation_middle.
  - cbn. rewrite IH. symmetry. apply Permutation_middle.
Qed.

Lemma pulls_by_repo_perm (pulls : list Pull) :
  concat (snd <$> pulls_by_repo pulls) ≡ₚ pulls.
Proof.
  unfold pulls_by_repo. induction pulls as [|p pulls IH] using rev_ind; [done|].
  rewrite fold_left_app. cbn [fold_left]. rewrite group_insert_perm, IH.
  apply Permutation_cons_append.
Qed.

Lemma make_tasks_snd (language_ : string) (groups : list (string * list Pull))
  (tasks : list (Repo * Pull)) :
  make_tasks language_ groups = Ret tasks →
  snd <$> tasks = concat (snd <$> groups).
Proof.
  revert tasks. induction groups as [|[k ps] groups IH]; intros tasks.
  - by intros [= <-].
  - cbn [make_tasks]. destruct (make_repo language_ k) as [r|]; [|done]. cbn.
    destruct (make_tasks language_ groups) as [ts|]; [|done]. cbn.
    intros [= <-]. rewrite fmap_app, (IH ts eq_refl). f_equal.
    rewrite <- list_fmap_compose. clear. induction ps; [done|]. cbn. by f_equal.
Qed.

(** One unit appends to the superset file the instance the gates let
    through, if any. *)
Lemma process_single_pr_emits (w : world) (language_ : string) (cutoff : Z)
  (seen_prs successful_instances : gset string) (f : files) (r : Repo)
  (pull : Pull) (st : run) :
  make_repo language_ (full_name pull) = Ret r →
  (∀ id, id ∈ seen_prs ↔ id ∈ (line_id <$> all_output f)) →
  (∀ id, id ∈ successful_instances ↔ id ∈ (PyStr.strip <$> successful f)) →
  all_output (fs (process_single_pr w cutoff seen_prs successful_instances
                    r pull st))
  = all_output (fs st)
    ++ option_list (admitted strptime lexer_name w language_ cutoff f pull).
Proof.
  intros Hr Hseen Hsucc.
  pose proof (make_repo_name _ _ _ Hr) as Hname.
  unfold Pipeline.process_single_pr, admitted, candidate_id.
  rewrite (bool_decide_ext _ _ (Hseen _)), (bool_decide_ext _ _ (Hsucc _)).
  destruct (_ || _); [by rewrite app_nil_r|].
  destruct (negb _); [by rewrite app_nil_r|].
  rewrite Hr. unfold Pipeline.create_instance.
  destruct (fetch_diff w pull) as [text|e]; [|by rewrite app_nil_r].
  destruct (Classifier.extract_patches lexer_name Classifier.Async
              (language r) (name r) text) as [[patch_ test_patch_] ok].
  destruct (statement w pull) as [[problem hints]|e];
    [|destruct ok; by rewrite app_nil_r].
  destruct (resolved_issues pull) as [issues|];
    [|destruct ok; by rewrite app_nil_r].
  cbn [created_at].
  destruct (strptime (pull_created_at pull)) as [t|];
    [|destruct ok; by rewrite app_nil_r].
  rewrite Z.geb_leb, Z.ltb_antisym.
  destruct (cutoff <=? t); cbn [negb andb];
    [destruct ok; by rewrite app_nil_r|].
  unfold is_valid_instance, has_test_patch. cbn [patch problem_statement test_patch].
  rewrite Hname.
  destruct patch_ as [|c1 p1]; cbn [PyStr.nonempty andb];
    [destruct ok; by rewrite app_nil_r|].
  destruct problem as [|c2 p2]; cbn [PyStr.nonempty andb];
    [destruct ok; by rewrite app_nil_r|].
  by destruct ok, (negb _).
Qed.

(** A run appends the admitted instances of its tasks, task by task. *)
Lemma run_tasks_emits (w : world) (language_ : string) (cutoff : Z)
  (seen_prs successful_instances : gset string) (f : files)
  (tasks : list (Repo * Pull)) (st : run) :
  (∀ r p, (r, p) ∈ tasks → make_repo language_ (full_name p) = Ret r) →
  (∀ id, id ∈ seen_prs ↔ id ∈ (line_id <$> all_output f)) →
  (∀ id, id ∈ successful_instances ↔ id ∈ (PyStr.strip <$> successful f)) →
  all_output (fs (run_tasks w cutoff seen_prs successful_instances tasks st))
  = all_output (fs st)
    ++ omap (admitted strptime lexer_name w language_ cutoff f) (snd <$> tasks).
Proof.
  intros Ht Hseen Hsucc. revert st Ht.
  induction tasks as [|[r p] tasks IH]; intros st Ht.
  - by rewrite app_nil_r.
  - unfold Pipeline.run_tasks in *. cbn [fold_left fst snd fmap list_fmap omap list_omap].
    rewrite IH by (intros r' p' H; apply Ht; by right).
    rewrite (process_single_pr_emits w language_ cutoff _ _ f r p st)
      by first [apply Ht; left | done].
    rewrite <- app_assoc. f_equal.
    by destruct (admitted strptime lexer_name w language_ cutoff f p).
Qed.

(** What one run of [main] appends to the superset file: the admitted
    instances of the work list *)
Lemma main_emits_admitted (w : world) (language_ cutoff_date : string)
  (pulls : list Pull) (f : files) (r : run) :
  main w language_ cutoff_date pulls f = Ret r →
  ∃ emitted cutoff,
    strptime cutoff_date = Some cutoff
    ∧ all_output (fs r) = all_output f ++ emitted
    ∧ emitted ≡ₚ omap (admitted strptime lexer_name w language_ cutoff f) pulls.
Proof.
  unfold Pipeline.main.
  destruct (strptime cutoff_date) as [cutoff|]; [|discriminate].
  destruct (replay strptime (all_output f) ∅) as [seen|] eqn:Er; [|discriminate].
  simpl.
  destruct (make_tasks language_ (pulls_by_repo pulls)) as [tasks|] eqn:Et;
    [|discriminate]. simpl.
  intros [= <-].
  exists (omap (admitted strptime lexer_name w language_ cutoff f) (snd <$> tasks)),
    cutoff.
  split; [done|]. split.
  - apply (run_tasks_emits w language_ cutoff seen _ f tasks (mkRun f [])).
    + intros r p Hin.
      destruct (make_tasks_ok _ _ _ Et r p Hin) as (k & ps & Hk & Hp & Hr).
      by destruct (pulls_by_repo_ok pulls k ps p Hk Hp) as [-> _].
    + intros id. rewrite (replay_seen _ _ _ Er id). set_solver.
    + intros id. by rewrite elem_of_list_to_set.
  - by rewrite (make_tasks_snd _ _ _ Et), pulls_by_repo_perm.
Qed.

Lemma admitted_id (w : world) (language_ : string) (cutoff : Z) (f : files)
  (pull : Pull) (inst : Instance) :
  admitted strptime lexer_name w language_ cutoff f pull = Some inst →
  line_id inst = candidate_id pull
  ∧ (candidate_id pull ∉ (line_id <$> all_output f))
  ∧ candidate_id pull ∉ (PyStr.strip <$> successful f).
Proof.
  unfold admitted.
  destruct (bool_decide (_ ∈ (line_id <$> _))) eqn:E1; [done|].
  destruct (bool_decide (_ ∈ (PyStr.strip <$> _))) eqn:E2; [done|].
  apply bool_decide_eq_false in E1, E2. cbn [orb].
  intros H. split; [|done].
  repeat case_match; try done. by injection H as <-.
Qed.

(** The ids of the admitted instances repeat only where the ids of the
    candidates do. *)
Lemma admitted_ids_NoDup (w : world) (language_ : string) (cutoff : Z)
  (f : files) (pulls : list Pull) :
  NoDup (candidate_id <$> pulls) →
  NoDup (line_id
         <$> omap (admitted strptime lexer_name w language_ cutoff f) pulls).
Proof.
  induction pulls as [|p pulls IH]; [constructor|].
  rewrite fmap_cons, NoDup_cons. intros [Hp Hnd]. cbn [omap list_omap].
  destruct (admitted strptime lexer_name w language_ cutoff f p) as [inst|] eqn:E;
    [|by apply IH].
  rewrite fmap_cons. apply NoDup_cons. split; [|by apply IH].
  apply admitted_id in E as [-> _]. intros Hin. apply Hp.
  apply list_elem_of_fmap in Hin as (i & -> & Hi).
  apply list_elem_of_omap in Hi as (q & Hq & Eq).
  apply admitted_id in Eq as [-> _]. by apply list_elem_of_fmap_2.
Qed.

(** C1, as amended. Idempotent resume: when the harvest runs twice on the
    same work list and output paths and both runs return, each run appends
    to the superset file, up to the order of the lines, exactly one instance
    for every candidate of the work list that the gates of the pipeline let
    through in that run (the id in neither ledger as the run finds them, the
    pull merged with a linked issue, diff fetch and statement extraction
    returning, creation before the cutoff, patch and problem statement
    non-empty). Every instance the second run appends belongs to a candidate
    whose id the first run neither emitted nor recorded as a successful diff
    fetch, so no instance id is emitted by both runs; and when no two
    candidates of the work list share an id, no id occurs twice among the
    lines the two runs append, nor in the whole superset file after the
    second run if none did before the first. *)
Theorem idempotent_resume (w1 w2 : world) (language_ cutoff_date : string)
  (pulls : list Pull) (f0 : files) (r1 r2 : run) :
  main w1 language_ cutoff_date pulls f0 = Ret r1 →
  main w2 language_ cutoff_date pulls (fs r1) = Ret r2 →
  ∃ e1 e2 cutoff,
    strptime cutoff_date = Some cutoff
    ∧ all_output (fs r1) = all_output f0 ++ e1
    ∧ all_output (fs r2) = all_output (fs r1) ++ e2
    ∧ e1 ≡ₚ omap (admitted strptime lexer_name w1 language_ cutoff f0) pulls
    ∧ e2 ≡ₚ omap (admitted strptime lexer_name w2 language_ cutoff (fs r1)) pulls
    ∧ (∀ inst, inst ∈ e2 →
         (∃ pull, pull ∈ pulls ∧ line_id inst = candidate_id pull)
         ∧ (line_id inst ∉ (line_id <$> e1))
         ∧ (line_id inst ∉ (line_id <$> all_output f0))
         ∧ line_id inst ∉ (PyStr.strip <$> successful (fs r1)))
    ∧ (NoDup (candidate_id <$> pulls) →
       NoDup (line_id <$> (e1 ++ e2))
       ∧ (NoDup (line_id <$> all_output f0) →
          NoDup (line_id <$> all_output (fs r2)))).
Proof.
  intros H1 H2.
  destruct (main_emits_admitted _ _ _ _ _ _ H1) as (e1 & cutoff & Hc & He1 & Hp1).
  destruct (main_emits_admitted _ _ _ _ _ _ H2) as (e2 & cutoff' & Hc' & He2 & Hp2).
  assert (cutoff' = cutoff) as -> by congruence.
  exists e1, e2, cutoff.
  assert (Hfresh : ∀ inst, inst ∈ e2 →
            (∃ pull, pull ∈ pulls ∧ line_id inst = candidate_id pull)
            ∧ (line_id inst ∉ (line_id <$> e1))
            ∧ (line_id inst ∉ (line_id <$> all_output f0))
            ∧ line_id inst ∉ (PyStr.strip <$> successful (fs r1))).
  { intros inst Hin. rewrite Hp2 in Hin.
    apply list_elem_of_omap in Hin as (p & Hp & E).
    apply admitted_id in E as (-> & Hs1 & Hs2).
    rewrite He1, fmap_app, elem_of_app in Hs1.
    split; [by exists p|]. split; [tauto|]. split; [tauto|done]. }
  split_and!; try done.
  intros Hnd.
  assert (Hboth : NoDup (line_id <$> (e1 ++ e2))).
  { rewrite fmap_app. apply NoDup_app. split_and!.
    - rewrite Hp1. by apply admitted_ids_NoDup.
    - intros id Hin1 Hin2.
      apply list_elem_of_fmap in Hin2 as (inst & -> & Hin2).
      by destruct (Hfresh inst Hin2) as (_ & ? & _).
    - rewrite Hp2. by apply admitted_ids_NoDup. }
  split; [exact Hboth|]. intros Hnd0.
  rewrite He2, He1, <- app_assoc, fmap_app. apply NoDup_app.
  split_and!; [done| |done].
  intros id Hin0 Hin. apply list_elem_of_fmap in Hin as (inst & -> & Hin).
  apply elem_of_app in Hin as [Hin | Hin].
  - rewrite Hp1 in Hin. apply list_elem_of_omap in Hin as (p & _ & E).
    apply admitted_id in E as (Hid & Hs1 & _). by rewrite Hid in Hin0.
  - by destruct (Hfresh inst Hin) as (_ & _ & ? & _).
Qed.

Lemma extract_patches_empty (v : Classifier.variant) (language_ name_ : string) :
  Classifier.extract_patches lexer_name v language_ name_ "" = ("", "", false).
Proof. reflexivity. Qed.

(** A unit whose diff fetch returns the empty text writes no file. *)
Lemma process_empty_diff (w : world) (cutoff_date : Z)
  (seen_prs successful_instances : gset string) (r : Repo) (pull : Pull)
  (st : run) :
  fetch_diff w pull = Ret "" →
  make_id (full_name pull) (number pull) ∉ seen_prs →
  make_id (full_name pull) (number pull) ∉ successful_instances →
  is_valid_pull pull = true →
  process_single_pr w cutoff_date seen_prs successful_instances r pull st
  = mkRun (fs st) (diff_fetches st ++ [diff_url pull]).
Proof.
  intros Hf Hs1 Hs2 Hv. unfold Pipeline.process_single_pr.
  rewrite (bool_decide_eq_false_2 _ Hs1), (bool_decide_eq_false_2 _ Hs2), Hv.
  simpl. unfold Pipeline.create_instance. rewrite Hf, extract_patches_empty.
  destruct (statement w pull) as [[problem hints]|e]; [|done].
  destruct (resolved_issues pull); [|done]. simpl.
  destruct (strptime _); [|done]. by destruct (_ >=? _).
Qed.

(** C10. Empty diff conflated with fetch failure: [extract_patches] reports
    failure exactly on the empty diff text, in both files; a unit whose diff
    fetch yields the empty text appends nothing to the superset file, the
    filtered file or the ledger of successful fetches; a run over such a
    candidate leaves the three files as it found them while fetching the
    diff, so every later run fetches it again; and both diff fetchers,
    [fetch_with_retries] and [get_with_retries], turn a 404 reply into the
    empty text. *)
Theorem empty_diff_is_failure :
  (∀ (v : Classifier.variant) (language_ name_ patch_ : string),
      (Classifier.extract_patches lexer_name v language_ name_ patch_).2 = false
      ↔ patch_ = "")
  ∧ (∀ (w : world) (cutoff_date : Z) (seen_prs successful_instances : gset string)
       (r : Repo) (pull : Pull) (st : run),
        fetch_diff w pull = Ret "" →
        make_id (full_name pull) (number pull) ∉ seen_prs →
        make_id (full_name pull) (number pull) ∉ successful_instances →
        is_valid_pull pull = true →
        let st' := process_single_pr w cutoff_date seen_prs
                     successful_instances r pull st in
        fs st' = fs st ∧ diff_fetches st' = diff_fetches st ++ [diff_url pull])
  ∧ (∀ (w : world) (language_ cutoff_date : string) (pull : Pull) (f : files)
       (r : run),
        main w language_ cutoff_date [pull] f = Ret r →
        fetch_diff w pull = Ret "" →
        is_valid_pull pull = true →
        make_id (full_name pull) (number pull) ∉ (line_id <$> all_output f) →
        make_id (full_name pull) (number pull) ∉ (PyStr.strip <$> successful f) →
        fs r = f ∧ diff_fetches r = [diff_url pull])
  ∧ (∀ (py_int : string → option Z) (md5_int : string → Z) (fw : Fetch.world)
       (rot : Rotator.ProxyRotator) (resp : Fetch.response),
        Fetch.env_reply (fw 0%nat) = Fetch.Responds resp →
        Fetch.status resp = 404 →
        ∃ st, Fetch.fetch_with_retries py_int md5_int 6 5 fw rot
              = Some (st, Ret "")
          ∧ ∀ token token_valid now rotator,
              (Fetch.get_with_retries md5_int token token_valid now rotator
                 (Fetch.Responds resp)).2 = "").
Proof.
  split; [|split; [|split]].
  4: { intros py_int md5_int fw rot resp Hw Hs.
       destruct (async_not_found py_int md5_int fw rot resp Hw Hs) as (st & H & _).
       exists st. split; [done|]. intros token token_valid now rotator.
       unfold Fetch.get_with_retries. rewrite Hs.
       by destruct (_ && negb _). }
  - intros v language_ name_ patch_. unfold Classifier.extract_patches.
    destruct (String.eqb_spec patch_ ""); simpl; split; done.
  - intros w cutoff_date seen_prs successful_instances r pull st Hf Hs1 Hs2 Hv.
    simpl. by rewrite process_empty_diff.
  - intros w language_ cutoff_date pull f r Hm Hf Hv Hs1 Hs2.
    unfold Pipeline.main in Hm.
    destruct (strptime cutoff_date) as [cutoff|]; [|discriminate].
    destruct (replay strptime (all_output f) ∅) as [seen|] eqn:Er; [|discriminate].
    simpl in Hm.
    destruct (make_repo language_ (full_name pull)) as [r0|]; [|discriminate].
    simpl in Hm. injection Hm as <-.
    unfold Pipeline.run_tasks. simpl fold_left.
    rewrite process_empty_diff; [done|done| |  |done].
    + intros Hin. apply (replay_seen _ _ _ Er) in Hin as [Hin | Hin]; [done|].
      by apply elem_of_empty in Hin.
    + intros Hin. by apply elem_of_list_to_set in Hin.
Qed.

Lemma is_valid_instance_iff (inst : Instance) :
  is_valid_instance inst = true ↔ complete inst.
Proof.
  unfold is_valid_instance, complete.
  destruct (patch inst) as [[|c p]|]; destruct (problem_statement inst) as [[|d q]|];
    split; try discriminate; try (intros [(? & [= <-] & ?) (? & [= <-] & ?)]; done);
    try (intros [(? & ? & ?) (? & ? & ?)]; discriminate).
  all: intros _; split; eexists; split; done.
Qed.

Lemma has_test_patch_blank (inst : Instance) :
  has_test_patch inst = false ↔ blank_test inst.
Proof.
  unfold has_test_patch, blank_test. destruct (test_patch inst) as [t|].
  - rewrite negb_false_iff, String.eqb_eq. split; [by intros ? ? [= <-]|auto].
  - split; [intros _ t; discriminate | done].
Qed.

(** C6, as amended. Validity gating of outputs: an instance whose code
    patch or problem statement is empty is written to neither output file;
    an instance with both, created before the cutoff, of a merged pull
    request with a linked issue that no earlier run recorded, and whose test
    patch is blank after trimming, is appended to the superset file and not
    to the filtered file. *)
Theorem validity_gating (w : world) (cutoff_date : Z)
  (seen_prs successful_instances : gset string) (r : Repo) (pull : Pull)
  (st st1 : run) (inst : Instance) :
  create_instance w r pull st = (st1, Ret inst) →
  let st' := process_single_pr w cutoff_date seen_prs successful_instances
               r pull st in
  (¬ complete inst →
   all_output (fs st') = all_output (fs st) ∧ output (fs st') = output (fs st))
  ∧ (complete inst → blank_test inst →
     make_id (full_name pull) (number pull) ∉ seen_prs →
     make_id (full_name pull) (number pull) ∉ successful_instances →
     is_valid_pull pull = true →
     (∃ t, strptime (created_at inst) = Some t ∧ t < cutoff_date) →
     all_output (fs st') = all_output (fs st) ++ [inst]
     ∧ output (fs st') = output (fs st)).
Proof.
  intros Hc. pose proof (create_instance_spec _ _ _ _ _ _ Hc) as (Ha & Ho & _).
  simpl. unfold Pipeline.process_single_pr. split.
  - intros Hn. rewrite <- is_valid_instance_iff in Hn.
    apply not_true_is_false in Hn.
    destruct (_ || _); [done|]. destruct (negb _); [done|].
    rewrite Hc, Hn. destruct (strptime _); [|done]. by destruct (_ >=? _).
  - intros Hv%is_valid_instance_iff Hb%has_test_patch_blank Hs1 Hs2 Hp (t & Ht & Hlt).
    rewrite (bool_decide_eq_false_2 _ Hs1), (bool_decide_eq_false_2 _ Hs2), Hp.
    simpl. rewrite Hc, Ht, Hv, Hb.
    destruct (Z.geb_spec t cutoff_date) as [? | _]; [lia|].
    simpl. by rewrite Ha, Ho.
Qed.

End PipelineProps.

(** ** The properties on the sample inputs *)

(** C8 as stated, for every threshold, fails: [__init__] takes a threshold of
    0 from the environment, and from the rotator it makes the first recorded
    request raises the counter to 1, above the threshold, before
    [get_proxies] rotates. *)
Lemma rotation_monotonicity_counterexample :
  Rotator.init Sample.py_int Sample.zero_threshold_env "o/r"
  = Ret Sample.zero_threshold_rotator
  ∧ ¬ (∀ (r0 : Rotator.ProxyRotator) (nows : list Z),
         Rotator.enabled r0 = true → Rotator.request_count r0 = 0 →
         Rotator.current_session_id r0 = None →
         Rotator.max_requests_per_ip r0 < Z.of_nat (length nows) →
         ∀ (i : nat) (r : Rotator.ProxyRotator),
           (r0 :: Rotator.run_requests Sample.md5_int nows r0) !! i = Some r →
           Rotator.request_count (Rotator.increment_request_count r)
           ≤ Rotator.max_requests_per_ip r0).
Proof.
  split; [by vm_compute|].
  intros H.
  specialize (H Sample.zero_threshold_rotator [0] eq_refl eq_refl eq_refl
                ltac:(simpl; lia) 0%nat Sample.zero_threshold_rotator eq_refl).
  revert H. vm_compute. intros H. by apply H.
Qed.

Lemma rotation_monotonicity_witness :
  let trace := Rotator.run_requests Sample.md5_int [0; 0; 0] Sample.proxy_rotator in
  (∃ (i j : nat) (ri rj : Rotator.ProxyRotator) (si sj : string),
      (i < j)%nat ∧ trace !! i = Some ri ∧ trace !! j = Some rj
      ∧ Rotator.current_session_id ri = Some si
      ∧ Rotator.current_session_id rj = Some sj
      ∧ si ≠ sj)
  ∧ (∀ (i : nat) (r : Rotator.ProxyRotator),
        (Sample.proxy_rotator :: trace) !! i = Some r →
        0 ≤ Rotator.request_count r < 2
        ∧ Rotator.request_count (Rotator.increment_request_count r) ≤ 2).
Proof.
  apply (rotation_monotonicity Sample.md5_int Sample.proxy_rotator [0; 0; 0]);
    [reflexivity | reflexivity | reflexivity | simpl; lia | simpl; lia].
Defined.

Lemma stream_disjointness_witness :
  (∃ chg tst : list string,
      Classifier.extract_patches Classifier.sample_lexer Classifier.Async
        "python" "r" Sample.readme_diff
      = (Classifier.render chg, Classifier.render tst, true)
      ∧ split3 (Classifier.lines_of Sample.readme_diff) chg tst)
  ∧ Classifier.patch_change
      (Classifier.classify Classifier.sample_lexer Classifier.Async "python" "r"
         [Sample.readme_header]) = []
  ∧ Classifier.patch_test
      (Classifier.classify Classifier.sample_lexer Classifier.Async "python" "r"
         [Sample.readme_header]) = [].
Proof.
  destruct (stream_disjointness Classifier.sample_lexer Classifier.Async
              "python" "r" Sample.readme_diff) as [H1 H2].
  split; [exact H1|].
  apply (H2 [] ["+hello"] Sample.readme_header); reflexivity.
Defined.

Lemma idempotent_resume_witness :
  ∃ e1 e2 cutoff,
    Sample.strptime Sample.cutoff = Some cutoff
    ∧ Pipeline.all_output (Pipeline.fs Sample.after_empty_run) = [] ++ e1
    ∧ Pipeline.all_output (Pipeline.fs Sample.after_run1)
      = Pipeline.all_output (Pipeline.fs Sample.after_empty_run) ++ e2
    ∧ e1 ≡ₚ omap (admitted Sample.strptime Classifier.sample_lexer
                    Sample.world_empty_diff "python" cutoff Sample.no_files)
              [Sample.pull5]
    ∧ e2 ≡ₚ omap (admitted Sample.strptime Classifier.sample_lexer
                    Sample.world_src_only "python" cutoff
                    (Pipeline.fs Sample.after_empty_run))
              [Sample.pull5]
    ∧ (∀ inst, inst ∈ e2 →
         (∃ pull, pull ∈ [Sample.pull5]
            ∧ Pipeline.line_id inst = candidate_id pull)
         ∧ (Pipeline.line_id inst ∉ (Pipeline.line_id <$> e1))
         ∧ (Pipeline.line_id inst ∉ (Pipeline.line_id <$> []))
         ∧ Pipeline.line_id inst
           ∉ (PyStr.strip
              <$> Pipeline.successful (Pipeline.fs Sample.after_empty_run)))
    ∧ (NoDup (candidate_id <$> [Sample.pull5]) →
       NoDup (Pipeline.line_id <$> (e1 ++ e2))
       ∧ (NoDup (Pipeline.line_id <$> []) →
          NoDup (Pipeline.line_id
                 <$> Pipeline.all_output (Pipeline.fs Sample.after_run1)))).
Proof.
  apply (idempotent_resume Sample.strptime Classifier.sample_lexer
           Sample.world_empty_diff Sample.world_src_only "python" Sample.cutoff
           [Sample.pull5] Sample.no_files Sample.after_empty_run
           Sample.after_run1);
    vm_compute; reflexivity.
Defined.

(** The run of the witness, spelled out: the first run meets an empty diff
    and emits nothing, and the second run, which meets the diff, emits the
    one instance the gates let through. *)
Example resume_emits_admitted :
  Pipeline.main Sample.strptime Classifier.sample_lexer Sample.world_empty_diff
    "python" Sample.cutoff [Sample.pull5] Sample.no_files
  = Ret Sample.after_empty_run
  ∧ Pipeline.main Sample.strptime Classifier.sample_lexer Sample.world_src_only
      "python" Sample.cutoff [Sample.pull5]
      (Pipeline.fs Sample.after_empty_run)
    = Ret Sample.after_run1
  ∧ omap (admitted Sample.strptime Classifier.sample_lexer
            Sample.world_src_only "python" Sample.cutoff_instant
            (Pipeline.fs Sample.after_empty_run)) [Sample.pull5]
    = [Sample.instance5].
Proof. split_and!; vm_compute; reflexivity. Qed.

(** Two candidates with one id in a single work list are both emitted: the
    ledgers a run consults are those it found at its start. *)
Example repeated_candidate_emitted_twice :
  ∃ r, Pipeline.main Sample.strptime Classifier.sample_lexer
         Sample.world_src_only "python" Sample.cutoff
         [Sample.pull5; Sample.pull5] Sample.no_files = Ret r
       ∧ Pipeline.all_output (Pipeline.fs r)
         = [Sample.instance5; Sample.instance5].
Proof. eexists. split; vm_compute; reflexivity. Qed.

(** C1 as stated fails: a candidate whose diff fetch comes back empty is
    outside the first run's successes, and the second run, which fetches it
    again with the same outcome, emits nothing for it. *)
Lemma idempotent_resume_counterexample :
  let work := [Sample.pull5] in
  let r1 := Sample.after_empty_run in
  let r2 := Sample.after_empty_run in
  Pipeline.main Sample.strptime Classifier.sample_lexer Sample.world_empty_diff
    "python" Sample.cutoff work Sample.no_files = Ret r1
  ∧ Pipeline.main Sample.strptime Classifier.sample_lexer Sample.world_empty_diff
      "python" Sample.cutoff work (Pipeline.fs r1) = Ret r2
  ∧ ∃ e2 : list Pipeline.Instance,
      Pipeline.all_output (Pipeline.fs r2)
      = Pipeline.all_output (Pipeline.fs r1) ++ e2
      ∧ ¬ (∀ id : string,
             id ∈ (Pipeline.line_id <$> e2)
             ↔ (id ∈ ((λ p, Pipeline.make_id (Pipeline.full_name p)
                              (Pipeline.number p)) <$> work))
               ∧ (id ∉ (Pipeline.line_id <$> Pipeline.all_output (Pipeline.fs r1)))
               ∧ (id ∉ (PyStr.strip <$> Pipeline.successful (Pipeline.fs r1)))).
Proof.
  split; [vm_compute; reflexivity|]. split; [vm_compute; reflexivity|].
  exists []. split; [reflexivity|].
  intros H. specialize (H (Pipeline.make_id "o/r" 5)).
  destruct H as [_ H]. simpl in H.
  assert (Hin : Pipeline.make_id "o/r" 5 ∈ @nil string).
  { apply H. split; [left|]. split; apply not_elem_of_nil. }
  by apply elem_of_nil in Hin.
Qed.

Lemma validity_gating_witness :
  (let st' := Pipeline.process_single_pr Sample.strptime Classifier.sample_lexer
                Sample.world_src_only Sample.cutoff_instant ∅ ∅ Sample.repo_o_r
                Sample.pull5 (Pipeline.mkRun Sample.no_files []) in
   Pipeline.all_output (Pipeline.fs st') = [] ++ [Sample.instance5]
   ∧ Pipeline.output (Pipeline.fs st') = []).
Proof.
  apply (validity_gating Sample.strptime Classifier.sample_lexer
           Sample.world_src_only Sample.cutoff_instant ∅ ∅ Sample.repo_o_r
           Sample.pull5 (Pipeline.mkRun Sample.no_files [])
           (Pipeline.mkRun (Pipeline.mkFiles [] [] ["o__r-5"])
              ["https://github.com/o/r/pull/5.diff"])
           Sample.instance5).
  - vm_compute. reflexivity.
  - split; eexists; (split; [reflexivity|]); vm_compute; discriminate.
  - intros t [= <-]. reflexivity.
  - apply not_elem_of_empty.
  - apply not_elem_of_empty.
  - reflexivity.
  - exists 20240101000000. split; [vm_compute; reflexivity | reflexivity].
Defined.

(** C6 as stated fails: an instance with a code patch, a problem statement
    and a blank test patch that is created at or after the cutoff is not
    written to the superset file. *)
Lemma validity_gating_counterexample :
  ∃ (st1 : Pipeline.run) (inst : Pipeline.Instance),
    Pipeline.create_instance Classifier.sample_lexer Sample.world_src_only
      Sample.repo_o_r Sample.late_pull (Pipeline.mkRun Sample.no_files [])
    = (st1, Ret inst)
    ∧ complete inst ∧ blank_test inst
    ∧ Pipeline.is_valid_pull Sample.late_pull = true
    ∧ Pipeline.all_output
        (Pipeline.fs
           (Pipeline.process_single_pr Sample.strptime Classifier.sample_lexer
              Sample.world_src_only Sample.cutoff_instant ∅ ∅ Sample.repo_o_r
              Sample.late_pull (Pipeline.mkRun Sample.no_files [])))
      = [].
Proof.
  eexists _, _. split; [vm_compute; reflexivity|].
  split; [split; eexists; (split; [reflexivity|]); vm_compute; discriminate|].
  split; [intros t [= <-]; reflexivity|].
  split; [reflexivity|]. vm_compute. reflexivity.
Qed.

Lemma empty_diff_is_failure_witness :
  Pipeline.fs Sample.after_empty_run = Sample.no_files
  ∧ Pipeline.diff_fetches Sample.after_empty_run
    = [Pipeline.diff_url Sample.pull5].
Proof.
  destruct (empty_diff_is_failure Sample.strptime Classifier.sample_lexer)
    as (_ & _ & H & _).
  apply (H Sample.world_empty_diff "python" Sample.cutoff Sample.pull5
           Sample.no_files Sample.after_empty_run).
  - vm_compute. reflexivity.
  - reflexivity.
  - reflexivity.
  - apply not_elem_of_nil.
  - apply not_elem_of_nil.
Defined.

(** * Further properties *)

(** ** Lines and text *)

Lemma split_on_single (sep : ascii → bool) (s : string) :
  has_char sep s = false → PyStr.split_on sep s = [s].
Proof.
  induction s as [|c s IH]; [done|]. simpl.
  intros [Hc Hs]%orb_false_elim. rewrite Hc, (IH Hs). done.
Qed.

Lemma split_on_fields (sep : ascii → bool) (s : string) :
  Forall (λ f, has_char sep f = false) (PyStr.split_on sep s).
Proof.
  induction s as [|c s IH]; simpl; [by repeat constructor|].
  destruct (sep c) eqn:E; [by constructor|].
  destruct (PyStr.split_on sep s) as [|h t].
  - repeat constructor. simpl. by rewrite E.
  - inversion IH; subst. constructor; [simpl; by rewrite E|done].
Qed.

(** Splitting a joined list of separator-free fields gives the list back. *)
Lemma split_join (c : ascii) (l : list string) :
  l ≠ [] → Forall (λ f, has_char (PyStr.is_char c) f = false) l →
  PyStr.split c (PyStr.join (String c "") l) = l.
Proof.
  unfold PyStr.split, PyStr.join. intros NE H.
  induction H as [|x l Hx Hl IH]; [done|].
  destruct l as [|y l].
  - simpl. by apply split_on_single.
  - rewrite concat_cons_nonempty by done. rewrite append_cons, append_nil_l.
    rewrite split_on_app_sep by (unfold PyStr.is_char; apply Ascii.eqb_refl).
    rewrite IH by done. by rewrite split_on_single.
Qed.

Lemma rev_append_char (s : string) (c : ascii) :
  String.rev (s +:+ String c "") = String c (String.rev s).
Proof. unfold String.rev. by rewrite rev_app_app. Qed.

Lemma chomp_newline (s : string) :
  Classifier.chomp (s +:+ String Classifier.nl "") = s.
Proof.
  unfold Classifier.chomp. rewrite endswith_append, rev_append_char.
  apply rev_involutive.
Qed.

Lemma lines_of_render (l : list string) :
  l ≠ [] → Forall (λ f, has_char (PyStr.is_char Classifier.nl) f = false) l →
  Classifier.lines_of (Classifier.render l) = l.
Proof.
  intros NE H. unfold Classifier.lines_of, Classifier.render.
  destruct l as [|x l]; [done|]. rewrite chomp_newline. by apply split_join.
Qed.

Lemma render_nonempty (l : list string) : l ≠ [] → Classifier.render l ≠ "".
Proof.
  destruct l as [|x l]; [done|]. intros _. unfold Classifier.render.
  generalize (PyStr.join (String Classifier.nl "") (x :: l)). intros j.
  destruct j; discriminate.
Qed.

Section ClassifierMore.

Import Classifier.

Variable lexer_name : string -> option string.
Variable v : variant.
Variables language name : string.

Abbreviation step := (Classifier.step lexer_name v language name).
Abbreviation classify := (Classifier.classify lexer_name v language name).
Abbreviation header_flag := (Classifier.header_flag lexer_name v language name).
Abbreviation extract_patches :=
  (Classifier.extract_patches lexer_name v language name).
Abbreviation stream_ok := (stream_ok lexer_name v language name).

Lemma stream_ok_snoc (f : flag) (l : list string) (x : string) :
  stream_ok f l → is_meta x = false →
  (is_header x = true → header_flag x = Some f) →
  (l = [] → is_header x = true) →
  stream_ok f (l ++ [x]).
Proof.
  intros [Hall Hhead] Hm Hf Hnil. split.
  - apply Forall_app. split; [done|]. by repeat constructor.
  - destruct l as [|y l]; simpl; [by apply Hnil|done].
Qed.

(** What [classify] keeps true of its state *)
Lemma classify_streams (lines : list string) :
  stream_ok Diff (patch_change (classify lines))
  ∧ stream_ok Test (patch_test (classify lines))
  ∧ (cur (classify lines) = Some Diff → patch_change (classify lines) ≠ [])
  ∧ (cur (classify lines) = Some Test → patch_test (classify lines) ≠ []).
Proof.
  induction lines as [|x lines IH] using rev_ind.
  - repeat split; try done; constructor.
  - rewrite classify_snoc. destruct IH as (Hc & Ht & Hcd & Htd).
    unfold Classifier.step. destruct (PyStr.startswith x "index ") eqn:Em; [done|].
    destruct (PyStr.startswith x "diff --git a/") eqn:Eh.
    + assert (Hx : is_meta x = false) by done.
      destruct (header_flag x) as [[|]|] eqn:Ef; simpl; split_and!; try done;
        try (apply stream_ok_snoc; try done; intros; congruence);
        try (intros _; by destruct (patch_test (classify lines)));
        try (intros _; by destruct (patch_change (classify lines))).
    + assert (Hx : is_meta x = false) by done.
      assert (Hh : is_header x = true → False) by (unfold is_header; congruence).
      destruct (cur (classify lines)) as [[|]|] eqn:Ec; simpl; split_and!;
        try done;
        try (apply stream_ok_snoc; try done; intros E; exfalso;
             first [by apply Hh | by apply Htd | by apply Hcd]);
        try (intros _; by destruct (patch_test (classify lines)));
        try (intros _; by destruct (patch_change (classify lines))).
Qed.

(** Classifying the lines of one stream again *)
Lemma classify_stream (f : flag) (l : list string) (st : state) :
  Forall (λ x, is_meta x = false
               ∧ (is_header x = true → header_flag x = Some f)) l →
  match l with
  | x :: _ => is_header x = true ∨ cur st = Some f
  | [] => True
  end →
  fold_left step l st
  = mkState (match l with [] => cur st | _ => Some f end)
      (patch_change st ++ match f with Diff => l | Test => [] end)
      (patch_test st ++ match f with Test => l | Diff => [] end).
Proof.
  intros H. revert st. induction H as [|x l [Hm Hf] _ IH]; intros st Hhead.
  - destruct st, f; simpl; by rewrite !app_nil_r.
  - simpl fold_left. rewrite IH.
    + unfold Classifier.step. unfold is_meta, is_header in *. rewrite Hm.
      destruct (PyStr.startswith x "diff --git a/") eqn:Eh.
      * rewrite (Hf eq_refl). destruct f, l; simpl; by rewrite <- ?app_assoc.
      * destruct Hhead as [? | ->]; [done|].
        destruct f, l; simpl; by rewrite <- ?app_assoc.
    + destruct l; [done|]. right. unfold Classifier.step.
      unfold is_meta, is_header in *. rewrite Hm.
      destruct (PyStr.startswith x "diff --git a/") eqn:Eh.
      * rewrite (Hf eq_refl). by destruct f.
      * destruct Hhead as [? | ->]; [done|]. by destruct f.
Qed.

Lemma classify_no_newline (lines : list string) :
  Forall (λ f, has_char (PyStr.is_char nl) f = false) lines →
  Forall (λ f, has_char (PyStr.is_char nl) f = false) (patch_change (classify lines))
  ∧ Forall (λ f, has_char (PyStr.is_char nl) f = false) (patch_test (classify lines)).
Proof.
  induction lines as [|x lines IH] using rev_ind; intros H.
  - split; constructor.
  - apply Forall_app in H as [H Hx]. destruct (IH H) as [Hc Ht].
    inversion Hx; subst. rewrite classify_snoc. unfold Classifier.step.
    destruct (PyStr.startswith x "index "); [done|].
    destruct (if PyStr.startswith x "diff --git a/" then _ else _) as [[|]|];
      simpl; split; try done; apply Forall_app; split; try done;
      by repeat constructor.
Qed.

Lemma extract_patches_stream (f : flag) (l : list string) :
  l ≠ [] → stream_ok f l →
  Forall (λ x, has_char (PyStr.is_char nl) x = false) l →
  extract_patches (render l)
  = match f with
    | Diff => (render l, "", true)
    | Test => ("", render l, true)
    end.
Proof.
  intros NE [Hall Hhead] Hnl. unfold Classifier.extract_patches.
  rewrite (proj2 (String.eqb_neq _ _) (render_nonempty l NE)).
  rewrite lines_of_render by done. unfold Classifier.classify.
  rewrite (classify_stream f l init Hall).
  - destruct f; reflexivity.
  - destruct l; [done|]. by left.
Qed.

(** X1. Each output stream of [extract_patches] is a fixed point: a
    non-empty code patch classifies as itself with an empty test patch, and
    a non-empty test patch as itself with an empty code patch. *)
Theorem extract_patches_stable (patch : string) :
  let c := (extract_patches patch).1.1 in
  let t := (extract_patches patch).1.2 in
  (c ≠ "" → extract_patches c = (c, "", true))
  ∧ (t ≠ "" → extract_patches t = ("", t, true)).
Proof.
  unfold Classifier.extract_patches at 1 2.
  destruct (String.eqb patch ""); [by split|]. cbn [fst snd].
  destruct (classify_streams (lines_of patch)) as (Hc & Ht & _).
  destruct (classify_no_newline (lines_of patch)) as [Nc Nt];
    [apply split_on_fields|].
  split; intros NE.
  - apply (extract_patches_stream Diff); [|done|done]. by intros E; rewrite E in NE.
  - apply (extract_patches_stream Test); [|done|done]. by intros E; rewrite E in NE.
Qed.

(** X2. Lines before the first file header reach neither stream: a diff
    text whose lines are a header-free preamble followed by [rest] gives the
    streams of [rest] alone. *)
Theorem preamble_dropped (patch : string) (pre rest : list string) :
  patch ≠ "" →
  lines_of patch = pre ++ rest →
  Forall (λ l, is_header l = false) pre →
  extract_patches patch
  = (render (patch_change (classify rest)),
     render (patch_test (classify rest)), true).
Proof.
  intros NE Hl Hp. unfold Classifier.extract_patches.
  rewrite (proj2 (String.eqb_neq _ _) NE), Hl. unfold Classifier.classify.
  rewrite fold_left_app, (classify_body lexer_name v language name pre init Hp).
  reflexivity.
Qed.


Lemma header_flag_unprofiled (l : string) :
  profiled language = false → header_flag l = Some (word_flag l).
Proof.
  unfold profiled, Classifier.header_flag.
  intros [[H1 H2]%orb_false_elim H3]%orb_false_elim. by rewrite H1, H2, H3.
Qed.

Lemma classify_unprofiled (lines : list string) :
  profiled language = false →
  (match lines with x :: _ => is_header x = true | [] => True end) →
  patch_change (classify lines) ++ patch_test (classify lines) ≡ₚ non_meta lines
  ∧ (lines ≠ [] → cur (classify lines) ≠ None).
Proof.
  intros Hp. induction lines as [|x lines IH] using rev_ind; intros Hhead.
  - by split.
  - rewrite classify_snoc. unfold non_meta. rewrite List.filter_app. cbn [List.filter].
    fold (non_meta lines). unfold Classifier.step, is_meta.
    destruct lines as [|y lines].
    + simpl in Hhead. pose proof (header_not_meta x Hhead) as Hm.
      unfold is_meta, is_header in *. rewrite Hm, Hhead.
      rewrite header_flag_unprofiled by done. simpl.
      by destruct (word_flag x).
    + destruct (IH Hhead) as [Hperm Hcur]. specialize (Hcur ltac:(done)).
      destruct (PyStr.startswith x "index "); simpl.
      { rewrite app_nil_r. split; [done|]. auto. }
      destruct (PyStr.startswith x "diff --git a/").
      * rewrite header_flag_unprofiled by done.
        destruct (word_flag x); simpl; (split; [|done]).
        -- rewrite app_assoc. by apply Permutation_app.
        -- rewrite <- Hperm. rewrite <- !app_assoc. apply Permutation_app_head.
           apply Permutation_app_comm.
      * destruct (cur (classify (y :: lines))) as [[|]|]; [| |done]; simpl;
          (split; [|done]).
        -- rewrite app_assoc. by apply Permutation_app.
        -- rewrite <- Hperm. rewrite <- !app_assoc. apply Permutation_app_head.
           apply Permutation_app_comm.
Qed.

(** X4. Without a language profile no file is left out: when the diff starts
    with a file header and the language is none of python, js and java, the
    two streams together hold every line that is not an ["index "] line,
    each once. *)
Theorem unprofiled_keeps_all (lines : list string) (h : string) (rest : list string) :
  profiled language = false →
  lines = h :: rest → is_header h = true →
  patch_change (classify lines) ++ patch_test (classify lines) ≡ₚ non_meta lines.
Proof.
  intros Hp -> Hh. by apply classify_unprofiled.
Qed.

End ClassifierMore.

Lemma extract_patches_stable_witness :
  let e := Classifier.extract_patches Classifier.sample_lexer Classifier.Async
             "python" "r" in
  e (e Sample.two_file_diff).1.1 = ((e Sample.two_file_diff).1.1, "", true)
  ∧ e (e Sample.two_file_diff).1.2 = ("", (e Sample.two_file_diff).1.2, true).
Proof.
  destruct (extract_patches_stable Classifier.sample_lexer Classifier.Async
              "python" "r" Sample.two_file_diff) as [H1 H2].
  split; [apply H1|apply H2]; vm_compute; discriminate.
Defined.

Lemma preamble_dropped_witness :
  Classifier.extract_patches Classifier.sample_lexer Classifier.Sync "python" "r"
    ("Subject: fix f" +:+ Sample.NL +:+ Sample.two_file_diff)
  = Classifier.extract_patches Classifier.sample_lexer Classifier.Sync "python" "r"
      Sample.two_file_diff.
Proof.
  rewrite (preamble_dropped Classifier.sample_lexer Classifier.Sync "python" "r"
             ("Subject: fix f" +:+ Sample.NL +:+ Sample.two_file_diff)
             ["Subject: fix f"] (Classifier.lines_of Sample.two_file_diff)).
  - reflexivity.
  - vm_compute. discriminate.
  - vm_compute. reflexivity.
  - repeat constructor.
Defined.


Lemma unprofiled_keeps_all_witness :
  let st := Classifier.classify Classifier.sample_lexer Classifier.Async "go" "r"
              (Classifier.lines_of Sample.two_file_diff) in
  Classifier.patch_change st ++ Classifier.patch_test st
  ≡ₚ non_meta (Classifier.lines_of Sample.two_file_diff).
Proof.
  apply (unprofiled_keeps_all Classifier.sample_lexer Classifier.Async "go" "r"
           (Classifier.lines_of Sample.two_file_diff) Sample.tests_header
           (Sample.tests_body ++ Sample.src_header :: Sample.src_body)).
  - reflexivity.
  - vm_compute. reflexivity.
  - reflexivity.
Defined.

(** ** Instance ids *)

Lemma has_char_app (p : ascii → bool) (a b : string) :
  has_char p (a +:+ b) = has_char p a || has_char p b.
Proof.
  induction a as [|c a IH]; [done|].
  rewrite append_cons. simpl. by rewrite IH, orb_assoc.
Qed.

(** [replace] of a one-character [old] works character by character. *)
Lemma replace_char_cons (c d : ascii) (new s : string) :
  PyStr.replace (String c "") new (String d s)
  = (if Ascii.eqb c d then new else String d "")
    +:+ PyStr.replace (String c "") new s.
Proof.
  unfold PyStr.replace. cbn [PyStr.replace_go String.prefix String.length Nat.pred].
  destruct (ascii_dec c d) as [->|NE].
  - rewrite Ascii.eqb_refl. by destruct s.
  - by rewrite (proj2 (Ascii.eqb_neq _ _) NE).
Qed.

Lemma replace_char_app (c : ascii) (new a b : string) :
  PyStr.replace (String c "") new (a +:+ b)
  = PyStr.replace (String c "") new a +:+ PyStr.replace (String c "") new b.
Proof.
  induction a as [|d a IH]; [done|].
  rewrite append_cons, !replace_char_cons, IH. by rewrite append_assoc.
Qed.

Lemma replace_char_absent (c : ascii) (new s : string) :
  has_char (PyStr.is_char c) s = false → PyStr.replace (String c "") new s = s.
Proof.
  induction s as [|d s IH]; [done|]. simpl. intros [Hd Hs]%orb_false_elim.
  rewrite replace_char_cons, (IH Hs). unfold PyStr.is_char in Hd. by rewrite Hd.
Qed.

Lemma replace_char_gone (c : ascii) (new s : string) :
  has_char (PyStr.is_char c) new = false →
  has_char (PyStr.is_char c) (PyStr.replace (String c "") new s) = false.
Proof.
  intros Hn. induction s as [|d s IH]; [done|].
  rewrite replace_char_cons, has_char_app, IH, orb_false_r.
  destruct (Ascii.eqb c d) eqn:E; [done|]. simpl. unfold PyStr.is_char.
  by rewrite E.
Qed.

Lemma append_inv_head (a b c : string) : a +:+ b = a +:+ c → b = c.
Proof.
  induction a as [|x a IH]; [done|]. rewrite !append_cons. intros [= H]. auto.
Qed.

Lemma pretty_N_char_no_slash (d : N) :
  PyStr.is_char "/" (pretty_N_char d) = false.
Proof. unfold pretty_N_char. by repeat case_match. Qed.

Lemma pretty_N_go_no_slash (x : N) (s : string) :
  has_char (PyStr.is_char "/") s = false →
  has_char (PyStr.is_char "/") (pretty_N_go x s) = false.
Proof.
  revert s. induction (N.lt_wf_0 x) as [x _ IH]; intros s Hs.
  destruct (decide (x = 0%N)) as [-> | Hx]; [by rewrite pretty_N_go_0|].
  rewrite pretty_N_go_step by lia.
  apply IH; [apply N.div_lt; lia|]. cbn [has_char].
  by rewrite pretty_N_char_no_slash, Hs.
Qed.

Lemma str_of_int_no_slash (n : Z) :
  has_char (PyStr.is_char "/") (PyStr.str_of_int n) = false.
Proof.
  assert (HN : ∀ x : N, has_char (PyStr.is_char "/") (pretty x) = false).
  { intros x. unfold pretty, pretty_N. destruct (decide (x = 0%N)); [done|].
    by apply pretty_N_go_no_slash. }
  unfold PyStr.str_of_int, pretty, pretty_Z. destruct n as [|q|q]; [done| |].
  - apply (HN (N.pos q)).
  - rewrite has_char_app. simpl. apply (HN (N.pos q)).
Qed.

Lemma make_id_eq (name : string) (n : Z) :
  Pipeline.make_id name n
  = PyStr.replace "/" "__" name +:+ "-" +:+ PyStr.str_of_int n.
Proof.
  unfold Pipeline.make_id.
  change "/"%string with (String "/"%char "").
  rewrite !replace_char_app.
  rewrite (replace_char_absent _ _ (PyStr.str_of_int n))
    by apply str_of_int_no_slash.
  reflexivity.
Qed.

(** X7. An instance id never contains a slash, whatever the repository name
    and the number are. *)
Theorem make_id_no_slash (name : string) (n : Z) :
  has_char (PyStr.is_char "/") (Pipeline.make_id name n) = false.
Proof.
  unfold Pipeline.make_id. change "/"%string with (String "/"%char "").
  by apply replace_char_gone.
Qed.

(** X8. Two pull requests of one repository have the same instance id only
    if they have the same number. *)
Theorem make_id_number_inj (name : string) (n m : Z) :
  Pipeline.make_id name n = Pipeline.make_id name m → n = m.
Proof.
  rewrite !make_id_eq. intros H.
  apply append_inv_head in H. apply append_inv_head in H.
  by apply (inj pretty) in H.
Qed.

Lemma make_id_number_inj_witness :
  Pipeline.make_id "o/r" 5 = Pipeline.make_id "o/r" (2 + 3) ∧ 5 = 2 + 3.
Proof.
  split; [reflexivity|].
  apply (make_id_number_inj "o/r" 5 (2 + 3)). reflexivity.
Defined.

(** ** The harvest run *)

Section PipelineMore.

Import Pipeline.

Variable strptime : string -> option Z.
Variable lexer_name : string -> option string.

Abbreviation create_instance := (Pipeline.create_instance lexer_name).
Abbreviation process_single_pr := (Pipeline.process_single_pr strptime lexer_name).
Abbreviation run_tasks := (Pipeline.run_tasks strptime lexer_name).
Abbreviation main := (Pipeline.main strptime lexer_name).

(** What one unit appends to the three files *)
Lemma process_single_pr_appends (w : world) (cutoff_date : Z)
  (seen_prs successful_instances : gset string) (r : Repo) (pull : Pull)
  (st : run) :
  let st' := process_single_pr w cutoff_date seen_prs successful_instances r pull st in
  ∃ (a : list Instance) (l : list string),
    all_output (fs st') = all_output (fs st) ++ a
    ∧ output (fs st') = output (fs st) ++ List.filter has_test_patch a
    ∧ successful (fs st') = successful (fs st) ++ l
    ∧ Forall (λ i, is_valid_instance i = true
                   ∧ ∃ t, strptime (created_at i) = Some t ∧ t < cutoff_date) a
    ∧ (∀ text,
         make_id (full_name pull) (number pull) ∉ seen_prs →
         make_id (full_name pull) (number pull) ∉ successful_instances →
         is_valid_pull pull = true →
         fetch_diff w pull = Ret text → text ≠ "" →
         l = [make_id (repo_name r) (number pull)]).
Proof.
  cbv zeta. unfold Pipeline.process_single_pr.
  destruct (bool_decide (_ ∈ seen_prs)) eqn:E1.
  { exists [], []. rewrite !app_nil_r. split_and!; try done.
    intros ? H. by apply bool_decide_eq_true in E1. }
  destruct (bool_decide (_ ∈ successful_instances)) eqn:E2.
  { exists [], []. rewrite !app_nil_r. split_and!; try done.
    intros ? _ H. by apply bool_decide_eq_true in E2. }
  cbn [orb]. destruct (is_valid_pull pull) eqn:Ev; cbn [negb].
  2:{ exists [], []. rewrite !app_nil_r. by split_and!. }
  destruct (create_instance w r pull st) as [st1 res] eqn:Ec.
  destruct (create_instance_spec lexer_name w r pull st st1 res Ec)
    as (Ha & Ho & _ & Hs & Hi).
  assert (Hl : ∃ l, successful (fs st1) = successful (fs st) ++ l
                    ∧ ∀ text, fetch_diff w pull = Ret text → text ≠ "" →
                        l = [make_id (repo_name r) (number pull)]).
  { destruct (fetch_diff w pull) as [text|e] eqn:Ef.
    - specialize (Hs text eq_refl). destruct (String.eqb text "") eqn:Et.
      + exists []. rewrite app_nil_r. split; [done|].
        intros ? [= <-] NE. by apply String.eqb_eq in Et.
      + eexists. split; [exact Hs|]. done.
    - unfold Pipeline.create_instance in Ec. rewrite Ef in Ec.
      injection Ec as <- <-. exists []. rewrite app_nil_r. by split. }
  destruct Hl as (l & Hl & Hl').
  assert (Hkeep : ∃ (a : list Instance) (l : list string),
            all_output (fs st1) = all_output (fs st) ++ a
            ∧ output (fs st1) = output (fs st) ++ List.filter has_test_patch a
            ∧ successful (fs st1) = successful (fs st) ++ l
            ∧ Forall (λ i, is_valid_instance i = true
                 ∧ ∃ t, strptime (created_at i) = Some t ∧ t < cutoff_date) a
            ∧ (∀ text,
                 make_id (full_name pull) (number pull) ∉ seen_prs →
                 make_id (full_name pull) (number pull) ∉ successful_instances →
                 true = true →
                 fetch_diff w pull = Ret text → text ≠ "" →
                 l = [make_id (repo_name r) (number pull)])).
  { exists [], l. rewrite !app_nil_r. repeat split; try done. eauto. }
  destruct res as [inst|e]; cbv beta iota; [|done].
  destruct (strptime (created_at inst)) as [t|] eqn:Et; [|done].
  destruct (Z.geb_spec t cutoff_date) as [G|G]; [done|].
  destruct (is_valid_instance inst) eqn:Evi; [|done].
  exists [inst], l. cbn [List.filter].
  destruct (has_test_patch inst) eqn:Eh; cbn; rewrite ?Ha, ?Ho, ?Hl, ?app_nil_r;
    (split_and!; [done|done|done| |by eauto]);
    repeat constructor; eauto.
Qed.

Lemma run_tasks_appends (w : world) (cutoff_date : Z)
  (seen_prs successful_instances : gset string) (tasks : list (Repo * Pull))
  (st : run) :
  let st' := run_tasks w cutoff_date seen_prs successful_instances tasks st in
  ∃ (a : list Instance) (l : list string),
    all_output (fs st') = all_output (fs st) ++ a
    ∧ output (fs st') = output (fs st) ++ List.filter has_test_patch a
    ∧ successful (fs st') = successful (fs st) ++ l
    ∧ Forall (λ i, is_valid_instance i = true
                   ∧ ∃ t, strptime (created_at i) = Some t ∧ t < cutoff_date) a
    ∧ (∀ r pull text,
         (r, pull) ∈ tasks →
         make_id (full_name pull) (number pull) ∉ seen_prs →
         make_id (full_name pull) (number pull) ∉ successful_instances →
         is_valid_pull pull = true →
         fetch_diff w pull = Ret text → text ≠ "" →
         make_id (repo_name r) (number pull) ∈ l).
Proof.
  cbv zeta. unfold Pipeline.run_tasks.
  induction tasks as [|[r0 p0] tasks IH] using rev_ind.
  - exists [], []. rewrite !app_nil_r. repeat split; try done.
    intros ??? H. by apply elem_of_nil in H.
  - rewrite fold_left_app. cbn [fold_left fst snd].
    destruct IH as (a & l & Ha & Ho & Hl & Hv & Hin).
    destruct (process_single_pr_appends w cutoff_date seen_prs
                successful_instances r0 p0
                (fold_left
                   (λ st task, process_single_pr w cutoff_date seen_prs
                                 successful_instances task.1 task.2 st) tasks st))
      as (a' & l' & Ha' & Ho' & Hl' & Hv' & Hin').
    exists (a ++ a'), (l ++ l').
    rewrite Ha', Ho', Hl', Ha, Ho, Hl, List.filter_app, <- !app_assoc.
    repeat split; try done.
    + by apply Forall_app.
    + intros r pull text [H | H%list_elem_of_singleton]%elem_of_app ?????.
      * apply elem_of_app. left. eauto.
      * injection H as -> ->. apply elem_of_app. right.
        rewrite (Hin' text) by done. apply list_elem_of_here.
Qed.

Lemma make_tasks_fails (language_ : string) (groups : list (string * list Pull))
  (k : string) (ps : list Pull) :
  (k, ps) ∈ groups → make_repo language_ k = Raise ValueError →
  make_tasks language_ groups = Raise ValueError.
Proof.
  induction groups as [|[k' ps'] groups IH]; [by intros ?%elem_of_nil|].
  intros [[= <- <-] | H]%elem_of_cons Hk; cbn [make_tasks].
  - by rewrite Hk.
  - destruct (make_repo language_ k') as [r|e] eqn:E; cbn.
    + by rewrite (IH H Hk).
    + unfold make_repo in E. by repeat case_match; simplify_eq.
Qed.

Lemma group_insert_key (pull p : Pull) (groups : list (string * list Pull)) :
  (∃ ps, (full_name p, ps) ∈ groups) →
  ∃ ps, (full_name p, ps) ∈ group_insert pull groups.
Proof.
  induction groups as [|[k ps] groups IH]; [by intros [? ?%elem_of_nil]|].
  intros [ps' [[= <- <-] | H]%elem_of_cons]; cbn [group_insert].
  - destruct (String.eqb _ _); eexists; apply list_elem_of_here.
  - destruct (String.eqb _ _).
    + eexists. apply list_elem_of_further. exact H.
    + destruct IH as [ps'' ?]; [eauto|]. eexists.
      apply list_elem_of_further. eassumption.
Qed.

Lemma group_insert_own_key (pull : Pull) (groups : list (string * list Pull)) :
  ∃ ps, (full_name pull, ps) ∈ group_insert pull groups.
Proof.
  induction groups as [|[k ps] groups [ps' IH]]; cbn [group_insert].
  - eexists. apply list_elem_of_here.
  - destruct (String.eqb_spec k (full_name pull)) as [-> | NE].
    + eexists. apply list_elem_of_here.
    + eexists. apply list_elem_of_further. exact IH.
Qed.

Lemma pulls_by_repo_key (pulls : list Pull) (p : Pull) :
  p ∈ pulls → ∃ ps, (full_name p, ps) ∈ pulls_by_repo pulls.
Proof.
  unfold pulls_by_repo. induction pulls as [|q pulls IH] using rev_ind.
  - by intros ?%elem_of_nil.
  - rewrite fold_left_app. cbn [fold_left].
    intros [H | ->%list_elem_of_singleton]%elem_of_app.
    + apply group_insert_key. auto.
    + apply group_insert_own_key.
Qed.

Lemma replay_fails (lines : list Instance) (seen : gset string) (pr : Instance) :
  pr ∈ lines → strptime (created_at pr) = None →
  replay strptime lines seen = Raise ValueError.
Proof.
  revert seen. induction lines as [|x lines IH]; intros seen;
    [by intros ?%elem_of_nil|].
  intros [-> | H]%elem_of_cons Hpr; cbn [replay].
  - by rewrite Hpr.
  - destruct (strptime (created_at x)); [by apply IH|done].
Qed.

(** X9. What a run appends: the filtered file receives exactly the emitted
    instances that have a test patch, in the order of the superset file, and
    every emitted instance is valid and was created before the cutoff. *)
Theorem main_outputs (w : world) (language_ cutoff_date : string)
  (pulls : list Pull) (f : files) (r : run) :
  main w language_ cutoff_date pulls f = Ret r →
  ∃ (emitted : list Instance) (cutoff : Z),
    strptime cutoff_date = Some cutoff
    ∧ all_output (fs r) = all_output f ++ emitted
    ∧ output (fs r) = output f ++ List.filter has_test_patch emitted
    ∧ Forall (λ i, is_valid_instance i = true
                   ∧ ∃ t, strptime (created_at i) = Some t ∧ t < cutoff) emitted.
Proof.
  unfold Pipeline.main.
  destruct (strptime cutoff_date) as [cutoff|]; [|done].
  destruct (replay strptime (all_output f) ∅) as [seen|]; [|done]. cbn.
  destruct (make_tasks language_ (pulls_by_repo pulls)) as [tasks|]; [|done]. cbn.
  intros [= <-].
  destruct (run_tasks_appends w cutoff seen
              (list_to_set (PyStr.strip <$> successful f)) tasks (mkRun f []))
    as (a & l & Ha & Ho & _ & Hv & _).
  exists a, cutoff. by repeat split.
Qed.

(** X10. Every pull of the work list becomes exactly one task, paired with
    the repository object of its own [full_name]. *)
Theorem tasks_cover_work_list (language_ : string) (pulls : list Pull)
  (tasks : list (Repo * Pull)) :
  make_tasks language_ (pulls_by_repo pulls) = Ret tasks →
  snd <$> tasks ≡ₚ pulls
  ∧ ∀ r p, (r, p) ∈ tasks → repo_name r = full_name p ∧ language r = language_.
Proof.
  intros H. split.
  - rewrite (make_tasks_snd _ _ _ H). apply pulls_by_repo_perm.
  - intros r p Hin.
    destruct (make_tasks_ok language_ _ _ H r p Hin) as (k & ps & Hk & Hp & Hr).
    destruct (pulls_by_repo_ok pulls k ps p Hk Hp) as [<- _].
    split; [by apply (make_repo_name language_)|].
    unfold make_repo in Hr. repeat case_match; try done. by injection Hr as <-.
Qed.

(** X11. Once the diff of a candidate has been fetched with a non-empty text,
    its id is in the successful-fetch ledger at the end of the run, whatever
    became of the instance; a later run over that candidate then fetches
    nothing and leaves the three files as they are. *)
Theorem fetched_diff_not_refetched (w : world) (language_ cutoff_date : string)
  (pulls : list Pull) (f : files) (r : run) (p : Pull) (text : string) :
  let id := make_id (full_name p) (number p) in
  main w language_ cutoff_date pulls f = Ret r →
  p ∈ pulls → is_valid_pull p = true →
  id ∉ (line_id <$> all_output f) → id ∉ (PyStr.strip <$> successful f) →
  fetch_diff w p = Ret text → text ≠ "" →
  PyStr.strip id = id →
  id ∈ successful (fs r)
  ∧ ∀ w' r', main w' language_ cutoff_date [p] (fs r) = Ret r' →
             r' = mkRun (fs r) [].
Proof.
  intros id Hmain Hp Hv Hseen Hled Hf Ht Hstrip.
  assert (Hid : id ∈ successful (fs r)).
  { revert Hmain. unfold Pipeline.main.
    destruct (strptime cutoff_date) as [cutoff|]; [|done].
    destruct (replay strptime (all_output f) ∅) as [seen|] eqn:Er; [|done]. cbn.
    destruct (make_tasks language_ (pulls_by_repo pulls)) as [tasks|] eqn:Em;
      [|done]. cbn.
    intros [= <-].
    destruct (run_tasks_appends w cutoff seen
                (list_to_set (PyStr.strip <$> successful f)) tasks (mkRun f []))
      as (a & l & _ & _ & Hl & _ & Hin).
    rewrite Hl. apply elem_of_app. right.
    assert (Hsnd : p ∈ snd <$> tasks).
    { rewrite (make_tasks_snd _ _ _ Em), pulls_by_repo_perm. exact Hp. }
    apply list_elem_of_fmap in Hsnd as ([r0 p0] & -> & Hin0). cbn [snd] in *.
    destruct (make_tasks_ok language_ _ _ Em r0 p0 Hin0) as (k & ps & Hk & Hp0 & Hr).
    destruct (pulls_by_repo_ok pulls k ps p0 Hk Hp0) as [<- _].
    pose proof (make_repo_name language_ _ _ Hr) as Hn.
    unfold id. rewrite <- Hn. apply (Hin r0 p0 text); try done.
    - rewrite (replay_seen strptime lexer_name _ _ _ Er). intros [H | H]; [done|].
      by apply elem_of_empty in H.
    - by rewrite elem_of_list_to_set. }
  split; [exact Hid|].
  intros w' r'. unfold Pipeline.main.
  destruct (strptime cutoff_date) as [cutoff|]; [|done].
  destruct (replay strptime (all_output (fs r)) ∅) as [seen|]; [|done].
  change (pulls_by_repo [p]) with [(full_name p, [p])]. cbn [make_tasks].
  destruct (make_repo language_ (full_name p)) as [r0|]; [|done].
  cbn -[Pipeline.run_tasks]. intros [= <-].
  unfold Pipeline.run_tasks. cbn [fold_left fst snd]. unfold Pipeline.process_single_pr.
  assert (Hin : id ∈ (list_to_set (PyStr.strip <$> successful (fs r)) : gset string)).
  { rewrite elem_of_list_to_set. rewrite <- Hstrip.
    apply list_elem_of_fmap. eauto. }
  fold id. rewrite (bool_decide_eq_true_2 _ Hin). by rewrite orb_true_r.
Qed.

(** X12. A line of the existing superset file whose [created_at] the time
    parser rejects, or a pull whose repository name does not split into
    owner and name at a single slash, makes [main] raise before any unit
    runs. *)
Theorem main_aborts (w : world) (language_ cutoff_date : string)
  (pulls : list Pull) (f : files) :
  (∃ pr, pr ∈ all_output f ∧ strptime (created_at pr) = None)
  ∨ (∃ p, p ∈ pulls ∧ length (PyStr.split "/" (full_name p)) ≠ 2%nat) →
  main w language_ cutoff_date pulls f = Raise ValueError.
Proof.
  intros H. unfold Pipeline.main.
  destruct (strptime cutoff_date) as [cutoff|]; [|done].
  destruct H as [(pr & Hin & Hpr) | (p & Hin & Hp)].
  - by rewrite (replay_fails _ ∅ pr Hin Hpr).
  - destruct (replay strptime (all_output f) ∅) as [seen|e] eqn:Er; cbn.
    + destruct (pulls_by_repo_key pulls p Hin) as [ps Hk].
      rewrite (make_tasks_fails language_ _ _ ps Hk); [done|].
      unfold make_repo. destruct (PyStr.split "/" (full_name p)) as [|?[|?[|??]]];
        try done.
    + clear -Er. revert Er. generalize (∅ : gset string).
      induction (all_output f) as [|x l IH]; intros seen; cbn [replay]; [done|].
      destruct (strptime (created_at x)); [apply IH|]. by intros [= <-].
Qed.

End PipelineMore.

Lemma main_outputs_witness :
  ∃ (emitted : list Pipeline.Instance) (cutoff : Z),
    Sample.strptime Sample.cutoff = Some cutoff
    ∧ Pipeline.all_output (Pipeline.fs Sample.after_run1) = [] ++ emitted
    ∧ Pipeline.output (Pipeline.fs Sample.after_run1)
      = [] ++ List.filter Pipeline.has_test_patch emitted
    ∧ Forall (λ i, Pipeline.is_valid_instance i = true
                   ∧ ∃ t, Sample.strptime (Pipeline.created_at i) = Some t
                          ∧ t < cutoff) emitted.
Proof.
  apply (main_outputs Sample.strptime Classifier.sample_lexer
           Sample.world_src_only "python" Sample.cutoff [Sample.pull5]
           Sample.no_files Sample.after_run1).
  vm_compute. reflexivity.
Defined.

Lemma tasks_cover_work_list_witness :
  let tasks := [(Sample.repo_o_r, Sample.pull5); (Sample.repo_o_r, Sample.late_pull)] in
  snd <$> tasks ≡ₚ [Sample.pull5; Sample.late_pull]
  ∧ ∀ r p, (r, p) ∈ tasks →
      Pipeline.repo_name r = Pipeline.full_name p ∧ Pipeline.language r = "python".
Proof.
  apply (tasks_cover_work_list "python" [Sample.pull5; Sample.late_pull]).
  vm_compute. reflexivity.
Defined.

(** The diff of [pull5] arrives, the issue lookup fails: nothing is emitted,
    the id is in the ledger, and the next run does not fetch. *)
Lemma fetched_diff_not_refetched_witness :
  let w := Pipeline.mkWorld (λ _, Ret Sample.src_only_diff)
             (λ _, Raise NetworkError) in
  let r := Pipeline.mkRun (Pipeline.mkFiles [] [] ["o__r-5"])
             ["https://github.com/o/r/pull/5.diff"] in
  Pipeline.main Sample.strptime Classifier.sample_lexer w "python" Sample.cutoff
    [Sample.pull5] Sample.no_files = Ret r
  ∧ "o__r-5"%string ∈ Pipeline.successful (Pipeline.fs r)
  ∧ ∀ w' r',
      Pipeline.main Sample.strptime Classifier.sample_lexer w' "python"
        Sample.cutoff [Sample.pull5] (Pipeline.fs r) = Ret r' →
      r' = Pipeline.mkRun (Pipeline.fs r) [].
Proof.
  intros w r. split; [vm_compute; reflexivity|].
  apply (fetched_diff_not_refetched Sample.strptime Classifier.sample_lexer w
           "python" Sample.cutoff [Sample.pull5] Sample.no_files r Sample.pull5
           Sample.src_only_diff).
  - vm_compute. reflexivity.
  - apply list_elem_of_here.
  - reflexivity.
  - apply not_elem_of_nil.
  - apply not_elem_of_nil.
  - reflexivity.
  - vm_compute. discriminate.
  - vm_compute. reflexivity.
Defined.

Lemma main_aborts_witness :
  Pipeline.main Sample.strptime Classifier.sample_lexer Sample.world_src_only
    "python" Sample.cutoff
    [Sample.pull5;
     Pipeline.mkPull "orphan" 7 (Some "2024-01-01T00:00:00Z") (Some ["9"])
       "abc123" "2024-01-01T00:00:00Z" "https://github.com/orphan/pull/7.diff"]
    Sample.no_files
  = Raise ValueError.
Proof.
  apply main_aborts. right. eexists. split.
  - apply list_elem_of_further, list_elem_of_here.
  - vm_compute. discriminate.
Defined.

(** ** The retry loops *)

Section FetchMore.

Import Rotator Fetch.

Variable py_int : string -> option Z.
Variable md5_int : string -> Z.

Abbreviation async_attempt := (Fetch.async_attempt py_int md5_int).
Abbreviation sync_attempt := (Fetch.sync_attempt py_int md5_int).
Abbreviation fetch_with_retries := (Fetch.fetch_with_retries py_int md5_int).
Abbreviation github_api := (Fetch.github_api py_int md5_int).

Ltac sleep_range :=
  pose proof float_limit_large; unfold time_sleep_max in *; lia.

Lemma entered_spec (f : ProxyRotator → ProxyRotator) (st0 : fstate) :
  (∀ r, enabled (f r) = enabled r) →
  retries (entered f st0) = retries st0
  ∧ slept (entered f st0) = slept st0
  ∧ attempts (entered f st0) = S (attempts st0)
  ∧ enabled (rot (entered f st0)) = enabled (rot st0)
  ∧ (enabled (rot st0) = false → rot (entered f st0) = rot st0).
Proof.
  intros Hf. unfold entered. destruct (enabled (rot st0)) eqn:E; cbn;
    rewrite ?Hf; by split_and!.
Qed.

Lemma async_entered (env : attempt_env) (st0 : fstate) :
  async_attempt env st0
  = let st := entered (record_request md5_int (env_now env)) st0 in
    match env_reply env with
    | Fails e => async_except e st
    | Responds r =>
        if status r =? 200 then
          match text r with
          | Ret body => (st, Return body)
          | Raise e => async_except e st
          end
        else if status r =? 403 then
          match py_int (default "0" (headers r !! "X-RateLimit-Remaining")) with
          | None => async_except ValueError st
          | Some remaining =>
              if remaining =? 0 then
                if enabled (rot st) then
                  async_sleep 1 (set_rot (rotate (rot st)) st)
                    (fun st2 => (incr st2, Continue))
                else
                  match int_header py_int r "X-RateLimit-Reset" (env_now env + 60) with
                  | None => async_except ValueError st
                  | Some reset_time =>
                      let sleep_time := Z.max (reset_time - env_now env + 1) 0 in
                      async_sleep sleep_time st (fun st2 => (incr st2, Continue))
                  end
              else (incr st, Continue)
          end
        else if (status r =? 502) || (status r =? 503) then
          let wait_time := Z.min (3 * (retries st + 1)) 15 in
          async_sleep wait_time (rotate_if_enabled st)
            (fun st2 => (incr st2, Continue))
        else if status r =? 429 then
          match int_header py_int r "Retry-After" 60 with
          | None => async_except ValueError st
          | Some retry_after =>
              if enabled (rot st) then
                async_sleep 2 (set_rot (rotate (rot st)) st)
                  (fun st2 => (incr st2, Continue))
              else async_sleep retry_after st (fun st2 => (incr st2, Continue))
          end
        else if status r =? 404 then (st, Return "")
        else
          async_sleep (Z.min (3 * retries st) 15) st
            (fun st2 => (incr st2, Continue))
    end.
Proof. reflexivity. Qed.

Lemma rotate_if_enabled_spec (st : fstate) :
  retries (rotate_if_enabled st) = retries st
  ∧ slept (rotate_if_enabled st) = slept st
  ∧ attempts (rotate_if_enabled st) = attempts st
  ∧ enabled (rot (rotate_if_enabled st)) = enabled (rot st)
  ∧ (enabled (rot st) = false → rot (rotate_if_enabled st) = rot st).
Proof.
  unfold rotate_if_enabled. destruct (enabled (rot st)) eqn:E; by split_and!.
Qed.

(** One transient failure in [fetch_with_retries] *)
Lemma async_transient_step (env : attempt_env) (st : fstate) :
  transient env → 0 ≤ retries st →
  ∃ st', async_attempt env st = (st', Continue)
    ∧ retries st' = retries st + 1
    ∧ attempts st' = S (attempts st)
    ∧ slept st' = slept st ++ [Z.min (3 * (retries st + 1)) 15].
Proof.
  intros Ht _. rewrite async_entered. cbv zeta.
  destruct (entered_spec (record_request md5_int (env_now env)) st
              (enabled_record_request md5_int (env_now env)))
    as (Hr & Hs & Ha & _).
  revert Hr Hs Ha. generalize (entered (record_request md5_int (env_now env)) st).
  intros st1 Hr Hs Ha. unfold transient in Ht.
  destruct (rotate_if_enabled_spec st1) as (Hr' & Hs' & Ha' & _).
  destruct (env_reply env) as [r|e].
  - assert (E : (status r =? 200) = false ∧ (status r =? 403) = false
                ∧ (status r =? 502) || (status r =? 503) = true)
      by (destruct Ht as [-> | ->]; done).
    destruct E as (-> & -> & ->).
    rewrite async_sleep_ok by sleep_range.
    eexists. split; [reflexivity|].
    cbn. rewrite Hr', Hs', Ha'. rewrite Hr, Hs, Ha. done.
  - subst e. eexists. split; [reflexivity|].
    cbn. rewrite Hr', Hs', Ha'. rewrite Hr, Hs, Ha. done.
Qed.

(** One transient failure in [github_api] *)
Lemma sync_transient_step (env : attempt_env) (st : fstate) :
  transient env → 0 ≤ retries st →
  ∃ st', sync_attempt env st = (st', Continue)
    ∧ retries st' = retries st + 1
    ∧ attempts st' = S (attempts st)
    ∧ slept st' = slept st ++ [Z.min (3 * (retries st + 1)) 15].
Proof.
  intros Ht H0. unfold Fetch.sync_attempt. cbv zeta.
  fold (entered (λ r, fst (update_env_proxies md5_int (env_now env)
                             (increment_request_count r))) st).
  destruct (entered_spec
              (λ r, fst (update_env_proxies md5_int (env_now env)
                           (increment_request_count r))) st
              (enabled_record_request md5_int (env_now env)))
    as (Hr & Hs & Ha & _).
  revert Hr Hs Ha.
  generalize (entered (λ r, fst (update_env_proxies md5_int (env_now env)
                                   (increment_request_count r))) st).
  intros st1 Hr Hs Ha. unfold transient in Ht.
  destruct (rotate_if_enabled_spec st1) as (Hr' & Hs' & Ha' & _).
  assert (Hw : 0 ≤ Z.min (3 * (retries st1 + 1)) 15 ≤ time_sleep_max)
    by sleep_range.
  destruct (env_reply env) as [r|e].
  - assert (E : (status r =? 200) = false ∧ (status r =? 403) = false
                ∧ (status r =? 503) || (status r =? 502) = true)
      by (destruct Ht as [-> | ->]; done).
    destruct E as (-> & -> & ->). cbn [andb]. rewrite sync_sleep_ok by done.
    eexists. split; [reflexivity|].
    cbn. rewrite Hr', Hs', Ha'. rewrite Hr, Hs, Ha. done.
  - subst e. eexists. split; [reflexivity|].
    cbn. rewrite Hr', Hs', Ha'. rewrite Hr, Hs, Ha. done.
Qed.

(** [k] transient failures in a row take the loop [k] passes further. *)
Lemma run_loop_transient {A : Type}
  (attempt : attempt_env → fstate → fstate * outcome A) (sentinel : A)
  (max_retries : Z) (w : world) :
  (∀ env st, transient env → 0 ≤ retries st →
     ∃ st', attempt env st = (st', Continue)
       ∧ retries st' = retries st + 1
       ∧ attempts st' = S (attempts st)
       ∧ slept st' = slept st ++ [Z.min (3 * (retries st + 1)) 15]) →
  ∀ (k fuel : nat) (st : fstate),
    0 ≤ retries st → retries st + Z.of_nat k ≤ max_retries →
    (∀ i, (i < k)%nat → transient (w (attempts st + i)%nat)) →
    ∃ st', run_loop (k + fuel) attempt sentinel max_retries w st
           = run_loop fuel attempt sentinel max_retries w st'
      ∧ retries st' = retries st + Z.of_nat k
      ∧ attempts st' = (attempts st + k)%nat
      ∧ slept st' = slept st ++ backoff (retries st) k.
Proof.
  intros Hstep k. induction k as [|k IH]; intros fuel st H0 Hmax Hw.
  - exists st. cbn. rewrite app_nil_r, Z.add_0_r, Nat.add_0_r. done.
  - destruct (Hstep (w (attempts st)) st) as (st1 & E & Hr & Ha & Hs); [|done|].
    { specialize (Hw 0%nat ltac:(lia)). by rewrite Nat.add_0_r in Hw. }
    destruct (IH fuel st1) as (st' & E' & Hr' & Ha' & Hs'); [lia|lia| |].
    { intros i Hi. rewrite Ha. specialize (Hw (S i) ltac:(lia)).
      by replace (S (attempts st) + i)%nat with (attempts st + S i)%nat by lia. }
    exists st'. split_and!.
    + cbn [Nat.add run_loop].
      destruct (Z.ltb_spec (retries st) max_retries) as [_|?]; [|lia].
      by rewrite E.
    + lia.
    + lia.
    + rewrite Hs', Hs, Hr, <- app_assoc. done.
Qed.

(** X16. [fetch_with_retries] returns the body of the first 200 reply when
    fewer than five transient failures come before it: it has issued one
    request per failure and one more, and has waited 3, 6, 9, ... seconds
    (at most 15) after the failures. *)
Theorem fetch_returns_first_ok (w : world) (r : ProxyRotator) (k : nat)
  (resp : response) (body : string) :
  (k < 5)%nat →
  (∀ i, (i < k)%nat → transient (w i)) →
  env_reply (w k) = Responds resp → status resp = 200 → text resp = Ret body →
  ∃ st, fetch_with_retries 6 5 w r = Some (st, Ret body)
    ∧ attempts st = S k
    ∧ slept st = backoff 0 k.
Proof.
  intros Hk Hw Hrep Hst Htx. unfold Fetch.fetch_with_retries.
  destruct (run_loop_transient async_attempt "" 5 w async_transient_step
              k (6 - k) (start r)) as (st' & E & Hr & Ha & Hs);
    [done|cbn; lia|done|].
  replace (k + (6 - k))%nat with 6%nat in E by lia. rewrite E.
  destruct (6 - k)%nat as [|fuel] eqn:Ef; [lia|]. cbn [run_loop].
  destruct (Z.ltb_spec (retries st') 5) as [_|?]; [|cbn in Hr; lia].
  cbn in Ha. rewrite Ha, async_entered. cbv zeta. rewrite Hrep, Hst, Htx.
  destruct (entered_spec (record_request md5_int (env_now (w k))) st'
              (enabled_record_request md5_int (env_now (w k))))
    as (_ & Hs1 & Ha1 & _).
  eexists. split; [reflexivity|]. by rewrite Hs1, Ha1, Hs, Ha.
Qed.

(** X17. When every request meets a transient failure, both retry loops give
    up after exactly five requests with their failure sentinel, having
    waited 3, 6, 9, 12 and 15 seconds. *)
Theorem persistent_failure_gives_up (w : world) (r : ProxyRotator) :
  (∀ i, transient (w i)) →
  (∃ st, fetch_with_retries 6 5 w r = Some (st, Ret "")
     ∧ attempts st = 5%nat ∧ slept st = [3; 6; 9; 12; 15])
  ∧ (∃ st, github_api 6 5 w r = Some (st, Ret None)
       ∧ attempts st = 5%nat ∧ slept st = [3; 6; 9; 12; 15]).
Proof.
  intros Hw. split.
  - destruct (run_loop_transient async_attempt "" 5 w async_transient_step
                5 1 (start r)) as (st' & E & Hr & Ha & Hs);
      [done|cbn; lia|by intros|].
    exists st'. unfold Fetch.fetch_with_retries.
    change 6%nat with (5 + 1)%nat. rewrite E. cbn [run_loop].
    destruct (Z.ltb_spec (retries st') 5) as [?|_]; [cbn in Hr; lia|].
    by split_and!.
  - destruct (run_loop_transient sync_attempt None 5 w sync_transient_step
                5 1 (start r)) as (st' & E & Hr & Ha & Hs);
      [done|cbn; lia|by intros|].
    exists st'. unfold Fetch.github_api.
    change 6%nat with (5 + 1)%nat. rewrite E. cbn [run_loop].
    destruct (Z.ltb_spec (retries st') 5) as [?|_]; [cbn in Hr; lia|].
    by split_and!.
Qed.

Lemma sync_entered (env : attempt_env) (st0 : fstate) :
  sync_attempt env st0
  = let st := entered (λ r, fst (update_env_proxies md5_int (env_now env)
                                   (increment_request_count r))) st0 in
    match env_reply env with
    | Fails e => sync_except e st
    | Responds r =>
        if status r =? 200 then (st, Return (Some r))
        else if (status r =? 403)
                && bool_decide (is_Some (headers r !! "X-RateLimit-Remaining")) then
          match py_int (default "" (headers r !! "X-RateLimit-Remaining")) with
          | None => sync_except ValueError st
          | Some remaining =>
              if remaining =? 0 then
                if enabled (rot st) then
                  let st1 :=
                    set_rot (fst (update_env_proxies md5_int (env_now env)
                                    (rotate (rot st)))) st in
                  sync_sleep 1 (incr st1) (fun st2 => (st2, Continue))
                else
                  match headers r !! "X-RateLimit-Reset" with
                  | None => sync_except KeyError st
                  | Some s =>
                      match py_int s with
                      | None => sync_except ValueError st
                      | Some reset_time =>
                          let sleep_time := reset_time - env_now env + 1 in
                          sync_sleep sleep_time st (fun st2 => (incr st2, Continue))
                      end
                  end
              else
                match json_error r with
                | Some e => sync_except e st
                | None => (st, Return (Some r))
                end
          end
        else if (status r =? 503) || (status r =? 502) then
          let wait_time := Z.min (3 * (retries st + 1)) 15 in
          sync_sleep wait_time (rotate_if_enabled st)
            (fun st2 => (incr st2, Continue))
        else if status r =? 429 then
          match int_header py_int r "Retry-After" 60 with
          | None => sync_except ValueError st
          | Some retry_after =>
              if enabled (rot st) then
                let st1 :=
                  set_rot (fst (update_env_proxies md5_int (env_now env)
                                  (rotate (rot st)))) st in
                sync_sleep 2 st1 (fun st2 => (incr st2, Continue))
              else sync_sleep retry_after st (fun st2 => (incr st2, Continue))
          end
        else
          let st1 := incr st in
          sync_sleep (Z.min (3 * retries st1) 15) st1 (fun st2 => (st2, Continue))
    end.
Proof. reflexivity. Qed.

(** A property of the loop variables that every pass keeps holds when the
    loop ends. *)
Lemma run_loop_keeps {A : Type} (I : fstate → Prop)
  (attempt : attempt_env → fstate → fstate * outcome A) (sentinel : A)
  (max_retries : Z) (w : world) :
  (∀ env st, I st → retries st < max_retries → I (attempt env st).1) →
  ∀ (fuel : nat) (st st' : fstate) (res : result A),
    I st →
    run_loop fuel attempt sentinel max_retries w st = Some (st', res) → I st'.
Proof.
  intros Hstep fuel. induction fuel as [|fuel IH]; intros st st' res HI; [done|].
  cbn [run_loop]. destruct (Z.ltb_spec (retries st) max_retries) as [Hlt|_].
  - specialize (Hstep (w (attempts st)) st HI Hlt).
    destruct (attempt (w (attempts st)) st) as [st1 [a| |e]]; cbn in Hstep.
    + by intros [= <- <-].
    + by apply IH.
    + by intros [= <- <-].
  - by intros [= <- <-].
Qed.

Lemma short_sleeps_snoc (st st' : fstate) (d : Z) :
  0 ≤ d ≤ 15 → retries st < 5 → short_sleeps st →
  enabled (rot st') = true → retries st' = retries st + 1 →
  slept st' = slept st ++ [d] →
  short_sleeps st'.
Proof.
  intros Hd Hlt (He & H0 & Hf & Hl) He' Hr Hs. unfold short_sleeps.
  rewrite He', Hr, Hs, length_app. cbn. split_and!; try lia; try done.
  apply Forall_app. split; [done|]. constructor; [lia|constructor].
Qed.

Lemma short_sleeps_same (st st' : fstate) :
  short_sleeps st →
  enabled (rot st') = true → retries st' = retries st → slept st' = slept st →
  short_sleeps st'.
Proof.
  intros (He & H0 & Hf & Hl) He' Hr Hs. unfold short_sleeps.
  by rewrite He', Hr, Hs.
Qed.

Lemma short_sleeps_incr (st st' : fstate) :
  short_sleeps st → retries st < 5 →
  enabled (rot st') = true → retries st' = retries st + 1 →
  slept st' = slept st →
  short_sleeps st'.
Proof.
  intros (He & H0 & Hf & Hl) Hlt He' Hr Hs. unfold short_sleeps.
  rewrite He', Hr, Hs. split_and!; try done; lia.
Qed.

Lemma async_short_sleeps (env : attempt_env) (st : fstate) :
  short_sleeps st → retries st < 5 → short_sleeps (async_attempt env st).1.
Proof.
  intros HI Hlt. rewrite async_entered. cbv zeta.
  destruct (entered_spec (record_request md5_int (env_now env)) st
              (enabled_record_request md5_int (env_now env)))
    as (Hr & Hs & _ & He & _).
  revert Hr Hs He. generalize (entered (record_request md5_int (env_now env)) st).
  intros st1 Hr Hs He.
  assert (He1 : enabled (rot st1) = true) by (rewrite He; apply HI).
  assert (H0 : 0 ≤ retries st) by apply HI.
  unfold async_sleep, async_except, rotate_if_enabled. rewrite He1.
  repeat case_match; cbn [fst];
    first [ solve [apply (short_sleeps_same st); [done|..]; cbn;
                   by rewrite ?Hr, ?Hs]
          | solve [apply (short_sleeps_incr st); [done|done|..]; cbn;
                   by rewrite ?Hr, ?Hs]
          | solve [eapply (short_sleeps_snoc st);
                   [idtac|done|done|cbn; done|cbn; by rewrite ?Hr
                   |cbn; by rewrite ?Hs]; lia] ].
Qed.

Lemma sync_short_sleeps (env : attempt_env) (st : fstate) :
  short_sleeps st → retries st < 5 → short_sleeps (sync_attempt env st).1.
Proof.
  intros HI Hlt. rewrite sync_entered. cbv zeta.
  destruct (entered_spec
              (λ r, fst (update_env_proxies md5_int (env_now env)
                           (increment_request_count r))) st
              (enabled_record_request md5_int (env_now env)))
    as (Hr & Hs & _ & He & _).
  revert Hr Hs He.
  generalize (entered (λ r, fst (update_env_proxies md5_int (env_now env)
                                   (increment_request_count r))) st).
  intros st1 Hr Hs He.
  assert (He1 : enabled (rot st1) = true) by (rewrite He; apply HI).
  assert (H0 : 0 ≤ retries st) by apply HI.
  assert (He2 : ∀ now, enabled (fst (update_env_proxies md5_int now
                                       (rotate (rot st1)))) = true).
  { intros now. unfold update_env_proxies.
    by rewrite enabled_get_proxies, enabled_rotate. }
  unfold sync_sleep, sync_except, rotate_if_enabled. rewrite He1.
  repeat case_match; cbn [fst];
    first [ lia
          | solve [apply (short_sleeps_same st); [done|..]; cbn;
                   by rewrite ?Hr, ?Hs, ?He2]
          | solve [apply (short_sleeps_incr st); [done|done|..]; cbn;
                   by rewrite ?Hr, ?Hs, ?He2]
          | solve [eapply (short_sleeps_snoc st);
                   [idtac|done|done|cbn; by rewrite ?He2|cbn; by rewrite ?Hr
                   |cbn; by rewrite ?Hs]; lia] ].
Qed.

(** X18. With the proxy enabled neither retry loop waits out a rate limit:
    whatever the replies are, a call sleeps at most five times and never
    longer than 15 seconds at a time. *)
Theorem enabled_sleeps_short (w : world) (r : ProxyRotator) :
  enabled r = true →
  (∃ st res, fetch_with_retries 6 5 w r = Some (st, res)
     ∧ Forall (λ d, 0 ≤ d ≤ 15) (slept st) ∧ (length (slept st) ≤ 5)%nat)
  ∧ (∃ st res, github_api 6 5 w r = Some (st, res)
       ∧ Forall (λ d, 0 ≤ d ≤ 15) (slept st) ∧ (length (slept st) ≤ 5)%nat).
Proof.
  intros He.
  assert (H0 : short_sleeps (start r)).
  { unfold short_sleeps. cbn. split_and!; first [done | constructor]. }
  split.
  - destruct (run_loop_total (async_benign py_int) async_attempt "" w true
                (async_attempt_ok py_int md5_int) 6 (start r))
      as (st & res & E & _); [done|done|cbn; lia|cbn; lia|].
    exists st, res. split; [exact E|].
    destruct (run_loop_keeps short_sleeps async_attempt "" 5 w
                async_short_sleeps 6 _ _ _ H0 E) as (_ & ? & ? & ?).
    split; [done|lia].
  - destruct (run_loop_total (sync_benign py_int) sync_attempt None w true
                (sync_attempt_ok py_int md5_int) 6 (start r))
      as (st & res & E & _); [done|done|cbn; lia|cbn; lia|].
    exists st, res. split; [exact E|].
    destruct (run_loop_keeps short_sleeps sync_attempt None 5 w
                sync_short_sleeps 6 _ _ _ H0 E) as (_ & ? & ? & ?).
    split; [done|lia].
Qed.

Lemma async_disabled (r : ProxyRotator) (env : attempt_env) (st : fstate) :
  enabled r = false → rot st = r → rot (async_attempt env st).1 = r.
Proof.
  intros He HI. rewrite async_entered. cbv zeta.
  destruct (entered_spec (record_request md5_int (env_now env)) st
              (enabled_record_request md5_int (env_now env)))
    as (_ & _ & _ & _ & Hrot).
  rewrite HI in Hrot. specialize (Hrot He).
  revert Hrot. generalize (entered (record_request md5_int (env_now env)) st).
  intros st1 Hrot.
  unfold async_sleep, async_except, rotate_if_enabled. rewrite Hrot, He.
  by repeat case_match.
Qed.

Lemma sync_disabled (r : ProxyRotator) (env : attempt_env) (st : fstate) :
  enabled r = false → rot st = r → rot (sync_attempt env st).1 = r.
Proof.
  intros He HI. rewrite sync_entered. cbv zeta.
  destruct (entered_spec
              (λ r, fst (update_env_proxies md5_int (env_now env)
                           (increment_request_count r))) st
              (enabled_record_request md5_int (env_now env)))
    as (_ & _ & _ & _ & Hrot).
  rewrite HI in Hrot. specialize (Hrot He).
  revert Hrot.
  generalize (entered (λ r, fst (update_env_proxies md5_int (env_now env)
                                   (increment_request_count r))) st).
  intros st1 Hrot.
  unfold sync_sleep, sync_except, rotate_if_enabled. rewrite Hrot, He.
  by repeat case_match.
Qed.

(** X19. Without a configured proxy the rotator is never touched: a call of
    either retry loop, and a diff fetch of [get_with_retries], leave it as
    it was, whatever the replies are. *)
Theorem disabled_rotator_untouched (w : world) (r : ProxyRotator)
  (token : option string) (token_valid : bool) (now : Z) (rep : reply) :
  enabled r = false →
  (∃ st res, fetch_with_retries 6 5 w r = Some (st, res) ∧ rot st = r)
  ∧ (∃ st res, github_api 6 5 w r = Some (st, res) ∧ rot st = r)
  ∧ (get_with_retries md5_int token token_valid now (Some r) rep).1 = Some r.
Proof.
  intros He. split_and!.
  - destruct (run_loop_total (async_benign py_int) async_attempt "" w false
                (async_attempt_ok py_int md5_int) 6 (start r))
      as (st & res & E & _); [done|done|cbn; lia|cbn; lia|].
    exists st, res. split; [exact E|].
    apply (run_loop_keeps (λ st, rot st = r) async_attempt "" 5 w
             (λ env st HI _, async_disabled r env st He HI) 6 (start r) _ _ eq_refl E).
  - destruct (run_loop_total (sync_benign py_int) sync_attempt None w false
                (sync_attempt_ok py_int md5_int) 6 (start r))
      as (st & res & E & _); [done|done|cbn; lia|cbn; lia|].
    exists st, res. split; [exact E|].
    apply (run_loop_keeps (λ st, rot st = r) sync_attempt None 5 w
             (λ env st HI _, sync_disabled r env st He HI) 6 (start r) _ _ eq_refl E).
  - unfold get_with_retries. rewrite He. by repeat case_match.
Qed.

End FetchMore.

Lemma fetch_returns_first_ok_witness :
  ∃ st, Fetch.fetch_with_retries Sample.py_int Sample.md5_int 6 5
          Sample.world_flaky Sample.proxy_rotator = Some (st, Ret "diff")
    ∧ Fetch.attempts st = 3%nat
    ∧ Fetch.slept st = [3; 6].
Proof.
  apply (fetch_returns_first_ok Sample.py_int Sample.md5_int Sample.world_flaky
           Sample.proxy_rotator 2
           (Fetch.mkResponse 200 ∅ (Ret "diff") None) "diff").
  - lia.
  - intros i Hi. unfold transient, Sample.world_flaky.
    destruct (Nat.ltb_spec i 2) as [_|?]; [|lia]. cbn. by right.
  - reflexivity.
  - reflexivity.
  - reflexivity.
Defined.

Lemma persistent_failure_gives_up_witness :
  let w : Fetch.world :=
    λ _, Fetch.mkEnv (Fetch.Responds (Fetch.mkResponse 503 ∅ (Ret "") None))
           1700000000 in
  (∃ st, Fetch.fetch_with_retries Sample.py_int Sample.md5_int 6 5 w
           Sample.plain_rotator = Some (st, Ret "")
     ∧ Fetch.attempts st = 5%nat ∧ Fetch.slept st = [3; 6; 9; 12; 15])
  ∧ (∃ st, Fetch.github_api Sample.py_int Sample.md5_int 6 5 w
             Sample.plain_rotator = Some (st, Ret None)
       ∧ Fetch.attempts st = 5%nat ∧ Fetch.slept st = [3; 6; 9; 12; 15]).
Proof.
  intros w.
  apply (persistent_failure_gives_up Sample.py_int Sample.md5_int w
           Sample.plain_rotator).
  intros i. cbn. by right.
Defined.

Lemma enabled_sleeps_short_witness :
  (∃ st res, Fetch.fetch_with_retries Sample.py_int Sample.md5_int 6 5
               Sample.world_404 Sample.proxy_rotator = Some (st, res)
     ∧ Forall (λ d, 0 ≤ d ≤ 15) (Fetch.slept st)
     ∧ (length (Fetch.slept st) ≤ 5)%nat)
  ∧ (∃ st res, Fetch.github_api Sample.py_int Sample.md5_int 6 5
                 Sample.world_404 Sample.proxy_rotator = Some (st, res)
       ∧ Forall (λ d, 0 ≤ d ≤ 15) (Fetch.slept st)
       ∧ (length (Fetch.slept st) ≤ 5)%nat).
Proof.
  apply (enabled_sleeps_short Sample.py_int Sample.md5_int Sample.world_404
           Sample.proxy_rotator).
  reflexivity.
Defined.

Lemma disabled_rotator_untouched_witness :
  (∃ st res, Fetch.fetch_with_retries Sample.py_int Sample.md5_int 6 5
               Sample.world_flaky Sample.plain_rotator = Some (st, res)
     ∧ Fetch.rot st = Sample.plain_rotator)
  ∧ (∃ st res, Fetch.github_api Sample.py_int Sample.md5_int 6 5
                 Sample.world_flaky Sample.plain_rotator = Some (st, res)
       ∧ Fetch.rot st = Sample.plain_rotator)
  ∧ (Fetch.get_with_retries Sample.md5_int None true 1700000000
       (Some Sample.plain_rotator) (Fetch.Fails NetworkError)).1
    = Some Sample.plain_rotator.
Proof.
  apply (disabled_rotator_untouched Sample.py_int Sample.md5_int
           Sample.world_flaky Sample.plain_rotator None true 1700000000
           (Fetch.Fails NetworkError)).
  reflexivity.
Defined.

(** ** Session ids *)

Lemma string_length_app (a b : string) :
  String.length (a +:+ b) = (String.length a + String.length b)%nat.
Proof.
  induction a as [|c a IH]; [done|]. rewrite append_cons. cbn. by rewrite IH.
Qed.

Lemma pretty_N_go_chars (p : ascii → bool) (x : N) (s : string) :
  (∀ d, p (pretty_N_char d) = false) →
  has_char p s = false → has_char p (pretty_N_go x s) = false.
Proof.
  intros Hp. revert s. induction (N.lt_wf_0 x) as [x _ IH]; intros s Hs.
  destruct (decide (x = 0%N)) as [-> | Hx]; [by rewrite pretty_N_go_0|].
  rewrite pretty_N_go_step by lia.
  apply IH; [apply N.div_lt; lia|]. cbn [has_char]. by rewrite Hp, Hs.
Qed.

Lemma pretty_N_go_length (k : nat) (x : N) :
  (0 < x < 10 ^ N.of_nat k)%N →
  (String.length (pretty_N_go x "") ≤ k)%nat.
Proof.
  revert x. induction k as [|k IH]; intros x [H0 Hk].
  - cbn in Hk. lia.
  - rewrite pretty_N_go_step by done.
    destruct (decide (x `div` 10 = 0)%N) as [E | NE].
    + rewrite E, pretty_N_go_0. cbn. lia.
    + rewrite pretty_N_go_app, string_length_app. cbn [String.length].
      rewrite Nat.add_1_r. apply le_n_S.
      apply IH. split; [by apply N.neq_0_lt_0|].
      apply N.Div0.div_lt_upper_bound.
      replace (N.of_nat (S k)) with (N.succ (N.of_nat k)) in Hk by lia.
      by rewrite N.pow_succ_r' in Hk.
Qed.

Lemma zeros_spec (p : ascii → bool) (n : nat) :
  p "0"%char = false →
  String.length (PyStr.zeros n) = n ∧ has_char p (PyStr.zeros n) = false.
Proof.
  intros Hp. induction n as [|n [IH1 IH2]]; [done|]. cbn. by rewrite IH1, Hp, IH2.
Qed.

(** The zero-padded decimal text of a number below [10 ^ w] has exactly [w]
    characters, all of them digits. *)
Lemma zfill_str_width (w : nat) (z : Z) :
  0 ≤ z < 10 ^ Z.of_nat w → (0 < w)%nat →
  String.length (PyStr.zfill w (PyStr.str_of_int z)) = w
  ∧ has_char (λ c, negb (is_digit c)) (PyStr.zfill w (PyStr.str_of_int z)) = false.
Proof.
  intros [Hz Hw] Hpos.
  assert (Hd : ∀ d, negb (is_digit (pretty_N_char d)) = false).
  { intros d. unfold pretty_N_char. by repeat case_match. }
  destruct (zeros_spec (λ c, negb (is_digit c)) (w - 1) eq_refl) as [Hl1 Hc1].
  unfold PyStr.str_of_int, pretty, pretty_Z.
  destruct z as [|q|q]; [| |lia].
  - change ("0"%string) with (String "0" "").
    rewrite zfill_unsigned by discriminate.
    rewrite string_length_app, has_char_app. cbn [String.length].
    rewrite Hl1, Hc1. split; [lia|done].
  - change (pretty q) with (pretty (N.pos q)).
    unfold pretty, pretty_N. cbn [decide]. 
    destruct (decide (N.pos q = 0%N)) as [?|_]; [done|].
    assert (Hlen : (String.length (pretty_N_go (N.pos q) "") ≤ w)%nat).
    { apply pretty_N_go_length. split; [lia|].
      apply N2Z.inj_lt. rewrite N2Z.inj_pow, nat_N_Z. exact Hw. }
    pose proof (pretty_N_go_chars (λ c, negb (is_digit c)) (N.pos q) ""
                  Hd eq_refl) as Hdig.
    destruct (pretty_N_go (N.pos q) "") as [|c s'] eqn:E.
    + pose proof (dec_val_pretty_N_go (N.pos q)) as Hv. rewrite E in Hv.
      discriminate.
    + destruct (pretty_N_go_head (N.pos q) "" c s' ltac:(lia) E) as [Hp Hm].
      rewrite zfill_unsigned by done.
      destruct (zeros_spec (λ c, negb (is_digit c))
                  (w - String.length (String c s')) eq_refl) as [Hl2 Hc2].
      rewrite string_length_app, has_char_app, Hl2, Hc2, Hdig.
      split; [lia|done].
Qed.

(** X20. A session id is always eight decimal digits: the zero-padded text
    of the repository hash plus the rotation index plus the random offset,
    modulo [10 ^ 8]. *)
Theorem session_id_eight_digits (md5_int : string → Z) (now : Z)
  (r : Rotator.ProxyRotator) :
  let sid := (Rotator._generate_new_session_id md5_int now r).2 in
  String.length sid = 8%nat
  ∧ has_char (λ c, negb (is_digit c)) sid = false
  ∧ Z.of_N (dec_val 0 sid)
    = (md5_int (Rotator.repo_full_name r) + Rotator.rotation_count r
       + offset_after r now) mod 100000000.
Proof.
  cbv zeta. unfold Rotator._generate_new_session_id, offset_after. cbn [snd].
  set (r1 := match Rotator.random_offset r with Some _ => r | None => _ end).
  assert (Hn : Rotator.repo_full_name r1 = Rotator.repo_full_name r)
    by (subst r1; by destruct (Rotator.random_offset r)).
  assert (Hc : Rotator.rotation_count r1 = Rotator.rotation_count r)
    by (subst r1; by destruct (Rotator.random_offset r)).
  assert (Ho : default 0 (Rotator.random_offset r1)
               = default (now mod 1000000) (Rotator.random_offset r))
    by (subst r1; destruct (Rotator.random_offset r) eqn:E; rewrite ?E;
        reflexivity).
  rewrite Hc, Ho.
  set (combined := (_ + _ + _) mod 100000000).
  assert (Hb : 0 ≤ combined < 100000000) by (apply Z.mod_pos_bound; lia).
  destruct (zfill_str_width 8 combined) as [Hl Hd]; [by cbn|lia|].
  split_and!; [done|done|].
  rewrite dec_val_zfill_str by lia. lia.
Qed.

(** ** The page cache, once complete *)

Section PageCacheMore.

Import PageCache.

Context {Item : Type}.

(** X21. When the cache directory records the page count and holds a file
    for every page, the listing is assembled from the files alone: the
    replies of the network do not matter, the directory is left as it is,
    and a page file that cannot be read contributes nothing. *)
Theorem complete_cache_offline (dir : cache Item) (last_page : Z)
  (disc : discovery Item) (w : Z → nat → page_reply Item) :
  meta dir = Some last_page →
  (∀ p, 1 ≤ p ≤ last_page → is_Some (pages dir !! p)) →
  get_all_pulls_with_official_github_api Item (Some dir) disc w
  = Ret (Some dir,
         Assembled (concat (read_page Item (pages dir) <$> page_range last_page))).
Proof.
  intros Hm Hall. unfold get_all_pulls_with_official_github_api.
  change (Some dir ≫= meta) with (meta dir). rewrite Hm.
  unfold fetch_and_combine.
  assert (E : List.filter (λ p, negb (bool_decide (p ∈ dom (pages dir))))
                (page_range last_page) = []).
  { destruct (List.filter _ _) as [|p l] eqn:E; [done|]. exfalso.
    assert (Hp : p ∈ List.filter (λ p, negb (bool_decide (p ∈ dom (pages dir))))
                   (page_range last_page)) by (rewrite E; apply list_elem_of_here).
    apply elem_of_pages_to_fetch in Hp as [Hr Hn].
    destruct (Hall p Hr) as [x Hx]. congruence. }
  rewrite E. cbn [fetch_into_cache fold_left]. by destruct dir.
Qed.

End PageCacheMore.

Lemma complete_cache_offline_witness :
  let dir : PageCache.cache Z :=
    PageCache.mkCache (Some 2) {[ 1 := Some [10; 11]; 2 := None ]} in
  PageCache.get_all_pulls_with_official_github_api Z (Some dir)
    PageCache.DiscFault (λ _ _, PageCache.PageFault)
  = Ret (Some dir, PageCache.Assembled [10; 11]).
Proof.
  intros dir.
  rewrite (complete_cache_offline dir 2 PageCache.DiscFault
             (λ _ _, PageCache.PageFault)).
  - reflexivity.
  - reflexivity.
  - intros p Hp. assert (p = 1 ∨ p = 2) as [-> | ->] by lia; by eexists.
Defined.

(** ** [call_api] *)

Section CallApiProps.

Import Rotator CallApi.

Context {V : Type}.
Variable md5_int : string -> Z.
Variable w : nat -> api_env V.
Variable rate_limit : nat -> result Z.

Abbreviation attempts_from := (CallApi.attempts_from V md5_int w rate_limit).
Abbreviation call_api := (CallApi.call_api V md5_int w rate_limit).

Lemma enabled_rotate_and_update (now : Z) (st : cstate) :
  enabled (rot (rotate_and_update md5_int now st)) = enabled (rot st).
Proof.
  unfold rotate_and_update, update_env_proxies. cbn [rot set_rot].
  by rewrite enabled_get_proxies, enabled_rotate.
Qed.

Lemma attempts_from_spec (fuel n : nat) (attempt : Z) (st : cstate) :
  attempt + Z.of_nat n = 5 →
  polls st = 0%nat →
  (enabled (rot st) = true ∨ ∀ i, api_outcome (w i) ≠ Forbidden) →
  ∃ st' res,
    attempts_from fuel 5 n attempt st = Some (st', Ret res)
    ∧ (calls st' ≤ calls st + n)%nat
    ∧ polls st' = 0%nat
    ∧ ∀ v, res = Some v
           ↔ ∃ k, (k < n)%nat ∧ api_outcome (w (calls st + k)%nat) = Value v
                  ∧ ∀ i, (i < k)%nat → retried (w (calls st + i)%nat).
Proof.
  revert attempt st. induction n as [|n IH]; intros attempt st Ha Hp Hen.
  { exists st, None. split_and!; [done|lia|done|].
    intros v. split; [done|]. intros (k & ? & _). lia. }
  cbn [CallApi.attempts_from]. cbv zeta.
  assert (Hnext : ∀ st1 : cstate,
            calls st1 = S (calls st) → polls st1 = 0%nat →
            enabled (rot st1) = enabled (rot st) →
            retried (w (calls st)) →
            ∃ st' res,
              attempts_from fuel 5 n (attempt + 1) st1 = Some (st', Ret res)
              ∧ (calls st' ≤ calls st + S n)%nat
              ∧ polls st' = 0%nat
              ∧ ∀ v, res = Some v
                     ↔ ∃ k, (k < S n)%nat
                            ∧ api_outcome (w (calls st + k)%nat) = Value v
                            ∧ ∀ i, (i < k)%nat → retried (w (calls st + i)%nat)).
  { intros st1 Hc Hp1 He1 Hre.
    destruct (IH (attempt + 1) st1) as (st' & res & E & Hcalls & Hpolls & Hres);
      [lia|done|by rewrite He1|].
    exists st', res. split_and!; [done|lia|done|].
    intros v. rewrite Hres. rewrite Hc. split.
    - intros (k & Hk & Hv & Hi). exists (S k). split_and!; [lia| |].
      + by replace (calls st + S k)%nat with (S (calls st) + k)%nat by lia.
      + intros [|i] Hlt; [by rewrite Nat.add_0_r|].
        replace (calls st + S i)%nat with (S (calls st) + i)%nat by lia.
        apply Hi. lia.
    - intros ([|k] & Hk & Hv & Hi).
      + rewrite Nat.add_0_r in Hv. destruct Hre as [Hre | (e & Hre & _)];
          congruence.
      + exists k. split_and!; [lia| |].
        * by replace (S (calls st) + k)%nat with (calls st + S k)%nat by lia.
        * intros i Hlt.
          replace (S (calls st) + i)%nat with (calls st + S i)%nat by lia.
          apply Hi. lia. }
  assert (Hstop : ∀ st1 : cstate,
            calls st1 = S (calls st) → polls st1 = 0%nat →
            (n = 0%nat ∨ api_outcome (w (calls st)) = Raises HTTP404NotFoundError) →
            (∀ v, api_outcome (w (calls st)) ≠ Value v) →
            ∃ st' res,
              Some (st1, Ret (@None V)) = Some (st', Ret res)
              ∧ (calls st' ≤ calls st + S n)%nat
              ∧ polls st' = 0%nat
              ∧ ∀ v, res = Some v
                     ↔ ∃ k, (k < S n)%nat
                            ∧ api_outcome (w (calls st + k)%nat) = Value v
                            ∧ ∀ i, (i < k)%nat → retried (w (calls st + i)%nat)).
  { intros st1 Hc Hp1 Hwhy Hnv. exists st1, None.
    split_and!; [done|lia|done|]. intros v. split; [done|].
    intros ([|k] & Hk & Hv & Hi).
    - rewrite Nat.add_0_r in Hv. by destruct (Hnv v).
    - destruct Hwhy as [-> | H404]; [lia|].
      specialize (Hi 0%nat ltac:(lia)). rewrite Nat.add_0_r in Hi.
      destruct Hi as [Hi | (e & Hi & Hne)]; congruence. }
  destruct (api_outcome (w (calls st))) as [v| |e] eqn:Eo.
  - exists (called st), (Some v). split_and!; [done|cbn; lia|done|].
    intros v'. split.
    + intros [= <-]. exists 0%nat. rewrite Nat.add_0_r.
      split_and!; [lia|done|]. intros i ?. lia.
    + intros ([|k] & Hk & Hv & Hi).
      * rewrite Nat.add_0_r in Hv. congruence.
      * specialize (Hi 0%nat ltac:(lia)). rewrite Nat.add_0_r in Hi.
        destruct Hi as [Hi | (e & Hi & _)]; congruence.
  - destruct Hen as [Hen | Hno]; [|by destruct (Hno (calls st))].
    cbn [called rot]. rewrite Hen.
    apply Hnext; [done|done| |by left].
    cbn. by rewrite enabled_get_proxies, enabled_rotate.
  - assert (Hne : ∀ v : V, Raises e ≠ Value v) by done.
    destruct (Z.ltb_spec attempt (5 - 1)) as [Hlt | Hge].
    + destruct e;
        try (apply Hnext; [done|done|done|right; eexists; by split]).
      * apply Hnext; [| | |right; eexists; by split].
        -- by destruct (enabled (rot (called st))).
        -- by destruct (enabled (rot (called st))).
        -- cbn [sleep rot]. destruct (enabled (rot (called st))) eqn:E; [|done].
           by rewrite enabled_rotate_and_update.
      * apply Hstop; [done|done|by right|done].
    + assert (n = 0)%nat by lia.
      destruct e; try (apply Hstop; [done|done|by left|done]).
      apply Hstop; [| |by left|done];
        by destruct (enabled (rot (called st))).
Qed.

(** X22. With a proxy configured, or when no call is answered 403,
    [call_api] returns after at most five calls of [func] without raising
    and without polling the rate limit; it returns a value exactly when one
    of the five calls gives one and no call before it raised the 404, and
    then it is the first one. *)
Theorem call_api_total (fuel : nat) (r : ProxyRotator) :
  enabled r = true ∨ (∀ i, api_outcome (w i) ≠ Forbidden) →
  ∃ st res,
    call_api fuel r = Some (st, Ret res)
    ∧ (calls st ≤ 5)%nat
    ∧ polls st = 0%nat
    ∧ ∀ v, res = Some v
           ↔ ∃ k, (k < 5)%nat ∧ api_outcome (w k) = Value v
                  ∧ ∀ i, (i < k)%nat → retried (w i).
Proof.
  intros Hen. unfold CallApi.call_api.
  apply (attempts_from_spec fuel 5 0); [done|done|].
  destruct Hen as [Hen | Hno]; [left|by right]. cbn [rot]. rewrite Hen.
  unfold update_env_proxies. by rewrite enabled_get_proxies.
Qed.

End CallApiProps.

Lemma call_api_total_witness :
  let w : nat → CallApi.api_env Z :=
    λ i, CallApi.mkApiEnv
           (if (i <? 2)%nat then CallApi.Forbidden else CallApi.Value 7)
           1700000000 in
  ∃ st,
    CallApi.call_api Z Sample.md5_int w (λ _, Ret 0) 0 Sample.proxy_rotator
    = Some (st, Ret (Some 7))
    ∧ (CallApi.calls st ≤ 5)%nat.
Proof.
  intros w.
  destruct (call_api_total Sample.md5_int w (λ _, Ret 0) 0 Sample.proxy_rotator)
    as (st & res & E & Hc & _ & Hres); [by left|].
  exists st. split; [|exact Hc]. rewrite E. do 3 f_equal.
  apply Hres. exists 2%nat. split_and!; [lia|reflexivity|].
  intros i Hi. left. unfold w. cbn [CallApi.api_outcome].
  destruct (Nat.ltb_spec i 2) as [_|?]; [reflexivity|lia].
Defined.

(** ** The listing of pull requests *)

Section PrintPullsProps.

Import Pipeline PrintPulls.

Lemma process_single_pr_number (w : pr_world) (repo_name : string)
  (pull result : Pull) :
  _process_single_pr w repo_name pull = Ret result →
  number result = number pull ∧ ∃ issues, resolved_issues result = Some issues.
Proof.
  unfold _process_single_pr. repeat case_match; intros [= <-]; eauto.
Qed.

Lemma process_single_pr_returns (w : pr_world) (repo_name : string) (pull : Pull) :
  length (PyStr.split "/" repo_name) = 2%nat →
  ∃ result, _process_single_pr w repo_name pull = Ret result.
Proof.
  unfold _process_single_pr. intros Hs.
  destruct (PyStr.split "/" repo_name) as [|?[|?[|??]]]; try done.
  repeat case_match; eauto.
Qed.

Lemma log_all_pulls_numbers_fold (w : pr_world) (repo_name : string)
  (todo : list Pull) (f : out_file) :
  length (PyStr.split "/" repo_name) = 2%nat →
  pr_data_list
    (fold_left
       (λ f pull,
          match _process_single_pr w repo_name pull with
          | Ret result => f ++ [Some result]
          | Raise _ => f
          end) todo f)
  = pr_data_list f ++ (number <$> todo).
Proof.
  intros Hs. revert f. induction todo as [|p todo IH]; intros f.
  - by rewrite app_nil_r.
  - cbn [fold_left]. rewrite IH.
    destruct (process_single_pr_returns w repo_name p Hs) as [result E].
    rewrite E. destruct (process_single_pr_number _ _ _ _ E) as [Hn _].
    unfold pr_data_list. rewrite omap_app. cbn. rewrite Hn.
    by rewrite <- app_assoc.
Qed.

Lemma elem_of_to_process (skip : gset Z) (pulls : list Pull) (p : Pull) :
  p ∈ List.filter (λ p, negb (bool_decide (number p ∈ skip))) pulls
  ↔ p ∈ pulls ∧ number p ∉ skip.
Proof.
  rewrite list_elem_of_In, filter_In, <- list_elem_of_In.
  by rewrite negb_true_iff, bool_decide_eq_false.
Qed.

(** X26. Running [main] of [print_pulls.py] again on the same listing
    appends nothing: every pull of the listing has a line after the first
    run, whatever its issue extraction came to, and is skipped by the
    second. *)
Theorem print_pulls_resume (w w' : pr_world) (repo_name : string)
  (pulls : list Pull) (f f' : out_file) :
  main w (Ret tt) repo_name pulls f = Ret f' →
  main w' (Ret tt) repo_name pulls f' = Ret f'.
Proof.
  unfold main.
  destruct (PyStr.split "/" repo_name) as [|a[|b[|??]]] eqn:Es;
    try (intros [= <-]; done).
  intros [= <-]. f_equal. unfold log_all_pulls at 1. cbv zeta.
  assert (Hs : length (PyStr.split "/" repo_name) = 2%nat) by by rewrite Es.
  match goal with
  | |- fold_left _ ?l _ = _ => assert (El : l = []); [|by rewrite El]
  end.
  destruct (List.filter _ pulls) as [|p l] eqn:E; [done|]. exfalso.
  assert (Hp : p ∈ List.filter
                 (λ p, negb (bool_decide
                    (number p ∈ (list_to_set
                       (pr_data_list
                          (log_all_pulls w repo_name pulls (pr_data_list f) f))
                       : gset Z)))) pulls)
    by (rewrite E; apply list_elem_of_here).
  apply elem_of_to_process in Hp as [Hin Hnot]. apply Hnot.
  rewrite elem_of_list_to_set. unfold log_all_pulls.
  rewrite log_all_pulls_numbers_fold by done.
  destruct (decide (number p ∈ (list_to_set (pr_data_list f) : gset Z)))
    as [Hold | Hnew].
  - apply elem_of_app. left. by apply elem_of_list_to_set in Hold.
  - apply elem_of_app. right. apply list_elem_of_fmap. exists p. split; [done|].
    by apply elem_of_to_process.
Qed.

(** X27. A pull whose issue extraction raises, or for which no repository
    object could be made in three attempts, is written with an empty issue
    list; [is_valid_pull] of the harvest rejects such a line. *)
Theorem failed_extraction_recorded_empty (w : pr_world) (repo_name : string)
  (pulls : list Pull) (f f' : out_file) (p : Pull) :
  main w (Ret tt) repo_name pulls f = Ret f' →
  length (PyStr.split "/" repo_name) = 2%nat →
  p ∈ pulls → number p ∉ pr_data_list f →
  (∃ e, issues_of w p = Raise e) ∨ (∀ a, ∃ e, repo_attempt w p a = Raise e) →
  Some (set_resolved [] p) ∈ f'
  ∧ is_valid_pull (set_resolved [] p) = false.
Proof.
  intros Hmain Hs Hin Hnew Hfail. split.
  2:{ unfold is_valid_pull. cbn. by destruct (merged_at p). }
  assert (Hp : _process_single_pr w repo_name p = Ret (set_resolved [] p)).
  { unfold _process_single_pr.
    destruct (PyStr.split "/" repo_name) as [|?[|?[|??]]]; try done.
    destruct Hfail as [[e He] | Hrepo].
    - rewrite He. by destruct (create_repo w p 3 0 []).1.
    - cbn. destruct (Hrepo 0%nat) as [e0 ->]. cbn.
      destruct (Hrepo 1%nat) as [e1 ->]. cbn.
      destruct (Hrepo 2%nat) as [e2 ->]. done. }
  revert Hmain. unfold main.
  destruct (PyStr.split "/" repo_name) as [|?[|?[|??]]]; try done.
  intros [= <-]. unfold log_all_pulls. cbv zeta.
  assert (Htodo : p ∈ List.filter
                    (λ p, negb (bool_decide
                       (number p ∈ (list_to_set (pr_data_list f) : gset Z))))
                    pulls).
  { apply elem_of_to_process. split; [done|]. by rewrite elem_of_list_to_set. }
  revert Htodo. generalize (List.filter
                    (λ p, negb (bool_decide
                       (number p ∈ (list_to_set (pr_data_list f) : gset Z))))
                    pulls).
  intros todo. revert f Hnew. induction todo as [|q todo IH] using rev_ind;
    intros f Hnew; [by intros ?%elem_of_nil|].
  rewrite fold_left_app. cbn [fold_left].
  intros [H | ->%list_elem_of_singleton]%elem_of_app.
  - specialize (IH f Hnew H).
    destruct (_process_single_pr w repo_name q); [|done].
    apply elem_of_app. by left.
  - rewrite Hp. apply elem_of_app. right. apply list_elem_of_here.
Qed.

End PrintPullsProps.

Lemma print_pulls_resume_witness :
  let w := PrintPulls.mkPrWorld (λ _ _, Ret tt) (λ _, Raise NetworkError) in
  let f' := [Some (PrintPulls.set_resolved [] Sample.pull5)] in
  PrintPulls.main w (Ret tt) "o/r" [Sample.pull5] [] = Ret f'
  ∧ PrintPulls.main w (Ret tt) "o/r" [Sample.pull5] f' = Ret f'.
Proof.
  intros w f'. split; [reflexivity|].
  apply (print_pulls_resume w w "o/r" [Sample.pull5] [] f'). reflexivity.
Defined.

Lemma failed_extraction_recorded_empty_witness :
  let w := PrintPulls.mkPrWorld (λ _ _, Ret tt) (λ _, Raise NetworkError) in
  Some (PrintPulls.set_resolved [] Sample.pull5)
    ∈ [Some (PrintPulls.set_resolved [] Sample.pull5)]
  ∧ Pipeline.is_valid_pull (PrintPulls.set_resolved [] Sample.pull5) = false.
Proof.
  intros w.
  apply (failed_extraction_recorded_empty w "o/r" [Sample.pull5] []
           [Some (PrintPulls.set_resolved [] Sample.pull5)] Sample.pull5).
  - reflexivity.
  - reflexivity.
  - apply list_elem_of_here.
  - apply not_elem_of_nil.
  - left. by eexists.
Defined.

(** ** The problem statement and the hints *)

Section StatementProps.

Import Statement.

Variable strptime : string -> option Z.

Abbreviation take_hints := (Statement.take_hints strptime).
Abbreviation over_issues := (Statement.over_issues strptime).
Abbreviation extract_problem_statement_and_hints :=
  (Statement.extract_problem_statement_and_hints strptime).

Ltac bind_step :=
  cbn -[Statement.take_hints Statement.over_issues].

Lemma over_issues_text (w : world) (issues : list string) (text text' : string)
  (hs hs' : list (option string)) :
  over_issues w issues text hs = Ret (text', hs') →
  text' = text +:+ String.concat "" (issue_text w <$> issues)
  ∧ ∀ n, n ∈ issues → ∃ i, issue_of w n = Ret i.
Proof.
  revert text hs. induction issues as [|n issues IH]; intros text hs.
  - intros [= <- <-]. split; [by rewrite append_nil_r|].
    by intros ? ?%elem_of_nil.
  - cbn [Statement.over_issues].
    assert (Hcons : ∀ (block : string) (i : option Issue) h,
              issue_of w n = Ret i → issue_text w n = block →
              over_issues w issues (text +:+ block) h = Ret (text', hs') →
              text' = text +:+ String.concat "" (issue_text w <$> n :: issues)
              ∧ ∀ m, m ∈ n :: issues → ∃ i, issue_of w m = Ret i).
    { intros block i h Hi Hb E.
      destruct (IH _ _ E) as [-> Hall]. split.
      - cbn [fmap list_fmap]. rewrite Hb.
        destruct issues as [|m issues]; cbn [String.concat fmap list_fmap].
        + by rewrite !append_nil_r.
        + by rewrite append_assoc.
      - intros m [-> | Hm]%elem_of_cons; eauto. }
    destruct (issue_of w n) as [[issue|]|e] eqn:Ei; bind_step; [| |done].
    + assert (Hb : issue_text w n
                   = fmt (title issue) +:+ NL +:+ fmt (body issue) +:+ NL)
        by (unfold issue_text; by rewrite Ei).
      assert (Ht : ∀ h, over_issues w issues
                          (text +:+ fmt (title issue) +:+ NL
                                +:+ fmt (body issue) +:+ NL) h
                        = over_issues w issues (text +:+ issue_text w n) h)
        by (intros h; by rewrite Hb).
      destruct (commits_of w n) as [[[|c0 cs]|]|e]; bind_step; [| | |done].
      * rewrite Ht. by apply (Hcons _ (Some issue)).
      * destruct (strptime (author_date c0)) as [commit_time|]; [|done].
        destruct (comments_of w n) as [[[|c cm]|]|e]; bind_step; [| | |done].
        -- rewrite Ht. by apply (Hcons _ (Some issue)).
        -- destruct (Statement.take_hints _ _ _) as [hints|]; bind_step; [|done].
           rewrite Ht. by apply (Hcons _ (Some issue)).
        -- rewrite Ht. by apply (Hcons _ (Some issue)).
      * rewrite Ht. by apply (Hcons _ (Some issue)).
    + assert (Hb : issue_text w n = "") by (unfold issue_text; by rewrite Ei).
      rewrite <- (append_nil_r text) at 1.
      by apply (Hcons "" None).
Qed.

Lemma concat_empty_iff (l : list string) :
  String.concat "" l = "" ↔ Forall (λ s, s = "") l.
Proof.
  induction l as [|x l IH]; [by split; [constructor|]|].
  destruct l as [|y l].
  - cbn. split; [by repeat constructor|by inversion 1].
  - rewrite concat_cons_nonempty by done. rewrite append_nil_l. split.
    + destruct x; [|done]. rewrite append_nil_l. intros H.
      constructor; [done|]. by apply IH.
    + inversion 1 as [|?? -> Hl]; subst. rewrite append_nil_l. by apply IH.
Qed.

(** X14. When the extraction returns, the problem statement is the titles
    and bodies of the linked issues that could be fetched, each followed by
    a newline, in the order of [resolved_issues]; it is empty exactly when
    none of them could be fetched. *)
Theorem statement_of_fetched_issues (w : world) (pull : Pipeline.Pull)
  (issues : list string) (text hints : string) :
  Pipeline.resolved_issues pull = Some issues →
  extract_problem_statement_and_hints w pull = Ret (text, hints) →
  text = String.concat "" (issue_text w <$> issues)
  ∧ (text = "" ↔ ∀ n, n ∈ issues → issue_of w n = Ret None).
Proof.
  unfold Statement.extract_problem_statement_and_hints,
    Statement.extract_problem_statement_and_hints_with_official_github_api.
  intros -> H.
  destruct (over_issues w issues "" []) as [[t hs]|] eqn:E; [|done].
  cbn in H. destruct (join_hints hs); [|done]. cbn in H. injection H as <- <-.
  destruct (over_issues_text _ _ _ _ _ _ E) as [Ht Hall].
  rewrite append_nil_l in Ht. split; [done|].
  rewrite Ht, concat_empty_iff, Forall_fmap, List.Forall_forall. split.
  - intros H n Hn. specialize (H n (proj1 (list_elem_of_In _ _) Hn)).
    destruct (Hall n Hn) as [[issue|] Hi]; [|done].
    cbn in H. unfold issue_text in H. rewrite Hi in H.
    destruct (fmt (title issue)); discriminate.
  - intros H n Hn%list_elem_of_In. cbn. unfold issue_text. by rewrite (H n Hn).
Qed.

(** X15. The hints of one issue leak nothing from after the first commit:
    they are the bodies of the comments of a leading part of the list, each
    updated before the commit, and the comment after that part, if there is
    one, is not older than the commit. *)
Theorem hints_before_first_commit (commit_time : Z) (comments : list Comment)
  (hs : list (option string)) :
  take_hints commit_time comments = Ret hs →
  ∃ pre post,
    comments = pre ++ post
    ∧ hs = (λ c, get_text (comment_body c)) <$> pre
    ∧ Forall (λ c, ∃ t, strptime (updated_at c) = Some t ∧ t < commit_time) pre
    ∧ match post with
      | [] => True
      | c :: _ => ∃ t, strptime (updated_at c) = Some t ∧ commit_time ≤ t
      end.
Proof.
  revert hs. induction comments as [|c comments IH]; intros hs.
  - intros [= <-]. exists [], []. by split_and!.
  - cbn [Statement.take_hints].
    destruct (strptime (updated_at c)) as [t|] eqn:Et; [|done].
    destruct (Z.ltb_spec t commit_time) as [Hlt | Hge].
    + destruct (take_hints commit_time comments) as [hs'|]; [|done].
      cbn. intros [= <-].
      destruct (IH hs' eq_refl) as (pre & post & -> & -> & Hold & Hnext).
      exists (c :: pre), post. split_and!; [done|done| |done].
      constructor; [eauto|done].
    + intros [= <-]. exists [], (c :: comments). split_and!; [done|done|done|eauto].
Qed.

End StatementProps.

Lemma statement_of_fetched_issues_witness :
  let w := Statement.mkWorld
             (λ _, Ret (Some (Statement.mkIssue (Statement.Text "Title")
                                Statement.Null)))
             (λ _, Ret None) (λ _, Ret None) in
  let text := "Title" +:+ Statement.NL +:+ "None" +:+ Statement.NL in
  text = String.concat "" (issue_text w <$> ["9"])
  ∧ (text = "" ↔ ∀ n, n ∈ ["9"] → Statement.issue_of w n = Ret None).
Proof.
  intros w text.
  apply (statement_of_fetched_issues Sample.strptime w Sample.pull5 ["9"] text "");
    reflexivity.
Defined.

Lemma hints_before_first_commit_witness :
  let c1 := Statement.mkComment "2024-01-01T00:00:00Z" (Statement.Text "a") in
  let c2 := Statement.mkComment "2024-01-03T00:00:00Z" (Statement.Text "b") in
  ∃ pre post,
    [c1; c2; c1] = pre ++ post
    ∧ [Some "a"] = (λ c, Statement.get_text (Statement.comment_body c)) <$> pre
    ∧ Forall (λ c, ∃ t, Sample.strptime (Statement.updated_at c) = Some t
                        ∧ t < 20240102000000) pre
    ∧ match post with
      | [] => True
      | c :: _ => ∃ t, Sample.strptime (Statement.updated_at c) = Some t
                       ∧ 20240102000000 ≤ t
      end.
Proof.
  intros c1 c2.
  apply (hints_before_first_commit Sample.strptime 20240102000000 [c1; c2; c1]
           [Some "a"]).
  reflexivity.
Defined.

(** ** The statement inside the harvest *)

Section HarvestStatement.

Import Pipeline.

Variable strptime : string -> option Z.
Variable lexer_name : string -> option string.

(** X13. When none of the linked issues of a pull can be fetched, the
    harvest unit whose statement comes from
    [extract_problem_statement_and_hints] appends no line to either output
    file, whatever the diff is. *)
Theorem unfetched_issues_emit_nothing (sw : Statement.world)
  (fd : Pull → result string) (cutoff_date : Z)
  (seen_prs successful_instances : gset string) (r : Repo) (pull : Pull)
  (st : run) (issues : list string) :
  resolved_issues pull = Some issues →
  (∀ n, n ∈ issues → Statement.issue_of sw n = Ret None) →
  let w := mkWorld fd (Statement.extract_problem_statement_and_hints strptime sw) in
  let st' := process_single_pr strptime lexer_name w cutoff_date seen_prs
               successful_instances r pull st in
  all_output (fs st') = all_output (fs st) ∧ output (fs st') = output (fs st).
Proof.
  intros Hi Hnone w st'.
  assert (Hst : statement w pull = Ret ("", "")).
  { cbn. unfold Statement.extract_problem_statement_and_hints,
      Statement.extract_problem_statement_and_hints_with_official_github_api.
    rewrite Hi.
    assert (E : ∀ text hs, Statement.over_issues strptime sw issues text hs
                           = Ret (text, hs)).
    { clear Hi. induction issues as [|n l IH]; intros text hs; [done|].
      cbn [Statement.over_issues]. rewrite (Hnone n) by apply list_elem_of_here.
      cbn. apply IH. intros m Hm. apply Hnone. by apply list_elem_of_further. }
    by rewrite E. }
  subst st'. unfold process_single_pr.
  destruct (bool_decide _ || bool_decide _); [done|].
  destruct (negb (is_valid_pull pull)); [done|].
  unfold create_instance. destruct (fetch_diff w pull) as [text|e]; [|done].
  destruct (Classifier.extract_patches _ _ _ _ text) as [[p t] ok].
  rewrite Hst, Hi. cbv beta iota. cbn [created_at].
  destruct (strptime (pull_created_at pull)) as [tm|]; [|by destruct ok].
  destruct (tm >=? cutoff_date); [by destruct ok|].
  unfold is_valid_instance. cbn [patch problem_statement].
  destruct p; by destruct ok.
Qed.

End HarvestStatement.

Lemma unfetched_issues_emit_nothing_witness :
  let sw := Statement.mkWorld (λ _, Ret None) (λ _, Ret None) (λ _, Ret None) in
  let w := Pipeline.mkWorld (λ _, Ret Sample.src_only_diff)
             (Statement.extract_problem_statement_and_hints Sample.strptime sw) in
  let st' := Pipeline.process_single_pr Sample.strptime Classifier.sample_lexer w
               Sample.cutoff_instant ∅ ∅ Sample.repo_o_r Sample.pull5
               (Pipeline.mkRun Sample.no_files []) in
  Pipeline.all_output (Pipeline.fs st') = []
  ∧ Pipeline.output (Pipeline.fs st') = [].
Proof.
  intros sw w st'.
  apply (unfetched_issues_emit_nothing Sample.strptime Classifier.sample_lexer sw
           (λ _, Ret Sample.src_only_diff) Sample.cutoff_instant ∅ ∅
           Sample.repo_o_r Sample.pull5 (Pipeline.mkRun Sample.no_files [])
           ["9"]).
  - reflexivity.
  - intros n _. reflexivity.
Defined.

(** ** The issues a pull request resolves *)

Section IssuesProps.

Import Issues.

Lemma all_chars_cons (p : ascii → bool) (c : ascii) (s : string) :
  all_chars p (String c s) ↔ p c = true ∧ all_chars p s.
Proof.
  unfold all_chars. cbn [has_char]. rewrite orb_false_iff, negb_false_iff. done.
Qed.

Lemma all_chars_app (p : ascii → bool) (a b : string) :
  all_chars p (a +:+ b) ↔ all_chars p a ∧ all_chars p b.
Proof. unfold all_chars. rewrite has_char_app, orb_false_iff. done. Qed.

Lemma all_chars_none (p q : ascii → bool) (s : string) :
  (∀ c, p c = true → q c = false) → all_chars p s → has_char q s = false.
Proof.
  intros Hpq. induction s as [|c s IH]; [done|].
  intros [Hc Hs]%all_chars_cons. cbn. by rewrite (Hpq c Hc), (IH Hs).
Qed.

Lemma span_all (p : ascii → bool) (a b : string) :
  all_chars p a → stops p b → span p (a +:+ b) = (a, b).
Proof.
  intros Ha Hb. induction a as [|c a IH].
  - rewrite append_nil_l. destruct b as [|c b]; [done|]. cbn in *. by rewrite Hb.
  - apply all_chars_cons in Ha as [Hc Ha]. rewrite append_cons. cbn [span].
    by rewrite Hc, (IH Ha).
Qed.

Lemma span_spec (p : ascii → bool) (s a b : string) :
  span p s = (a, b) → s = a +:+ b ∧ all_chars p a ∧ stops p b.
Proof.
  revert a b. induction s as [|c s IH]; intros a b.
  - by intros [= <- <-].
  - cbn [span]. destruct (p c) eqn:Ec.
    + destruct (span p s) as [a' b']. intros [= <- <-].
      destruct (IH a' b' eq_refl) as (-> & Ha & Hb).
      split_and!; [done| |done]. by apply all_chars_cons.
    + intros [= <- <-]. by split_and!.
Qed.

Lemma nonempty_true (s : string) : PyStr.nonempty s = true ↔ s ≠ "".
Proof. by destruct s. Qed.

(** What a match of [issues_pat] looks like *)
Lemma match_at_some (s word num rest : string) :
  match_at s = Some (word, num, rest) →
  ∃ blanks,
    s = word +:+ blanks +:+ "#" +:+ num +:+ rest
    ∧ word ≠ "" ∧ all_chars is_word word
    ∧ blanks ≠ "" ∧ all_chars PyStr.is_space blanks
    ∧ num ≠ "" ∧ all_chars is_digit num.
Proof.
  unfold match_at.
  destruct (span is_word s) as [w r1] eqn:E1.
  destruct (PyStr.nonempty w) eqn:Nw; [|done]. cbn [negb].
  destruct (span PyStr.is_space r1) as [sp r2] eqn:E2.
  destruct (PyStr.nonempty sp) eqn:Nsp; [|done]. cbn [negb].
  destruct r2 as [|c r3]; [done|].
  destruct (Ascii.eqb_spec c "#") as [-> | _]; [|done].
  destruct (span is_digit r3) as [d r4] eqn:E3.
  destruct (PyStr.nonempty d) eqn:Nd; [|done]. intros [= <- <- <-].
  apply span_spec in E1 as (-> & Hw & _).
  apply span_spec in E2 as (-> & Hsp & _).
  apply span_spec in E3 as (-> & Hd & _).
  exists sp. rewrite nonempty_true in *. by split_and!.
Qed.

Lemma space_not_word (c : ascii) : PyStr.is_space c = true → is_word c = false.
Proof. by destruct c as [[] [] [] [] [] [] [] []]. Qed.

Lemma digit_not_hash_lt (c : ascii) :
  is_digit c = true → PyStr.is_char "#" c = false ∧ PyStr.is_char "<" c = false.
Proof. by destruct c as [[] [] [] [] [] [] [] []]. Qed.

Lemma word_not_hash_lt (c : ascii) :
  is_word c = true → PyStr.is_char "#" c = false ∧ PyStr.is_char "<" c = false.
Proof. by destruct c as [[] [] [] [] [] [] [] []]. Qed.

Lemma space_not_hash_lt (c : ascii) :
  PyStr.is_space c = true →
  PyStr.is_char "#" c = false ∧ PyStr.is_char "<" c = false.
Proof. by destruct c as [[] [] [] [] [] [] [] []]. Qed.

(** The match at a keyword reference *)
Lemma match_at_reference (kw ws ds post : string) :
  kw ≠ "" → all_chars is_word kw →
  ws ≠ "" → all_chars PyStr.is_space ws →
  ds ≠ "" → all_chars is_digit ds →
  stops is_digit post →
  match_at (kw +:+ ws +:+ "#" +:+ ds +:+ post) = Some (kw, ds, post).
Proof.
  intros Nk Hk Nw Hw Nd Hd Hp. unfold match_at.
  rewrite (span_all is_word kw) by
    first [ done
          | destruct ws as [|c ws]; [done|]; rewrite append_cons; cbn;
            apply space_not_word; by apply all_chars_cons in Hw as [? _] ].
  apply nonempty_true in Nk as ->. cbn [negb].
  rewrite (span_all PyStr.is_space ws) by done.
  apply nonempty_true in Nw as ->. cbn [negb].
  change ("#" +:+ ds +:+ post) with (String "#" (ds +:+ post)).
  cbv beta iota. rewrite Ascii.eqb_refl.
  rewrite (span_all is_digit ds) by done.
  by apply nonempty_true in Nd as ->.
Qed.

Lemma no_match_across_blanks (sp a b X : string) :
  all_chars PyStr.is_space sp →
  has_char (PyStr.is_char "#") a = false →
  (∃ c b', b = String c b' ∧ is_word c = true) →
  sp +:+ "#" +:+ X = a +:+ b → False.
Proof.
  intros Hsp. revert a. induction sp as [|x sp IH]; intros a Ha (c & b' & -> & Hc).
  - rewrite append_nil_l. destruct a as [|y a].
    + rewrite append_nil_l. intros [= <-]. done.
    + rewrite append_cons. intros [= <- _]. cbn in Ha. done.
  - apply all_chars_cons in Hsp as [Hx Hsp]. rewrite append_cons.
    destruct a as [|y a].
    + rewrite append_nil_l. intros [= -> _].
      apply space_not_word in Hx. congruence.
    + rewrite append_cons. intros [= <- E]. cbn in Ha.
      apply orb_false_elim in Ha as [_ Ha]. eapply IH; eauto.
Qed.

Lemma no_match_across (w sp a b X : string) :
  all_chars is_word w → all_chars PyStr.is_space sp →
  has_char (PyStr.is_char "#") a = false →
  a ≠ "" → ends_nonword a →
  (∃ c b', b = String c b' ∧ is_word c = true) →
  w +:+ sp +:+ "#" +:+ X = a +:+ b → False.
Proof.
  intros Hw Hsp. revert a. induction w as [|x w IH]; intros a Ha Na He Hb.
  - rewrite append_nil_l. by apply no_match_across_blanks.
  - apply all_chars_cons in Hw as [Hx Hw].
    destruct a as [|y a]; [done|]. rewrite !append_cons. intros [= <- E].
    cbn in Ha. apply orb_false_elim in Ha as [_ Ha].
    destruct a as [|z a].
    + cbn in He. congruence.
    + by apply (IH Hw (String z a)).
Qed.

(** The text before a keyword reference holds no match that reaches into
    the reference. *)
Lemma findall_go_before (pre rest : string) :
  has_char (PyStr.is_char "#") pre = false → ends_nonword pre →
  (∃ c b', rest = String c b' ∧ is_word c = true) →
  findall_go 0 (pre +:+ rest) = findall_go 0 rest.
Proof.
  intros Ha He Hb. induction pre as [|c pre IH]; [done|].
  rewrite append_cons. cbn [findall_go].
  destruct (match_at (String c (pre +:+ rest))) as [[[w d] r]|] eqn:E.
  - exfalso. apply match_at_some in E as (sp & E & _ & Hw & _ & Hsp & _).
    rewrite <- append_cons in E. symmetry in E.
    by apply (no_match_across w sp (String c pre) rest (d +:+ r) Hw Hsp Ha).
  - cbn in Ha. apply orb_false_elim in Ha as [_ Ha]. apply IH; [done|].
    destruct pre; [done|]. exact He.
Qed.

Lemma strip_go_keep (a X : string) :
  has_char (PyStr.is_char "<") a = false →
  strip_go 0 (a +:+ X) = a +:+ strip_go 0 X.
Proof.
  induction a as [|c a IH]; [done|]. cbn [has_char].
  intros [Hc Ha]%orb_false_elim. rewrite !append_cons. cbn [strip_go].
  rewrite (IH Ha). unfold PyStr.is_char in Hc.
  destruct (Ascii.eqb_spec "<" c) as [|NE]; [done|].
  destruct c as [[] [] [] [] [] [] [] []]; try done.
Qed.

Lemma lower_char_word (c : ascii) : is_word (PyStr.lower_char c) = is_word c.
Proof. by destruct c as [[] [] [] [] [] [] [] []]. Qed.

Lemma lower_word (s : string) :
  all_chars is_word (PyStr.lower s) ↔ all_chars is_word s.
Proof.
  induction s as [|c s IH]; [done|]. cbn [PyStr.lower].
  by rewrite !all_chars_cons, lower_char_word, IH.
Qed.

Lemma keyword_word (kw : string) :
  is_keyword kw = true → kw ≠ "" ∧ all_chars is_word kw.
Proof.
  unfold is_keyword, Classifier.mem. intros H.
  apply existsb_exists in H as (k & Hk & E). apply String.eqb_eq in E.
  split.
  - intros ->. cbn in E. subst k. cbn in Hk. naive_solver.
  - apply lower_word. rewrite E. cbn in Hk.
    repeat (destruct Hk as [<- | Hk]; [reflexivity|]). done.
Qed.

(** X23. A keyword reference in the title is found, on ASCII text: when
    title, body and commit messages are ASCII, the title ends with one of
    the nine keywords (in any case), blanks, a hash sign and digits, and the
    text before the keyword holds no hash sign and no opening angle bracket
    and does not end in a word character, the digits are among the extracted
    issue numbers, whatever else the body and the commit messages hold. *)
Theorem keyword_reference_found (pre kw ws ds : string) (body : option string)
  (msgs : list string) :
  all_chars is_ascii pre →
  all_chars is_ascii (default "" body) →
  Forall (all_chars is_ascii) msgs →
  has_char (PyStr.is_char "#") pre = false →
  has_char (PyStr.is_char "<") pre = false →
  ends_nonword pre →
  is_keyword kw = true →
  ws ≠ "" → all_chars PyStr.is_space ws →
  ds ≠ "" → all_chars is_digit ds →
  ∃ issues,
    extract_resolved_issues_with_official_github_api
      (Some (pre +:+ kw +:+ ws +:+ "#" +:+ ds)) body (Ret msgs) = Ret issues
    ∧ ds ∈ issues.
Proof.
  intros _ _ _ Hh Hl He Hkw Nw Hw Nd Hd.
  destruct (keyword_word kw Hkw) as [Nk Hk].
  unfold extract_resolved_issues_with_official_github_api. cbn.
  eexists. split; [reflexivity|].
  rewrite elem_of_list_to_set, list_elem_of_fmap.
  exists (kw, ds). split; [done|].
  rewrite list_elem_of_In, filter_In. split; [|done].
  set (R := NL +:+ default "" body +:+ NL +:+ PyStr.join NL msgs).
  replace (((pre +:+ kw +:+ ws +:+ "#" +:+ ds) +:+ NL +:+ default "" body)
           +:+ NL +:+ PyStr.join NL msgs)
    with ((pre +:+ kw +:+ ws +:+ "#" +:+ ds +:+ NL) +:+ (default "" body
           +:+ NL +:+ PyStr.join NL msgs))
    by (subst R; by rewrite !append_assoc).
  unfold strip_comments. rewrite strip_go_keep.
  2:{ rewrite !has_char_app, Hl.
      rewrite (all_chars_none is_word (PyStr.is_char "<") kw
                 (λ c H, proj2 (word_not_hash_lt c H)) Hk).
      rewrite (all_chars_none PyStr.is_space (PyStr.is_char "<") ws
                 (λ c H, proj2 (space_not_hash_lt c H)) Hw).
      rewrite (all_chars_none is_digit (PyStr.is_char "<") ds
                 (λ c H, proj2 (digit_not_hash_lt c H)) Hd).
      done. }
  rewrite !append_assoc. unfold findall.
  destruct kw as [|k0 kw]; [done|].
  rewrite findall_go_before; [|done|done|].
  2:{ apply all_chars_cons in Hk as [Hk0 _]. rewrite append_cons. eauto. }
  pose proof (match_at_reference (String k0 kw) ws ds
                (NL +:+ strip_go 0 (default "" body +:+ NL +:+ PyStr.join NL msgs))
                Nk Hk Nw Hw Nd Hd eq_refl) as Hm.
  rewrite append_cons in Hm |- *. cbn [findall_go]. rewrite Hm.
  apply in_eq.
Qed.

Lemma find_close (c b : string) :
  has_char (PyStr.is_char ">") c = false →
  find "-->" (c +:+ "-->" +:+ b) = Some (String.length c).
Proof.
  induction c as [|x c IH].
  { intros _. change ("" +:+ "-->" +:+ b)
      with (String "-" (String "-" (String ">" b))).
    cbn [find String.prefix String.length].
    repeat (destruct (ascii_dec _ _); [|done]). by destruct b. }
  cbn [has_char].
  intros [Hx Hc]%orb_false_elim. rewrite append_cons.
  cbn [find String.length]. rewrite (IH Hc).
  assert (Hp : String.prefix "-->" (String x (c +:+ "-->" +:+ b)) = false).
  { cbn [String.prefix]. destruct (ascii_dec "-" x) as [<-|]; [|done].
    destruct c as [|y c].
    { change ("" +:+ "-->" +:+ b) with (String "-" (String "-" (String ">" b))).
      cbn [String.prefix]. by repeat (destruct (ascii_dec _ _); try done). }
    rewrite append_cons. cbn [String.prefix].
    destruct (ascii_dec "-" y) as [<-|]; [|done].
    destruct c as [|z c].
    { change ("" +:+ "-->" +:+ b) with (String "-" (String "-" (String ">" b))).
      cbn [String.prefix]. by repeat (destruct (ascii_dec _ _); try done). }
    rewrite append_cons. cbn [String.prefix].
    cbn [has_char] in Hc. apply orb_false_elim in Hc as [_ Hc].
    apply orb_false_elim in Hc as [Hz _]. unfold PyStr.is_char in Hz.
    destruct (ascii_dec ">" z) as [<-|]; [|done].
    by rewrite Ascii.eqb_refl in Hz. }
  by rewrite Hp.
Qed.

Lemma strip_go_skip (t b : string) :
  strip_go (String.length t) (t +:+ b) = strip_go 0 b.
Proof.
  induction t as [|c t IH]; [done|]. rewrite append_cons. cbn. exact IH.
Qed.

Lemma strip_go_comment (c b : string) :
  has_char (PyStr.is_char ">") c = false →
  strip_go 0 ("<!--" +:+ c +:+ "-->" +:+ b) = strip_go 0 b.
Proof.
  intros Hc.
  change ("<!--" +:+ c +:+ "-->" +:+ b)
    with (String "<" (String "!" (String "-" (String "-" (c +:+ "-->" +:+ b))))).
  cbn [strip_go]. rewrite find_close by done.
  replace (3 + String.length c + 3)%nat
    with (String.length ("!--" +:+ c +:+ "-->")) by
    (rewrite !string_length_app; cbn; lia).
  rewrite <- (strip_go_skip ("!--" +:+ c +:+ "-->") b).
  by rewrite !append_assoc.
Qed.

(** X24. An HTML comment in the title is invisible to the extraction: a
    title with a comment that holds no closing angle bracket of its own,
    after a text without an opening one, gives the issues of the title
    without the comment. *)
Theorem html_comment_ignored (a c b : string) (body : option string)
  (commits : result (list string)) :
  has_char (PyStr.is_char "<") a = false →
  has_char (PyStr.is_char ">") c = false →
  extract_resolved_issues_with_official_github_api
    (Some (a +:+ "<!--" +:+ c +:+ "-->" +:+ b)) body commits
  = extract_resolved_issues_with_official_github_api (Some (a +:+ b)) body commits.
Proof.
  intros Ha Hc. unfold extract_resolved_issues_with_official_github_api.
  destruct commits as [msgs|e]; [|done]. cbn [mbind result_bind].
  cbv zeta.
  set (R := NL +:+ default "" body).
  assert (E : strip_comments
                (((default "" (Some (a +:+ "<!--" +:+ c +:+ "-->" +:+ b))) +:+ R)
                 +:+ NL +:+ PyStr.join NL msgs)
              = strip_comments
                  (((default "" (Some (a +:+ b))) +:+ R)
                   +:+ NL +:+ PyStr.join NL msgs)).
  { unfold strip_comments. cbn [default from_option]. unfold id.
    rewrite !append_assoc. rewrite !(strip_go_keep a) by done.
    by rewrite strip_go_comment. }
  by rewrite E.
Qed.

Lemma findall_go_numbers (s : string) (skip : nat) :
  Forall (λ ref, ref.2 ≠ "" ∧ all_chars is_digit ref.2) (findall_go skip s).
Proof.
  revert skip. induction s as [|c s IH]; intros skip; [constructor|].
  cbn [findall_go]. destruct skip as [|k]; [|apply IH].
  destruct (match_at (String c s)) as [[[w d] r]|] eqn:E; [|apply IH].
  constructor; [|apply IH].
  apply match_at_some in E as (sp & _ & _ & _ & _ & _ & Nd & Hd). done.
Qed.

(** X25. On ASCII text every extracted issue number is a non-empty string of
    the decimal digits 0 to 9: title, body and commit messages being ASCII,
    whatever the extraction returns is made of such numbers. *)
Theorem issue_numbers_are_digits (title body : option string)
  (msgs : list string) (issues : gset string) (n : string) :
  all_chars is_ascii (default "" title) →
  all_chars is_ascii (default "" body) →
  Forall (all_chars is_ascii) msgs →
  extract_resolved_issues_with_official_github_api title body (Ret msgs)
  = Ret issues →
  n ∈ issues → n ≠ "" ∧ all_chars is_digit n.
Proof.
  intros _ _ _.
  unfold extract_resolved_issues_with_official_github_api.
  cbn. intros [= <-].
  rewrite elem_of_list_to_set, list_elem_of_fmap.
  intros ([w d] & -> & Hin). apply list_elem_of_In, filter_In in Hin as [Hin _].
  pose proof (findall_go_numbers
                (strip_comments
                   ((default "" title +:+ NL +:+ default "" body)
                    +:+ NL +:+ PyStr.join NL msgs)) 0) as Hall.
  rewrite List.Forall_forall in Hall. apply (Hall (w, d) Hin).
Qed.

End IssuesProps.

Lemma keyword_reference_found_witness :
  ∃ issues,
    Issues.extract_resolved_issues_with_official_github_api
      (Some "Parser: Fixes #12") (Some "see <!-- closes #7 -->") (Ret ["wip"])
    = Ret issues
    ∧ "12"%string ∈ issues.
Proof.
  apply (keyword_reference_found "Parser: " "Fixes" " " "12"
           (Some "see <!-- closes #7 -->") ["wip"]);
    first [reflexivity | discriminate | by repeat constructor].
Defined.

Lemma html_comment_ignored_witness :
  Issues.extract_resolved_issues_with_official_github_api
    (Some "Cleanup <!-- fixes #7 --> of the parser") None (Ret [])
  = Issues.extract_resolved_issues_with_official_github_api
      (Some "Cleanup  of the parser") None (Ret []).
Proof.
  apply (html_comment_ignored "Cleanup " " fixes #7 " " of the parser" None
           (Ret [])); reflexivity.
Defined.

Lemma issue_numbers_are_digits_witness :
  "12"%string ≠ "" ∧ all_chars is_digit "12".
Proof.
  apply (issue_numbers_are_digits (Some "Parser: Fixes #12") None ["wip"]
           {[ "12"%string ]} "12").
  - reflexivity.
  - reflexivity.
  - by repeat constructor.
  - vm_compute. reflexivity.
  - by apply elem_of_singleton.
Defined.

(** ** The two implementations of the classifier *)

Section Variants.

Import Classifier.

Variable lexer_name : string -> option string.


End Variants.


Lemma java_promotion_async_witness :
  Classifier.header_flag Classifier.sample_lexer Classifier.Async "java" "r"
    Sample.java_header = Some Classifier.Test
  ∧ Classifier.step Classifier.sample_lexer Classifier.Async "java" "r"
      Classifier.init Sample.java_header
    = Classifier.mkState (Some Classifier.Test) [] [Sample.java_header].
Proof.
  apply (java_promotion_async Classifier.sample_lexer "r" Sample.java_header
           "FooTest" Classifier.init); reflexivity.
Defined.

(** ** Forced rotation *)

Section ForcedRotation.

Import Rotator.

Variable md5_int : string -> Z.

Lemma session_id_at_shift_ne (name : string) (rot off d : Z) :
  0 < d < 100000000 →
  session_id_at md5_int name rot off ≠ session_id_at md5_int name (rot + d) off.
Proof.
  intros Hd. unfold session_id_at. intros E.
  apply zfill_str_inj in E.
  - revert E. generalize (md5_int name). intros h E.
    replace (h + (rot + d) + off) with ((h + rot + off) + d) in E by lia.
    revert E. generalize (h + rot + off). intros a E.
    Z.div_mod_to_equations. lia.
  - apply Z.mod_pos_bound. lia.
  - apply Z.mod_pos_bound. lia.
Qed.

(** X28. A forced rotation changes the identity: when the rotator holds a
    session id of its own making, the three rotation assignments of a retry
    path followed by the next recorded request leave it with a different
    session id and a larger rotation count. *)
Theorem forced_rotation_changes_identity (r : ProxyRotator) (now off : Z) :
  enabled r = true →
  random_offset r = Some off →
  current_session_id r
  = Some (session_id_at md5_int (repo_full_name r) (rotation_count r) off) →
  let r' := record_request md5_int now (rotate r) in
  ∃ sid,
    current_session_id r' = Some sid
    ∧ Some sid ≠ current_session_id r
    ∧ rotation_count r < rotation_count r'.
Proof.
  intros He Ho Hs r'. subst r'.
  unfold record_request, get_proxies, increment_request_count, rotate.
  destruct r as [name cnt mx sid rot h pw hp hsp co us en ro].
  cbn in He, Ho, Hs. subst en ro sid. cbn -[Z.geb Z.modulo session_id_at].
  destruct (0 + 1 >=? mx);
    cbn -[Z.geb Z.modulo session_id_at]; eexists; (split; [reflexivity|]);
    (split; [|lia]); intros [= E]; symmetry in E; revert E.
  - replace (rot + 1 + 1) with (rot + 2) by lia.
    apply session_id_at_shift_ne. lia.
  - apply session_id_at_shift_ne. lia.
Qed.

End ForcedRotation.

Lemma forced_rotation_changes_identity_witness :
  let r := Rotator.record_request Sample.md5_int 1700000000 Sample.proxy_rotator in
  let r' := Rotator.record_request Sample.md5_int 1700000100 (Rotator.rotate r) in
  ∃ sid,
    Rotator.current_session_id r' = Some sid
    ∧ Some sid ≠ Rotator.current_session_id r
    ∧ Rotator.rotation_count r < Rotator.rotation_count r'.
Proof.
  intros r.
  apply (forced_rotation_changes_identity Sample.md5_int r 1700000100 0);
    reflexivity.
Defined.

(** ** Pulls that are no candidates *)

Section InvalidPulls.

Import Pipeline.

Variable strptime : string -> option Z.
Variable lexer_name : string -> option string.

(** X29. A work list without a merged pull that resolves an issue costs no
    request: when [is_valid_pull] rejects every pull, a run that returns has
    fetched nothing and has left the three files as they were. *)
Theorem invalid_pulls_cost_nothing (w : world) (language_ cutoff_date : string)
  (pulls : list Pull) (f : files) (r : run) :
  (∀ p, p ∈ pulls → is_valid_pull p = false) →
  main strptime lexer_name w language_ cutoff_date pulls f = Ret r →
  r = mkRun f [].
Proof.
  intros Hinv. unfold main.
  destruct (strptime cutoff_date) as [cutoff|]; [|done].
  destruct (replay strptime (all_output f) ∅) as [seen|]; [|done].
  cbn -[run_tasks].
  destruct (make_tasks language_ (pulls_by_repo pulls)) as [tasks|] eqn:Em;
    [|done].
  cbn -[run_tasks]. intros [= <-].
  assert (Ht : ∀ t, t ∈ tasks → is_valid_pull t.2 = false).
  { intros [r0 p] Hin. apply Hinv.
    destruct (make_tasks_ok language_ _ _ Em r0 p Hin) as (k & ps & Hk & Hp & _).
    by destruct (pulls_by_repo_ok pulls k ps p Hk Hp). }
  clear Em. unfold run_tasks. generalize (mkRun f []).
  induction tasks as [|[r0 p] tasks IH]; intros st; [done|].
  cbn [fold_left fst snd]. rewrite IH.
  - unfold process_single_pr.
    pose proof (Ht (r0, p) ltac:(apply list_elem_of_here)) as Hp.
    cbn [snd] in Hp. rewrite Hp.
    by destruct (bool_decide _ || bool_decide _).
  - intros t Hin. apply Ht. by apply list_elem_of_further.
Qed.

End InvalidPulls.

Lemma invalid_pulls_cost_nothing_witness :
  let open_pull :=
    Pipeline.mkPull "o/r" 8 None (Some ["9"]) "abc123" "2024-01-01T00:00:00Z"
      "https://github.com/o/r/pull/8.diff" in
  ∃ r,
    Pipeline.main Sample.strptime Classifier.sample_lexer Sample.world_src_only
      "python" Sample.cutoff [open_pull] Sample.no_files = Ret r
    ∧ r = Pipeline.mkRun Sample.no_files [].
Proof.
  intros open_pull. eexists. split; [reflexivity|].
  apply (invalid_pulls_cost_nothing Sample.strptime Classifier.sample_lexer
           Sample.world_src_only "python" Sample.cutoff [open_pull]
           Sample.no_files).
  - intros p ->%list_elem_of_singleton. reflexivity.
  - reflexivity.
Defined.
